(** * Senotype editor: the Library Service (app/models/senlib.py) and its store

    A shallow embedding of the parts of [SenLib] (app/models/senlib.py),
    [SenLibMySql] (app/models/senlib_mysql.py) and the form normalisation
    of the update route (app/routes/update/update.py) that decide the
    version tree, the assertion builders, the hydration of stored records
    and the write path.

    Conventions of the model:
    - a Python [str] is a [string] (one [ascii] per character);
    - a Python dict iterated in insertion order is an association list
      ([dict_get], [dict_set] keep Python's "overwrite in place, append new"
      behaviour); the senotype table keyed by id is a [gmap string _];
    - JSON data whose shape the code inspects with [.get] is a [json] value;
    - an exception is an [Err] result; unbounded Python recursion is given a
      fuel argument and running out of fuel is the [NoFuel] result. *)

From Stdlib Require Import String Ascii ZArith List Lia.
From stdpp Require Import base gmap strings list.

Open Scope string_scope.

(* ------------------------------------------------------------------ *)
(** ** Results: values, raised exceptions, exhausted fuel *)

Inductive exn :=
| KeyError (k : string)
| IndexError
| TypeError
| AttributeError
| ConnectionError
| DatabaseError.

Inductive res (A : Type) :=
| Ok (a : A)
| Err (e : exn)
| NoFuel.
Arguments Ok {A} a.
Arguments Err {A} e.
Arguments NoFuel {A}.

Definition res_bind {A B} (r : res A) (k : A -> res B) : res B :=
  match r with
  | Ok a => k a
  | Err e => Err e
  | NoFuel => NoFuel
  end.

Notation "'let!' x := r 'in' k" := (res_bind r (fun x => k))
  (at level 200, x name, r at level 100, k at level 200).

Fixpoint res_mapM {A B} (f : A -> res B) (l : list A) : res (list B) :=
  match l with
  | [] => Ok []
  | x :: l' => let! y := f x in let! ys := res_mapM f l' in Ok (y :: ys)
  end.

(* ------------------------------------------------------------------ *)
(** ** Python helpers *)

(** Truthiness of an optional string ([if x:] on [None] or a [str]). *)
Definition truthy (o : option string) : bool :=
  match o with
  | Some s => negb (String.eqb s "")
  | None => false
  end.

(** Insertion-ordered dicts. *)
Fixpoint dict_get {V} (d : list (string * V)) (k : string) : option V :=
  match d with
  | [] => None
  | (k', v) :: d' => if String.eqb k k' then Some v else dict_get d' k
  end.

Fixpoint dict_set {V} (d : list (string * V)) (k : string) (v : V)
    : list (string * V) :=
  match d with
  | [] => [(k, v)]
  | (k', v') :: d' =>
      if String.eqb k k' then (k', v) :: d' else (k', v') :: dict_set d' k v
  end.

Definition dict_mem {V} (d : list (string * V)) (k : string) : bool :=
  match dict_get d k with Some _ => true | None => false end.

(** Python slicing [s[:n]]; a negative [n] counts from the end. *)
Definition py_prefix (s : string) (n : Z) : string :=
  if (n <? 0)%Z
  then substring 0 (Z.to_nat (Z.of_nat (String.length s) + n)) s
  else substring 0 (Z.to_nat n) s.

Set Warnings "-register-all".

(** JSON values as returned by [json.loads] / [r.json()]. *)
Inductive json :=
| JNull
| JBool (b : bool)
| JNum (z : Z)
| JStr (s : string)
| JList (l : list json)
| JObj (kv : list (string * json)).

(** [d.get(k)] on a JSON object ([None] for a missing key). *)
Definition jget (j : json) (k : string) : res (option json) :=
  match j with
  | JObj kv => Ok (dict_get kv k)
  | _ => Err AttributeError
  end.

(* ------------------------------------------------------------------ *)
(** ** SenLib.truncateddisplaytext *)

(** [truncateddisplaytext(displayid, description, trunclength)]:
    a negative length means the whole description; an ellipsis is added
    when the (possibly reset) length is below the description's length. *)
Definition truncateddisplaytext (displayid description : string) (trunclength : Z)
    : string :=
  let trunclength :=
    if (trunclength <? 0)%Z then Z.of_nat (String.length description) else trunclength in
  let ell :=
    if (trunclength <? Z.of_nat (String.length description))%Z then "..." else "" in
  displayid ++ " (" ++ py_prefix description trunclength ++ ell ++ ")".

(** The rule as the specification words it:
    ["{id} ({description[:max]}...)"] when the description is longer than
    [max], ["{id} ({description})"] otherwise. *)
Definition truncate_spec (displayid description : string) (max : Z) : string :=
  if (max <? Z.of_nat (String.length description))%Z
  then displayid ++ " (" ++ py_prefix description max ++ "...)"
  else displayid ++ " (" ++ description ++ ")".

(* ------------------------------------------------------------------ *)
(** ** Senotype submission JSON (the document stored per version id) *)

Record provenance := mkProvenance {
  predecessor : option string;
  successor : option string
}.

Record senotype := mkSenotype {
  snt_id : string;
  snt_provenance : provenance;
  doi : option string;
  name : option string;
  definition : option string
}.

Record submitter := mkSubmitter {
  first : option string;
  last : option string;
  email : option string
}.

Record predicate := mkPredicate {
  term : string;
  IRI : option string
}.

Record assertion := mkAssertion {
  a_predicate : predicate;
  a_objects : list json
}.

Record senotype_json := mkSenotypeJson {
  sj_senotype : senotype;
  sj_submitter : submitter;
  sj_assertions : list assertion
}.

Definition sj_id (j : senotype_json) : string := snt_id (sj_senotype j).
Definition sj_prov (j : senotype_json) : provenance :=
  snt_provenance (sj_senotype j).

(* ------------------------------------------------------------------ *)
(** ** SenLib._getsenotypejtree *)

Module JTree.

(** The three visual states of a version node. *)
Inductive node_state := Editable | Unauthorized | Published.

(** The jstree JSON, with the display text and styles left implicit:
    a version node carries its id, its computed version and its state;
    a group node its id (["group" + id]), the chain name and the version
    count; [JNew] is the "create new" leaf and [JLibrary] the top node. *)
Inductive jtree :=
| JVersion (id : string) (version : nat) (state : node_state) (children : list jtree)
| JGroup (id : string) (gname : string) (count : nat) (children : list jtree)
| JNew
| JLibrary (children : list jtree).

(** The maps built by the first loop over [getallsenotypejsons()]. *)
Record maps := mkMaps {
  senotype_by_id : list (string * senotype);
  predecessor_map : list (string * string);
  name_map : list (string * string);
  submitter_email_by_id : list (string * option string)
}.

Definition add_json (m : maps) (obj : senotype_json) : maps :=
  let snt := sj_senotype obj in
  let id_ := snt_id snt in
  let nm := match name snt with Some n => n | None => id_ end in
  let pm :=
    match predecessor (snt_provenance snt) with
    | Some p => if truthy (Some p) then dict_set (predecessor_map m) id_ p
                else predecessor_map m
    | None => predecessor_map m
    end in
  mkMaps (dict_set (senotype_by_id m) id_ snt) pm
         (dict_set (name_map m) id_ nm)
         (dict_set (submitter_email_by_id m) id_ (email (sj_submitter obj))).

Definition build_maps (jsons : list senotype_json) : maps :=
  fold_left add_json jsons (mkMaps [] [] [] []).

(** [oldest_ids = [id_ for id_ in senotype_by_id if id_ not in predecessor_map]]. *)
Definition oldest_ids (m : maps) : list string :=
  List.filter (fun id_ => negb (dict_mem (predecessor_map m) id_))
         (map fst (senotype_by_id m)).

(** [assign_versions_from_oldest]: the unguarded recursion, with fuel. *)
Fixpoint assign_versions_from_oldest (fuel : nat) (sbi : list (string * senotype))
    (id_ : string) (version : nat) (version_map : list (string * nat))
    : res (list (string * nat)) :=
  match fuel with
  | 0 => NoFuel
  | S fuel' =>
      let version_map := dict_set version_map id_ version in
      match dict_get sbi id_ with
      | None => Err (KeyError id_)
      | Some snt =>
          match successor (snt_provenance snt) with
          | Some succ =>
              if truthy (Some succ)
              then assign_versions_from_oldest fuel' sbi succ (S version) version_map
              else Ok version_map
          | None => Ok version_map
          end
      end
  end.

(** [for oid in oldest_ids: assign_versions_from_oldest(oid, 1)]. *)
Fixpoint assign_all (fuel : nat) (sbi : list (string * senotype)) (oids : list string)
    (version_map : list (string * nat)) : res (list (string * nat)) :=
  match oids with
  | [] => Ok version_map
  | oid :: oids' =>
      let! vm := assign_versions_from_oldest fuel sbi oid 1 version_map in
      assign_all fuel sbi oids' vm
  end.

Definition node_state_of (snt : senotype) (em : option string) (userid : string)
    : node_state :=
  let editable := negb (truthy (doi snt)) in
  let authorized := match em with Some e => String.eqb e userid | None => false end in
  if editable then (if authorized then Editable else Unauthorized) else Published.

(** A node of [node_map]: version, state, and the ids of its children
    (the node dicts are shared, so a child list holds references). *)
Definition node := (nat * node_state * list string)%type.

(** The node-construction loop; [version_map[id_]] raises [KeyError]. *)
Fixpoint build_nodes (m : maps) (vm : list (string * nat)) (userid : string)
    (sbi : list (string * senotype)) : res (list (string * node)) :=
  match sbi with
  | [] => Ok []
  | (id_, snt) :: sbi' =>
      match dict_get vm id_ with
      | None => Err (KeyError id_)
      | Some v =>
          let em := match dict_get (submitter_email_by_id m) id_ with
                    | Some e => e | None => None end in
          let! rest := build_nodes m vm userid sbi' in
          Ok ((id_, (v, node_state_of snt em userid, [])) :: rest)
      end
  end.

(** The child-attachment loop: each node is appended to the children of
    the node of its successor, when that node exists. *)
Definition attach_child (node_map : list (string * node)) (p : string * senotype)
    : list (string * node) :=
  let '(id_, snt) := p in
  match successor (snt_provenance snt) with
  | Some succ =>
      if truthy (Some succ) then
        match dict_get node_map succ with
        | Some (v, st, cs) => dict_set node_map succ (v, st, app cs [id_])
        | None => node_map
        end
      else node_map
  | None => node_map
  end.

Definition attach_children (sbi : list (string * senotype)) (node_map : list (string * node))
    : list (string * node) :=
  fold_left attach_child sbi node_map.

(** Serialising the shared node dicts: a node with its children, recursively. *)
Fixpoint render (fuel : nat) (node_map : list (string * node)) (id_ : string)
    : res jtree :=
  match fuel with
  | 0 => NoFuel
  | S fuel' =>
      match dict_get node_map id_ with
      | None => Err (KeyError id_)
      | Some (v, st, cs) =>
          let! kids := res_mapM (render fuel' node_map) cs in
          Ok (JVersion id_ v st kids)
      end
  end.

(** [latest_ids]: the ids without a (truthy) successor. *)
Definition latest_ids (sbi : list (string * senotype)) : list string :=
  map fst (List.filter (fun p => negb (truthy (successor (snt_provenance (snd p))))) sbi).

Definition group_of (fuel : nat) (m : maps) (vm : list (string * nat))
    (node_map : list (string * node)) (id_ : string) : res jtree :=
  let! root := render fuel node_map id_ in
  match dict_get vm id_ with
  | None => Err (KeyError id_)
  | Some v =>
      let nm := match dict_get (name_map m) id_ with Some n => n | None => id_ end in
      Ok (JGroup ("group" ++ id_) nm v [root])
  end.

Definition getsenotypejtree (fuel : nat) (jsons : list senotype_json) (userid : string)
    : res jtree :=
  let m := build_maps jsons in
  let! vm := assign_all fuel (senotype_by_id m) (oldest_ids m) [] in
  let! nodes := build_nodes m vm userid (senotype_by_id m) in
  let node_map := attach_children (senotype_by_id m) nodes in
  let! groups := res_mapM (group_of fuel m vm node_map) (latest_ids (senotype_by_id m)) in
  Ok (JLibrary (JNew :: groups)).

End JTree.

(* ------------------------------------------------------------------ *)
(** ** The service's tables and the submitted form *)

(** A row of [senotype_editor_valuesets]. *)
Record valueset_row := mkValuesetRow {
  predicate_IRI : option string;
  predicate_term : string;
  valueset_code : string;
  valueset_term : string
}.

(** A row of [assertion_predicate_object]: form field, predicate, source. *)
Record apo_row := mkApoRow {
  object_form_field : string;
  apo_predicate_term : string;
  object_source : string
}.

(** The tables a [SenLib] instance loads at construction. *)
Record senlib := mkSenLib {
  assertionvaluesets : list valueset_row;
  assertion_predicate_object : list apo_row;
  context_assertion_code : list (string * string);  (* context_name, code *)
  entity_url : string;        (* ENTITY_BASE_URL *)
  ubkg_base_url : string;     (* UBKG_BASE_URL *)
  host_url : string           (* request.host_url.rstrip('/') *)
}.

(** A value of [form.data]: a [StringField] ([None] or a [str]), a
    [FieldList] of strings, or the [regmarker] list of
    [{marker, action}] entries. *)
Inductive fval :=
| FStr (s : option string)
| FList (l : list string)
| FRegs (l : list (string * string)).

Definition form := list (string * fval).

Definition form_get (fd : form) (k : string) : option fval := dict_get fd k.

Definition json_of_opt (o : option string) : json :=
  match o with Some s => JStr s | None => JNull end.

Definition regentry_json (m : string * string) : json :=
  JObj [("marker", JStr (fst m)); ("action", JStr (snd m))].

Definition json_of_fval (v : fval) : json :=
  match v with
  | FStr s => json_of_opt s
  | FList l => JList (map JStr l)
  | FRegs l => JList (map regentry_json l)
  end.

(** [form_data.get(k)] for a [StringField]. *)
Definition form_str (fd : form) (k : string) : option string :=
  match form_get fd k with Some (FStr s) => s | _ => None end.

(** [get_field_metadata(field_name, 'predicate_term' / 'object_source')]. *)
Definition get_field_row (self : senlib) (field_name : string) : option apo_row :=
  find (fun r => String.eqb (object_form_field r) field_name)
       (assertion_predicate_object self).

(** [get_iri(predicate_term)]. *)
Definition get_iri (self : senlib) (pt : string) : option string :=
  match find (fun r => String.eqb (predicate_term r) pt) (assertionvaluesets self) with
  | Some r => predicate_IRI r
  | None => None
  end.

(* ------------------------------------------------------------------ *)
(** ** SenLib.buildsimpleassertions *)

Definition simple_object (source : string) (fv : json) : json :=
  JObj [("source", JStr source); ("code", fv)].

Definition field_values (v : fval) : list json :=
  match v with
  | FList l => map JStr l
  | FStr s => [json_of_opt s]
  | FRegs l => map regentry_json l
  end.

Fixpoint buildsimpleassertions (self : senlib) (form_data : form) : list assertion :=
  match form_data with
  | [] => []
  | (key, v) :: rest =>
      match get_field_row self key with
      | None => buildsimpleassertions self rest
      | Some row =>
          let pt := apo_predicate_term row in
          let fvs := field_values v in
          if Nat.ltb 0 (length fvs) then
            mkAssertion (mkPredicate pt (get_iri self pt))
                        (map (simple_object (object_source row)) fvs)
              :: buildsimpleassertions self rest
          else buildsimpleassertions self rest
      end
  end.

(* ------------------------------------------------------------------ *)
(** ** SenLib.buildcontextassertions *)

Definition opt_field (k : string) (v : option fval) : list (string * json) :=
  match v with
  | None => []
  | Some x => [(k, json_of_fval x)]
  end.

(** [form_data.get(name)] as a Python value: [None] when missing or null. *)
Definition form_value (fd : form) (k : string) : option fval :=
  match form_get fd k with
  | Some (FStr None) => None
  | o => o
  end.

(** The body of the loop for one row of [context_assertion_code]. *)
Definition context_row_assertions (form_data : form) (row : string * string)
    : list assertion :=
  let '(context_object_name, code) := row in
  match form_value form_data context_object_name with
  | None => []
  | Some value =>
      let lowerbound := form_value form_data (context_object_name ++ "lowerbound") in
      let upperbound := form_value form_data (context_object_name ++ "upperbound") in
      let unit := form_value form_data (context_object_name ++ "unit") in
      let obj := JObj ([("term", JStr context_object_name); ("code", JStr code);
                        ("value", json_of_fval value)]
                       ++ opt_field "lowerbound" lowerbound
                       ++ opt_field "upperbound" upperbound
                       ++ opt_field "unit" unit)%list in
      [mkAssertion (mkPredicate "has_context" None) [obj]]
  end.

(** The [return assertions] statement sits inside the [for] loop over the
    table: the first row decides the result; an empty table falls off the
    end of the function, which returns [None]. *)
Definition buildcontextassertions (self : senlib) (form_data : form)
    : option (list assertion) :=
  let assertions := [] in
  match context_assertion_code self with
  | [] => None                                  (* loop done: falls off, None *)
  | row :: _ =>
      let assertions := app assertions (context_row_assertions form_data row) in
      Some assertions                           (* return assertions *)
  end.

(* ------------------------------------------------------------------ *)
(** ** SenLib.buildregmarkerassertions *)

(** The three object lists of the function; an appended assertion holds a
    reference to one of them, not a copy. *)
Inductive objlist := UpObjects | DownObjects | IncObjects.

Record regstate := mkRegState {
  up_objects : list json;
  down_objects : list json;
  inc_objects : list json;
  pending : list (string * objlist)   (* appended assertions: term, list *)
}.

Definition deref (s : regstate) (r : objlist) : list json :=
  match r with
  | UpObjects => up_objects s
  | DownObjects => down_objects s
  | IncObjects => inc_objects s
  end.

(** One iteration of [for m in regmarkers]: sort the object, then (at the
    same indentation, inside the loop) append an assertion for every
    non-empty list. *)
Definition regmarker_step (s : regstate) (m : string * string) : regstate :=
  let '(code, action) := m in
  let obj := JObj [("source", JStr "external"); ("code", JStr code)] in
  let s :=
    if String.eqb action "up_regulates"
    then mkRegState (app (up_objects s) [obj]) (down_objects s) (inc_objects s) (pending s)
    else if String.eqb action "down_regulates"
    then mkRegState (up_objects s) (app (down_objects s) [obj]) (inc_objects s) (pending s)
    else mkRegState (up_objects s) (down_objects s) (app (inc_objects s) [obj]) (pending s) in
  let p := pending s in
  let p := if Nat.ltb 0 (length (up_objects s)) then app p [("up_regulates", UpObjects)] else p in
  let p := if Nat.ltb 0 (length (down_objects s)) then app p [("down_regulates", DownObjects)] else p in
  let p := if Nat.ltb 0 (length (inc_objects s)) then app p [("inconclusively_regulates", IncObjects)] else p in
  mkRegState (up_objects s) (down_objects s) (inc_objects s) p.

(** The returned list, as it is serialised: each assertion shows the final
    contents of the list it references. *)
Definition reg_assertions (s : regstate) : list assertion :=
  map (fun '(t, r) => mkAssertion (mkPredicate t None) (deref s r)) (pending s).

Definition buildregmarkerassertions (form_data : form) : res (list assertion) :=
  match form_get form_data "regmarker" with
  | Some (FRegs regmarkers) =>
      Ok (reg_assertions (fold_left regmarker_step regmarkers (mkRegState [] [] [] [])))
  | Some (FList []) => Ok []
  | Some (FList (_ :: _)) => Err AttributeError     (* str has no .get *)
  | Some (FStr (Some "")) => Ok []
  | Some (FStr (Some _)) => Err AttributeError
  | Some (FStr None) | None => Err TypeError         (* len(None) *)
  end.

(* ------------------------------------------------------------------ *)
(** ** SenLib.buildassertions, buildsubmissionjson, writesubmission *)

Definition buildassertions (self : senlib) (form_data : form) : res (list assertion) :=
  let assertions := buildsimpleassertions self form_data in
  let! reg := buildregmarkerassertions form_data in
  let assertions := app assertions reg in
  match buildcontextassertions self form_data with
  | None => Err TypeError                          (* len(None) *)
  | Some ctx => Ok (if Nat.ltb 0 (length ctx) then app assertions ctx else assertions)
  end.

(** The senotype table: [senotypeid] to the stored JSON document. *)
Abbreviation store := (gmap string senotype_json).

(** [getsenotypejson(id)]: the id is interpolated into the query, so a
    Python [None] looks up the id ["None"]; a miss is [{}]. *)
Definition id_key (o : option string) : string :=
  match o with Some s => s | None => "None" end.

Definition getsenotypejson (st : store) (id : option string) : option senotype_json :=
  st !! id_key id.

(** [writesenotype]: an upsert keyed on the id; a [NULL] key is rejected
    by the database (abort 500). *)
Definition writesenotype (st : store) (senotypeid : option string) (j : senotype_json)
    : res store :=
  match senotypeid with
  | Some sid => Ok (<[sid := j]> st)
  | None => Err DatabaseError
  end.

Definition getprovenanceids (st : store) (senotypeid predecessorid : option string)
    : provenance :=
  match getsenotypejson st senotypeid with
  | Some sj =>
      let dictprov := sj_prov sj in
      let pred := match predecessorid with
                  | None => predecessor dictprov
                  | Some p => Some p
                  end in
      mkProvenance pred (successor dictprov)
  | None => mkProvenance predecessorid None
  end.

(** [str.split(' (')[0]]: the text before the first [" ("]. *)
Fixpoint split_paren (s : string) : string :=
  match s with
  | EmptyString => EmptyString
  | String c rest => if String.prefix " (" s then EmptyString else String c (split_paren rest)
  end.

Definition buildsubmissionjson (self : senlib) (st : store) (form_data : form)
    (senotypeid predecessorid : option string) : res senotype_json :=
  let doiurl := match form_str form_data "doi" with
                | Some d => Some ("https://doi.org/" ++ split_paren d)
                | None => None
                end in
  let dictsenotype :=
    mkSenotype (id_key senotypeid) (getprovenanceids st senotypeid predecessorid) doiurl
               (form_str form_data "senotypename") (form_str form_data "senotypedescription") in
  let dictsubmitter :=
    mkSubmitter (form_str form_data "submitterfirst") (form_str form_data "submitterlast")
                (form_str form_data "submitteremail") in
  let! listassertions := buildassertions self form_data in
  Ok (mkSenotypeJson dictsenotype dictsubmitter listassertions).

Definition set_successor (j : senotype_json) (s : string) : senotype_json :=
  let snt := sj_senotype j in
  mkSenotypeJson
    (mkSenotype (snt_id snt) (mkProvenance (predecessor (snt_provenance snt)) (Some s))
                (doi snt) (name snt) (definition snt))
    (sj_submitter j) (sj_assertions j).

Definition clear_doi (j : senotype_json) : senotype_json :=
  let snt := sj_senotype j in
  mkSenotypeJson
    (mkSenotype (snt_id snt) (snt_provenance snt) None (name snt) (definition snt))
    (sj_submitter j) (sj_assertions j).

(** [updatesuccessor]: a missing record is [{}] and [{}['senotype']] raises. *)
Definition updatesuccessor (st : store) (senotypeid : option string) (successorid : string)
    : res store :=
  match getsenotypejson st senotypeid with
  | None => Err (KeyError "senotype")
  | Some revisedjson => writesenotype st senotypeid (set_successor revisedjson successorid)
  end.

Definition writesubmission (self : senlib) (st : store) (form_data : form)
    (new_version_id : string) : res store :=
  let '(senotypeid, predecessorid) :=
    if String.eqb new_version_id ""
    then (form_str form_data "senotypeid", None)
    else (Some new_version_id, form_str form_data "senotypeid") in
  let! submissionjson := buildsubmissionjson self st form_data senotypeid predecessorid in
  let submissionjson :=
    if String.eqb new_version_id "" then submissionjson else clear_doi submissionjson in
  let! st := writesenotype st senotypeid submissionjson in
  if String.eqb new_version_id "" then Ok st
  else updatesuccessor st predecessorid new_version_id.

(* ------------------------------------------------------------------ *)
(** ** String and JSON helpers used by the hydration code *)

Definition is_ws (c : ascii) : bool :=
  match c with
  | " "%char | "009"%char | "010"%char | "011"%char | "012"%char | "013"%char => true
  | _ => false
  end.

Fixpoint lstrip (s : string) : string :=
  match s with
  | EmptyString => EmptyString
  | String c rest => if is_ws c then lstrip rest else s
  end.

Definition string_rev (s : string) : string :=
  string_of_list_ascii (rev (list_ascii_of_string s)).

(** [str.strip()]. *)
Definition py_strip (s : string) : string := string_rev (lstrip (string_rev (lstrip s))).

(** [sub in s]. *)
Definition str_contains (sub s : string) : bool :=
  match String.index 0 sub s with Some _ => true | None => false end.

(** [s.split(sep)] for a one-character separator. *)
Fixpoint split_char (sep : ascii) (s : string) : list string :=
  match s with
  | EmptyString => [EmptyString]
  | String c rest =>
      if Ascii.eqb c sep then EmptyString :: split_char sep rest
      else match split_char sep rest with
           | w :: ws => String c w :: ws
           | [] => [String c EmptyString]
           end
  end.

(** [s.split(':')[1]]: [IndexError] without a colon. *)
Definition colon_field1 (s : string) : res string :=
  match split_char ":" s with
  | _ :: f :: _ => Ok f
  | _ => Err IndexError
  end.

(** [o.get('code')] used as a [str]. *)
Definition obj_code (o : json) : res string :=
  let! c := jget o "code" in
  match c with Some (JStr s) => Ok s | _ => Err AttributeError end.

(** [d.get(k, default)]. *)
Definition jget_default (j : json) (k : string) (dflt : json) : res json :=
  let! v := jget j k in
  match v with Some x => Ok x | None => Ok dflt end.

(** [len(x)]. *)
Definition jlen (j : json) : res nat :=
  match j with
  | JList l => Ok (length l)
  | JObj kv => Ok (length kv)
  | JStr s => Ok (String.length s)
  | _ => Err TypeError
  end.

(** [x[0]]. *)
Definition jindex0 (j : json) : res json :=
  match j with
  | JList (x :: _) => Ok x
  | JList [] => Err IndexError
  | JObj _ => Err (KeyError "0")
  | _ => Err TypeError
  end.

(** Python truthiness of a JSON value. *)
Definition jtruthy (j : json) : bool :=
  match j with
  | JNull => false
  | JBool b => b
  | JNum z => negb (Z.eqb z 0)
  | JStr s => negb (String.eqb s "")
  | JList l => negb (Nat.eqb (length l) 0)
  | JObj kv => negb (Nat.eqb (length kv) 0)
  end.

(** [for o in rawobjects: ... oret.append(...)], each iteration giving
    zero or one entry [{code, term}]. *)
Fixpoint resolve_each (f : json -> res (list (string * json))) (raw : list json)
    : res (list (string * json)) :=
  match raw with
  | [] => Ok []
  | o :: raw' =>
      let! x := f o in
      let! rest := resolve_each f raw' in
      Ok (app x rest)
  end.

(* ------------------------------------------------------------------ *)
(** ** The external term resolvers of SenLib

    [api url] is [RequestRetry().getresponse(url, format='json')]: the
    parsed JSON of the answer, or [ConnectionError], which [getresponse]
    re-raises once its retries are exhausted. *)

Section Resolvers.

Variable self : senlib.
Variable api : string -> res json.

Definition citation_url (pmid : string) : string :=
  "https://eutils.ncbi.nlm.nih.gov/entrez/eutils/esummary.fcgi?db=pubmed&retmode=json&id="
  ++ pmid.

Definition citation_object (o : json) : res (list (string * json)) :=
  let! code := obj_code o in
  let! pmid := colon_field1 code in
  let! citation := api (citation_url pmid) in
  let! result := jget citation "result" in
  match result with
  | None | Some JNull => Ok [(code, JStr "unknown")]
  | Some r =>
      let! entry := jget r pmid in
      match entry with
      | None | Some JNull => Ok [(code, JStr "unknown")]
      | Some e => let! title := jget_default e "title" (JStr "") in Ok [(code, title)]
      end
  end.

Definition getcitationobjects (raw : list json) := resolve_each citation_object raw.

Definition origin_url (rrid : string) : string :=
  "https://scicrunch.org/resolver/" ++ rrid ++ ".json".

Definition origin_object (o : json) : res (list (string * json)) :=
  let! code := obj_code o in
  let! rrid := colon_field1 code in
  let! origin := api (origin_url rrid) in
  let! hits := jget origin "hits" in
  match hits with
  | None | Some JNull => Ok [(code, JStr "unknown")]
  | Some h =>
      let! hs := jget h "hits" in
      let! h0 := jindex0 (match hs with Some x => x | None => JNull end) in
      let! src := jget h0 "_source" in
      let! item := jget (match src with Some x => x | None => JNull end) "item" in
      let! description :=
        jget_default (match item with Some x => x | None => JNull end) "description" (JStr "") in
      Ok [(code, description)]
  end.

Definition getoriginobjects (raw : list json) := resolve_each origin_object raw.

Definition dataset_object (o : json) : res (list (string * json)) :=
  let! code := obj_code o in
  let! dataset := api (entity_url self ++ code) in
  let! title := jget_default dataset "title" (JStr "") in
  Ok [(code, title)].

Definition getdatasetobjects (raw : list json) := resolve_each dataset_object raw.

Definition marker_url (code : string) : res string :=
  let! markerid := colon_field1 code in
  let endpoint := if str_contains "HGNC" code then "genes" else "proteins" in
  Ok (ubkg_base_url self ++ "/" ++ endpoint ++ "/" ++ markerid).

Definition marker_object (o : json) : res (list (string * json)) :=
  let! code := obj_code o in
  let code := py_strip code in
  if orb (String.eqb code "") (negb (str_contains ":" code)) then Ok [(code, JNull)]
  else
    let! url := marker_url code in
    let! resp := api url in
    let bad := match resp with
               | JList (r0 :: _) => negb (jtruthy r0)
               | _ => true
               end in
    if bad then Ok [(code, JStr code)]
    else
      let! data := jindex0 resp in
      if str_contains "HGNC" code then
        let! t := jget_default data "approved_symbol" (JStr code) in Ok [(code, t)]
      else
        let! rn := jget data "recommended_name" in
        match rn with
        | Some (JList (JStr n :: _)) => Ok [(code, JStr (py_strip n))]
        | Some (JList (_ :: _)) => Err AttributeError
        | _ => Ok [(code, JStr code)]
        end.

Definition getmarkerobjects (raw : list json) := resolve_each marker_object raw.

Definition celltype_object (o : json) : res (list (string * json)) :=
  let! c := obj_code o in
  let! code := colon_field1 c in
  let! celltype := api (host_url self ++ "/ontology/celltypes/" ++ code) in
  let! n := jlen celltype in
  if Nat.ltb 0 n then
    let! c0 := jindex0 celltype in
    let! ct := jget c0 "cell_type" in
    let! nm := jget_default (match ct with Some x => x | None => JNull end) "name" (JStr "") in
    Ok [("CL:" ++ code, nm)]
  else Ok [].

Definition getcelltypeobjects (raw : list json) := resolve_each celltype_object raw.

Definition diagnosis_object (o : json) : res (list (string * json)) :=
  let! code := obj_code o in
  let! diagnoses := api (host_url self ++ "/ontology/diagnoses/" ++ code ++ "/code") in
  let! n := jlen diagnoses in
  if Nat.ltb 0 n then
    let! d0 := jindex0 diagnoses in
    let! t := jget d0 "term" in
    Ok [(code, match t with Some x => x | None => JNull end)]
  else Ok [].

Definition getdiagnosisobjects (raw : list json) := resolve_each diagnosis_object raw.

Definition location_object (o : json) : res (list (string * json)) :=
  let! code := obj_code o in
  let! organs := api (host_url self ++ "/ontology/organs" ++ "/" ++ code ++ "/code") in
  let! n := jlen organs in
  if Nat.ltb 0 n then
    let! o0 := jindex0 organs in
    let! t := jget o0 "term" in
    Ok [(code, match t with Some x => x | None => JNull end)]
  else Ok [].

Definition getlocationobjects (raw : list json) := resolve_each location_object raw.

End Resolvers.

(* ------------------------------------------------------------------ *)
(** ** Hydration of the stored assertions (SenLib.fetchfromdb) *)

(** [getassertionvalueset(predicate)]: rows matching the IRI, else the term. *)
Definition getassertionvalueset (self : senlib) (p : string) : list valueset_row :=
  match List.filter (fun r => match predicate_IRI r with
                         | Some i => String.eqb i p | None => false end)
               (assertionvaluesets self) with
  | [] => List.filter (fun r => String.eqb (predicate_term r) p) (assertionvaluesets self)
  | rows => rows
  end.

(** [getsenlibterm(predicate, code)]. *)
Definition getsenlibterm (self : senlib) (p code : string) : option string :=
  match find (fun r => String.eqb (valueset_code r) code) (getassertionvalueset self p) with
  | Some r => Some (valueset_term r)
  | None => None
  end.

Definition py_str_opt (o : option string) : string :=
  match o with Some s => s | None => "None" end.

(** [getassertionobjects]: [{code, term: f'{code} ({term})'}]. *)
Definition assertion_object (self : senlib) (p : string) (o : json)
    : res (list (string * json)) :=
  let! code := obj_code o in
  Ok [(code, JStr (code ++ " (" ++ py_str_opt (getsenlibterm self p code) ++ ")"))].

Definition getassertionobjects (self : senlib) (p : string) (raw : list json) :=
  resolve_each (assertion_object self p) raw.

(** The dispatch on the predicate inside [getstoredsimpleassertiondata]. *)
Definition hydrate_objects (self : senlib) (api : string -> res json) (p : string)
    (raw : list json) : res (list (string * json)) :=
  if String.eqb p "has_citation" then getcitationobjects api raw
  else if String.eqb p "has_origin" then getoriginobjects api raw
  else if String.eqb p "has_dataset" then getdatasetobjects self api raw
  else if String.eqb p "has_characterizing_marker_set" then getmarkerobjects self api raw
  else if String.eqb p "has_cell_type" then getcelltypeobjects self api raw
  else if String.eqb p "located_in" then getlocationobjects self api raw
  else if String.eqb p "has_diagnosis" then getdiagnosisobjects self api raw
  else getassertionobjects self p raw.

Definition predicate_matches (a : assertion) (p : string) : bool :=
  orb (match IRI (a_predicate a) with Some i => String.eqb i p | None => false end)
      (String.eqb (term (a_predicate a)) p).

(** [getstoredsimpleassertiondata]: the objects of the first assertion
    whose IRI or term is the predicate, hydrated. *)
Fixpoint getstoredsimpleassertiondata (self : senlib) (api : string -> res json)
    (assertions : list assertion) (p : string) : res (list (string * json)) :=
  match assertions with
  | [] => Ok []
  | a :: rest =>
      if predicate_matches a p then hydrate_objects self api p (a_objects a)
      else getstoredsimpleassertiondata self api rest p
  end.

(** How [fetchfromdb] renders an item of a list field: its [term]
    (already ["code (term)"]), or [truncateddisplaytext] at a length. *)
Inductive display := ByTerm | Trunc (n : Z).

(** The list fields of the edit form that [fetchfromdb] fills from the
    simple assertions, in its order: field, predicate, rendering. *)
Definition simple_fields : list (string * string * display) :=
  [("taxon", "in_taxon", ByTerm);
   ("location", "located_in", Trunc 50);
   ("celltype", "has_cell_type", Trunc 100);
   ("microenvironment", "has_microenvironment", ByTerm);
   ("hallmark", "has_hallmark", ByTerm);
   ("inducer", "has_inducer", ByTerm);
   ("assay", "has_assay", ByTerm);
   ("sex", "has_sex", ByTerm);
   ("citation", "has_citation", Trunc 25);
   ("origin", "has_origin", Trunc 25);
   ("dataset", "has_dataset", Trunc 25);
   ("marker", "has_characterizing_marker_set", Trunc 100);
   ("diagnosis", "has_diagnosis", Trunc 50)].

(** The rendering of one item; [len(description)] needs a [str]. *)
Definition display_item (d : display) (item : string * json) : res string :=
  match d, snd item with
  | ByTerm, JStr t => Ok t
  | Trunc n, JStr t => Ok (truncateddisplaytext (fst item) t n)
  | _, _ => Err TypeError
  end.

(** One list field: its values, or [['']] when the list is empty. *)
Definition hydrate_field (self : senlib) (api : string -> res json)
    (assertions : list assertion) (fpd : string * string * display)
    : res (string * list string) :=
  let '(f, p, d) := fpd in
  let! items := getstoredsimpleassertiondata self api assertions p in
  match items with
  | [] => Ok (f, [""])
  | _ => let! vs := res_mapM (display_item d) items in Ok (f, vs)
  end.

Definition hydrate_simple_fields (self : senlib) (api : string -> res json)
    (assertions : list assertion) : res (list (string * list string)) :=
  res_mapM (hydrate_field self api assertions) simple_fields.

(** Modelled from the spec: the edit form's list-field template, not part
    of src/, submits for each displayed item its code, "the raw submitted
    value, stripped of any parenthetical display label the hydration step
    added". *)
Definition template_code (displayed : string) : string := split_paren displayed.

(** [normalize_multidict] (routes/update/update.py) on the values of one
    key: stripped, without blanks and without the string ['None']. *)
Definition normalize_values (values : list string) : list string :=
  map py_strip
      (List.filter (fun v => andb (negb (String.eqb v ""))
                             (andb (negb (String.eqb (py_strip v) ""))
                                   (negb (String.eqb (py_strip v) "None")))) values).

(** The kinds of the [EditForm] fields: a [StringField] or [TextAreaField],
    a [FieldList] of strings, and the [FieldList(FormField)] of
    regulating markers. *)
Inductive field_kind := KStr | KList | KRegs.

(** The fields of [EditForm] (models/editform.py), in declaration order:
    the keys of [form.data]. *)
Definition editform_layout : list (string * field_kind) :=
  [("senotypeid", KStr); ("senotypename", KStr); ("senotypedescription", KStr);
   ("doi", KStr); ("provenance", KList);
   ("submitterfirst", KStr); ("submitterlast", KStr); ("submitteremail", KStr);
   ("taxon", KList); ("location", KList); ("celltype", KList);
   ("microenvironment", KList); ("hallmark", KList); ("inducer", KList);
   ("assay", KList);
   ("agevalue", KStr); ("agelowerbound", KStr); ("ageupperbound", KStr); ("ageunit", KStr);
   ("bmivalue", KStr); ("bmilowerbound", KStr); ("bmiupperbound", KStr); ("bmiunit", KStr);
   ("sex", KList); ("citation", KList); ("origin", KList); ("dataset", KList);
   ("marker", KList); ("regmarker", KRegs); ("diagnosis", KList)].

(** [form.data] of the edit form posted back: each string field with the
    value it was shown ([scalars], e.g. the record's name, or ['year'] for
    [ageunit]); each list field that [fetchfromdb] filled with the codes of
    its hydrated values; [provenance], which [fetchfromdb] does not fill,
    empty; and no regulating marker. *)
Definition submitted_form (scalars : string -> option string)
    (fields : list (string * list string)) : form :=
  map (fun '(f, k) =>
         (f, match k with
             | KStr => FStr (scalars f)
             | KList => FList (match dict_get fields f with
                               | Some vs => normalize_values (map template_code vs)
                               | None => []
                               end)
             | KRegs => FRegs []
             end)) editform_layout.

(** [dehydrate_form(hydrate_assertions(record))]. *)
Definition round_trip (self : senlib) (api : string -> res json)
    (scalars : string -> option string) (assertions : list assertion)
    : res (list assertion) :=
  let! fields := hydrate_simple_fields self api assertions in
  buildassertions self (submitted_form scalars fields).

(** The [{predicate, code}] pairs of a list of assertions. *)
Definition json_code (o : json) : json :=
  match o with
  | JObj kv => match dict_get kv "code" with Some c => c | None => JNull end
  | _ => JNull
  end.

Definition pairs (l : list assertion) : list (string * json) :=
  flat_map (fun a => map (fun o => (term (a_predicate a), json_code o)) (a_objects a)) l.

(* ================================================================== *)
(** * Properties *)

(* ------------------------------------------------------------------ *)
(** ** Truncated display text *)

Lemma substring_0_long (s : string) (n : nat) :
  String.length s <= n -> substring 0 n s = s.
Proof.
  revert n; induction s as [|c s IH]; intros n Hn.
  - destruct n; reflexivity.
  - destruct n as [|n]; simpl in *; [lia|].
    rewrite IH; [reflexivity|lia].
Qed.

Example truncate_long_example :
  truncateddisplaytext "GO:001" "a very long description text" 10 = "GO:001 (a very lon...)".
Proof. reflexivity. Qed.

Example truncate_short_example :
  truncateddisplaytext "GO:002" "short" 10 = "GO:002 (short)".
Proof. reflexivity. Qed.

(** C7 (counterexample): with a negative maximum the description is shown
    whole and without an ellipsis, while the rule gives ["{id} ({description[:max]}...)"]. *)
Lemma C7_negative_max_counterexample :
  truncateddisplaytext "GO:003" "abc" (-1) = "GO:003 (abc)" /\
  truncate_spec "GO:003" "abc" (-1) = "GO:003 (ab...)" /\
  truncateddisplaytext "GO:003" "abc" (-1) <> truncate_spec "GO:003" "abc" (-1).
Proof. split; [reflexivity|split; [reflexivity|discriminate]]. Qed.

(** C7 (amended): for a maximum [max >= 0] the display text is
    ["{id} ({description[:max]}...)"] when the description is longer than
    [max] and ["{id} ({description})"] otherwise; a negative maximum shows
    the whole description without an ellipsis. *)
Theorem C7_truncateddisplaytext_rule (displayid description : string) (max : Z) :
  truncateddisplaytext displayid description max =
  if (0 <=? max)%Z then truncate_spec displayid description max
  else displayid ++ " (" ++ description ++ ")".
Proof.
  unfold truncateddisplaytext, truncate_spec, py_prefix.
  destruct (max <? 0)%Z eqn:Hneg.
  - apply Z.ltb_lt in Hneg.
    replace (0 <=? max)%Z with false by (symmetry; apply Z.leb_gt; lia).
    rewrite Z.ltb_irrefl.
    replace (Z.of_nat (String.length description) <? 0)%Z with false
      by (symmetry; apply Z.ltb_ge; lia).
    rewrite Nat2Z.id, substring_0_long by lia. reflexivity.
  - apply Z.ltb_ge in Hneg.
    replace (0 <=? max)%Z with true by (symmetry; apply Z.leb_le; lia).
    replace (max <? 0)%Z with false by (symmetry; apply Z.ltb_ge; lia).
    destruct (max <? Z.of_nat (String.length description))%Z eqn:Hlt.
    + reflexivity.
    + apply Z.ltb_ge in Hlt.
      rewrite substring_0_long by lia. reflexivity.
Qed.

(* ------------------------------------------------------------------ *)
(** ** Context assertions *)

Lemma context_row_assertions_shape (fd : form) (row : string * string) :
  length (context_row_assertions fd row) <= 1 /\
  Forall (fun a => term (a_predicate a) = "has_context" /\
                   Forall (fun o => jget o "term" = Ok (Some (JStr (fst row)))) (a_objects a))
         (context_row_assertions fd row).
Proof.
  destruct row as [nm code]; unfold context_row_assertions.
  destruct (form_value fd nm); simpl; [|split; [lia|constructor]].
  split; [lia|]. repeat constructor.
Qed.

(** C10: [buildcontextassertions] returns inside its loop: for a table
    whose first row is [row], the result is a list of at most one
    assertion, whose object is the context of [row]; later rows never
    contribute, whatever the form holds for them. *)
Theorem C10_context_first_row_only (self : senlib) (fd : form)
    (row : string * string) (rest : list (string * string))
    (Htable : context_assertion_code self = row :: rest) :
  exists l,
    buildcontextassertions self fd = Some l /\
    l = context_row_assertions fd row /\
    length l <= 1 /\
    Forall (fun a => Forall (fun o => jget o "term" = Ok (Some (JStr (fst row))))
                            (a_objects a)) l.
Proof.
  unfold buildcontextassertions; rewrite Htable; simpl.
  exists (context_row_assertions fd row).
  destruct (context_row_assertions_shape fd row) as [Hlen Hall].
  split; [reflexivity|split; [reflexivity|split; [exact Hlen|]]].
  eapply Forall_impl; [exact Hall|]. intros a [_ H]; exact H.
Qed.

Definition context_table_age_bmi : senlib :=
  mkSenLib [] [] [("age", "PATO:0000011"); ("BMI", "EFO:0004340")] "" "" "".

Definition context_form_age_bmi : form :=
  [("age", FStr (Some "30")); ("agelowerbound", FStr (Some "20"));
   ("ageupperbound", FStr (Some "40")); ("ageunit", FStr (Some "year"));
   ("BMI", FStr (Some "25")); ("BMIlowerbound", FStr (Some "20"));
   ("BMIupperbound", FStr (Some "30")); ("BMIunit", FStr (Some "kg/m2"))].

Lemma C10_context_first_row_only_witness :
  context_assertion_code context_table_age_bmi =
    ("age", "PATO:0000011") :: [("BMI", "EFO:0004340")] /\
  buildcontextassertions context_table_age_bmi context_form_age_bmi =
    Some [mkAssertion (mkPredicate "has_context" None)
            [JObj [("term", JStr "age"); ("code", JStr "PATO:0000011");
                   ("value", JStr "30"); ("lowerbound", JStr "20");
                   ("upperbound", JStr "40"); ("unit", JStr "year")]]] /\
  exists l, buildcontextassertions context_table_age_bmi context_form_age_bmi = Some l /\
    l = context_row_assertions context_form_age_bmi ("age", "PATO:0000011") /\
    length l <= 1 /\
    Forall (fun a => Forall (fun o => jget o "term" = Ok (Some (JStr "age")))
                            (a_objects a)) l.
Proof.
  split; [reflexivity|split; [reflexivity|]].
  exact (C10_context_first_row_only context_table_age_bmi context_form_age_bmi
           ("age", "PATO:0000011") [("BMI", "EFO:0004340")] eq_refl).
Defined.

(* ------------------------------------------------------------------ *)
(** ** Regulating-marker assertions *)

Definition regmarker_form_2up_1down : form :=
  [("regmarker", FRegs [("HGNC:11998", "up_regulates"); ("HGNC:1787", "up_regulates");
                        ("HGNC:3236", "down_regulates")])].

Definition regobj (code : string) : json :=
  JObj [("source", JStr "external"); ("code", JStr code)].

(** C1 (failing input): two [up_regulates] entries and one
    [down_regulates] entry give four assertions, three of them the same
    [up_regulates] assertion with both objects. *)
Theorem C1_regmarker_duplicates :
  buildregmarkerassertions regmarker_form_2up_1down =
    Ok [mkAssertion (mkPredicate "up_regulates" None) [regobj "HGNC:11998"; regobj "HGNC:1787"];
        mkAssertion (mkPredicate "up_regulates" None) [regobj "HGNC:11998"; regobj "HGNC:1787"];
        mkAssertion (mkPredicate "up_regulates" None) [regobj "HGNC:11998"; regobj "HGNC:1787"];
        mkAssertion (mkPredicate "down_regulates" None) [regobj "HGNC:3236"]].
Proof. reflexivity. Qed.

(* ------------------------------------------------------------------ *)
(** ** The write path *)

Lemma buildsubmissionjson_ok (self : senlib) (st : store) (fd : form)
    (sid pid : option string) (sj : senotype_json) :
  buildsubmissionjson self st fd sid pid = Ok sj ->
  exists assertions,
    buildassertions self fd = Ok assertions /\
    sj = mkSenotypeJson
           (mkSenotype (id_key sid) (getprovenanceids st sid pid)
              (match form_str fd "doi" with
               | Some d => Some ("https://doi.org/" ++ split_paren d) | None => None end)
              (form_str fd "senotypename") (form_str fd "senotypedescription"))
           (mkSubmitter (form_str fd "submitterfirst") (form_str fd "submitterlast")
              (form_str fd "submitteremail"))
           assertions.
Proof.
  unfold buildsubmissionjson.
  destruct (buildassertions self fd) as [a| |]; simpl; intros H; inversion H; subst.
  eexists; split; reflexivity.
Qed.

Lemma provenance_eta (p : provenance) :
  mkProvenance (predecessor p) (successor p) = p.
Proof. destruct p; reflexivity. Qed.

Lemma getprovenanceids_update (st : store) (sid : string) :
  getprovenanceids st (Some sid) None =
  match st !! sid with
  | Some old => sj_prov old
  | None => mkProvenance None None
  end.
Proof.
  unfold getprovenanceids, getsenotypejson; simpl.
  destruct (st !! sid); [apply provenance_eta|reflexivity].
Qed.

Lemma writesubmission_update (self : senlib) (st : store) (fd : form) :
  writesubmission self st fd "" =
  let! sj := buildsubmissionjson self st fd (form_str fd "senotypeid") None in
  writesenotype st (form_str fd "senotypeid") sj.
Proof.
  unfold writesubmission; simpl.
  destruct (buildsubmissionjson _ _ _ _ _); simpl; [|reflexivity|reflexivity].
  destruct (writesenotype _ _ _); reflexivity.
Qed.

(** C8: an update or a new chain ([new_version_id = ""], so a null
    predecessor id) persists the stored provenance of the target unchanged,
    or [{predecessor: null, successor: null}] when the target is new. *)
Theorem C8_update_keeps_provenance (self : senlib) (st st' : store) (fd : form)
    (sid : string)
    (Hid : form_str fd "senotypeid" = Some sid)
    (Hw : writesubmission self st fd "" = Ok st') :
  exists sj,
    st' !! sid = Some sj /\
    sj_prov sj = match st !! sid with
                 | Some old => sj_prov old
                 | None => mkProvenance None None
                 end.
Proof.
  rewrite writesubmission_update, Hid in Hw.
  destruct (buildsubmissionjson self st fd (Some sid) None) as [sj| |] eqn:Hb;
    simpl in Hw; try discriminate.
  injection Hw as <-.
  apply buildsubmissionjson_ok in Hb as [a [_ ->]].
  eexists; split; [apply lookup_insert_eq|].
  unfold sj_prov; simpl. apply getprovenanceids_update.
Qed.

(** C6: a second identical update ([new_version_id = ""]) leaves the store
    as the first one left it. *)
Theorem C6_update_idempotent (self : senlib) (st st1 : store) (fd : form)
    (Hw : writesubmission self st fd "" = Ok st1) :
  writesubmission self st1 fd "" = Ok st1.
Proof.
  rewrite writesubmission_update in *.
  destruct (form_str fd "senotypeid") as [sid|] eqn:Hid.
  2:{ destruct (buildsubmissionjson _ _ _ _ _); discriminate. }
  destruct (buildsubmissionjson self st fd (Some sid) None) as [sj| |] eqn:Hb;
    simpl in Hw; try discriminate.
  injection Hw as <-.
  pose proof Hb as Hb'.
  apply buildsubmissionjson_ok in Hb' as [a [Ha ->]].
  unfold buildsubmissionjson at 1. rewrite Ha; simpl.
  rewrite getprovenanceids_update, lookup_insert_eq.
  unfold sj_prov; simpl.
  rewrite insert_insert_eq. reflexivity.
Qed.

(** C2: the new-version write links the predecessor to the new id and
    stores the new version with no DOI, the predecessor id, and no successor. *)
Theorem C2_new_version_links (self : senlib) (st st' : store) (fd : form)
    (P Q : string) (recP : senotype_json)
    (HP : form_str fd "senotypeid" = Some P)
    (HQ : Q <> "")
    (HstP : st !! P = Some recP)
    (HstQ : st !! Q = None)
    (Hw : writesubmission self st fd Q = Ok st') :
  (exists rP, st' !! P = Some rP /\ successor (sj_prov rP) = Some Q) /\
  (exists rQ, st' !! Q = Some rQ /\ doi (sj_senotype rQ) = None /\
              predecessor (sj_prov rQ) = Some P /\ successor (sj_prov rQ) = None).
Proof.
  assert (HPQ : P <> Q) by (intros ->; congruence).
  unfold writesubmission in Hw.
  replace (String.eqb Q "") with false in Hw by (symmetry; apply String.eqb_neq; exact HQ).
  rewrite HP in Hw.
  destruct (buildsubmissionjson self st fd (Some Q) (Some P)) as [sj| |] eqn:Hb;
    simpl in Hw; try discriminate.
  apply buildsubmissionjson_ok in Hb as [a [_ ->]].
  unfold updatesuccessor, getsenotypejson in Hw; simpl in Hw.
  rewrite lookup_insert_ne in Hw by congruence.
  rewrite HstP in Hw; simpl in Hw.
  injection Hw as <-.
  split.
  - eexists; split; [apply lookup_insert_eq|reflexivity].
  - eexists; split.
    + rewrite lookup_insert_ne by congruence. apply lookup_insert_eq.
    + unfold getprovenanceids, getsenotypejson; simpl. rewrite HstQ.
      repeat split; reflexivity.
Qed.

(** A concrete service, form and store for the write path. *)
Definition tables_ex : senlib :=
  mkSenLib [mkValuesetRow (Some "http://purl.obolibrary.org/obo/RO_0002162") "in_taxon"
                          "NCBITaxon:9606" "human"]
           [mkApoRow "taxon" "in_taxon" "valueset"]
           [("age", "PATO:0000011")] "" "" "".

Definition form_ex (sid : string) : form :=
  [("senotypeid", FStr (Some sid)); ("doi", FStr (Some "10.1/x (A title)"));
   ("senotypename", FStr (Some "Senotype X")); ("submitteremail", FStr (Some "a@x.org"));
   ("taxon", FList ["NCBITaxon:9606"]); ("regmarker", FRegs [])].

Definition rec_P : senotype_json :=
  mkSenotypeJson
    (mkSenotype "P" (mkProvenance None None) (Some "https://doi.org/X") (Some "Senotype X") None)
    (mkSubmitter None None (Some "a@x.org")) [].

Definition store_ex : store := <["P" := rec_P]> ∅.

Definition write_result (r : res store) : store :=
  match r with Ok s => s | _ => ∅ end.

Lemma C8_update_keeps_provenance_witness :
  form_str (form_ex "P") "senotypeid" = Some "P" /\
  writesubmission tables_ex store_ex (form_ex "P") "" =
    Ok (write_result (writesubmission tables_ex store_ex (form_ex "P") "")) /\
  exists sj,
    write_result (writesubmission tables_ex store_ex (form_ex "P") "") !! "P" = Some sj /\
    sj_prov sj = match store_ex !! "P" with
                 | Some old => sj_prov old
                 | None => mkProvenance None None
                 end.
Proof.
  assert (Hw : writesubmission tables_ex store_ex (form_ex "P") "" =
               Ok (write_result (writesubmission tables_ex store_ex (form_ex "P") "")))
    by reflexivity.
  split; [reflexivity|split; [exact Hw|]].
  exact (C8_update_keeps_provenance tables_ex store_ex _ (form_ex "P") "P" eq_refl Hw).
Defined.

Lemma C6_update_idempotent_witness :
  writesubmission tables_ex store_ex (form_ex "P") "" =
    Ok (write_result (writesubmission tables_ex store_ex (form_ex "P") "")) /\
  writesubmission tables_ex
    (write_result (writesubmission tables_ex store_ex (form_ex "P") "")) (form_ex "P") "" =
    Ok (write_result (writesubmission tables_ex store_ex (form_ex "P") "")).
Proof.
  assert (Hw : writesubmission tables_ex store_ex (form_ex "P") "" =
               Ok (write_result (writesubmission tables_ex store_ex (form_ex "P") "")))
    by reflexivity.
  split; [exact Hw|].
  exact (C6_update_idempotent tables_ex store_ex _ (form_ex "P") Hw).
Defined.

Lemma C2_new_version_links_witness :
  form_str (form_ex "P") "senotypeid" = Some "P" /\ "Q" <> "" /\
  store_ex !! "P" = Some rec_P /\ store_ex !! "Q" = None /\
  writesubmission tables_ex store_ex (form_ex "P") "Q" =
    Ok (write_result (writesubmission tables_ex store_ex (form_ex "P") "Q")) /\
  (exists rP, write_result (writesubmission tables_ex store_ex (form_ex "P") "Q") !! "P"
                = Some rP /\ successor (sj_prov rP) = Some "Q") /\
  (exists rQ, write_result (writesubmission tables_ex store_ex (form_ex "P") "Q") !! "Q"
                = Some rQ /\ doi (sj_senotype rQ) = None /\
              predecessor (sj_prov rQ) = Some "P" /\ successor (sj_prov rQ) = None).
Proof.
  assert (Hw : writesubmission tables_ex store_ex (form_ex "P") "Q" =
               Ok (write_result (writesubmission tables_ex store_ex (form_ex "P") "Q")))
    by reflexivity.
  assert (HQ : "Q" <> "") by discriminate.
  assert (HP : store_ex !! "P" = Some rec_P) by reflexivity.
  assert (HQn : store_ex !! "Q" = None) by reflexivity.
  split; [reflexivity|split; [exact HQ|split; [exact HP|split; [exact HQn|split; [exact Hw|]]]]].
  exact (C2_new_version_links tables_ex store_ex _ (form_ex "P") "P" "Q" rec_P
           eq_refl HQ HP HQn Hw).
Defined.

(* ------------------------------------------------------------------ *)
(** ** Resolution failures of the externally-linked assertions *)

Inductive linked := Citation | Origin | Dataset | Marker | CellType | Diagnosis | Location.

Definition resolver (self : senlib) (k : linked) (api : string -> res json)
    : list json -> res (list (string * json)) :=
  match k with
  | Citation => getcitationobjects api
  | Origin => getoriginobjects api
  | Dataset => getdatasetobjects self api
  | Marker => getmarkerobjects self api
  | CellType => getcelltypeobjects self api
  | Diagnosis => getdiagnosisobjects self api
  | Location => getlocationobjects self api
  end.

Definition res_url (r : res string) : option string :=
  match r with Ok u => Some u | _ => None end.

(** The URL each resolver requests for a code ([None]: no request is made). *)
Definition object_url (self : senlib) (k : linked) (c : string) : option string :=
  match k with
  | Citation => res_url (let! p := colon_field1 c in Ok (citation_url p))
  | Origin => res_url (let! p := colon_field1 c in Ok (origin_url p))
  | Dataset => Some (entity_url self ++ c)
  | Marker =>
      let c := py_strip c in
      if orb (String.eqb c "") (negb (str_contains ":" c)) then None
      else res_url (marker_url self c)
  | CellType => res_url (let! p := colon_field1 c in
                         Ok (host_url self ++ "/ontology/celltypes/" ++ p))
  | Diagnosis => Some (host_url self ++ "/ontology/diagnoses/" ++ c ++ "/code")
  | Location => Some (host_url self ++ "/ontology/organs" ++ "/" ++ c ++ "/code")
  end.

(** An answer of the service that does not know the code. *)
Definition unknown_answer (k : linked) : json :=
  match k with
  | Citation => JObj [("result", JObj [])]
  | Origin | Dataset => JObj []
  | Marker | CellType | Diagnosis | Location => JList []
  end.

(** What the resolver then records for the object. *)
Definition placeholder (k : linked) (c : string) : list (string * json) :=
  match k with
  | Citation | Origin => [(c, JStr "unknown")]
  | Dataset => [(c, JStr "")]
  | Marker => [(py_strip c, JStr (py_strip c))]
  | CellType | Diagnosis | Location => []
  end.

Lemma resolve_each_app (f : json -> res (list (string * json))) (l1 l2 : list json) :
  resolve_each f (l1 ++ l2) =
  let! a := resolve_each f l1 in let! b := resolve_each f l2 in Ok (app a b).
Proof.
  induction l1 as [|o l1 IH]; simpl.
  - destruct (resolve_each f l2); reflexivity.
  - destruct (f o) as [x| |]; simpl; [|reflexivity|reflexivity].
    rewrite IH. destruct (resolve_each f l1) as [a| |]; simpl; [|reflexivity|reflexivity].
    destruct (resolve_each f l2); simpl; [|reflexivity|reflexivity].
    rewrite app_assoc. reflexivity.
Qed.

Definition resolver_object (self : senlib) (k : linked) (api : string -> res json)
    : json -> res (list (string * json)) :=
  match k with
  | Citation => citation_object api
  | Origin => origin_object api
  | Dataset => dataset_object self api
  | Marker => marker_object self api
  | CellType => celltype_object self api
  | Diagnosis => diagnosis_object self api
  | Location => location_object self api
  end.

Lemma resolver_each (self : senlib) (k : linked) (api : string -> res json) (raw : list json) :
  resolver self k api raw = resolve_each (resolver_object self k api) raw.
Proof. destruct k; reflexivity. Qed.

Ltac url_cases H :=
  repeat match type of H with
  | context [colon_field1 ?c] =>
      let E := fresh in destruct (colon_field1 c) eqn:E; simpl in H; try discriminate
  end.

Lemma resolver_object_unknown (self : senlib) (k : linked) (api : string -> res json)
    (o : json) (c u : string) :
  obj_code o = Ok c -> object_url self k c = Some u -> api u = Ok (unknown_answer k) ->
  resolver_object self k api o = Ok (placeholder k c).
Proof.
  intros Hc Hu Ha.
  destruct k; simpl in *; unfold citation_object, origin_object, dataset_object,
    marker_object, celltype_object, diagnosis_object, location_object; rewrite Hc; simpl.
  - url_cases Hu. injection Hu as <-. simpl. rewrite Ha. reflexivity.
  - url_cases Hu. injection Hu as <-. simpl. rewrite Ha. reflexivity.
  - injection Hu as <-. simpl. rewrite Ha. reflexivity.
  - destruct (orb _ _); [discriminate|].
    destruct (marker_url self (py_strip c)) as [u'| |]; simpl in Hu; try discriminate.
    injection Hu as <-. simpl. rewrite Ha. reflexivity.
  - url_cases Hu. injection Hu as <-. simpl. rewrite Ha. reflexivity.
  - injection Hu as <-. simpl. rewrite Ha. reflexivity.
  - injection Hu as <-. simpl. rewrite Ha. reflexivity.
Qed.

Lemma resolver_object_transport (self : senlib) (k : linked) (api : string -> res json)
    (o : json) (c u : string) :
  obj_code o = Ok c -> object_url self k c = Some u -> api u = Err ConnectionError ->
  resolver_object self k api o = Err ConnectionError.
Proof.
  intros Hc Hu Ha.
  destruct k; simpl in *; unfold citation_object, origin_object, dataset_object,
    marker_object, celltype_object, diagnosis_object, location_object; rewrite Hc; simpl.
  - url_cases Hu. injection Hu as <-. simpl. rewrite Ha. reflexivity.
  - url_cases Hu. injection Hu as <-. simpl. rewrite Ha. reflexivity.
  - injection Hu as <-. simpl. rewrite Ha. reflexivity.
  - destruct (orb _ _); [discriminate|].
    destruct (marker_url self (py_strip c)) as [u'| |]; simpl in Hu; try discriminate.
    injection Hu as <-. simpl. rewrite Ha. reflexivity.
  - url_cases Hu. injection Hu as <-. simpl. rewrite Ha. reflexivity.
  - injection Hu as <-. simpl. rewrite Ha. reflexivity.
  - injection Hu as <-. simpl. rewrite Ha. reflexivity.
Qed.

Definition code_obj (c : string) : json := JObj [("source", JStr "external"); ("code", JStr c)].

(** The cell-type service knows [CL:0000236] only. *)
Definition celltype_api (u : string) : res json :=
  if String.eqb u "/ontology/celltypes/0000236"
  then Ok (JList [JObj [("cell_type", JObj [("name", JStr "B cell")])]])
  else Ok (JList []).

(** C9 (counterexample): an unknown cell-type code gets no placeholder, its
    object is dropped; a transport failure of the citation service aborts
    the whole hydration of the assertion. *)
Lemma C9_resolution_failure_counterexample :
  getcelltypeobjects tables_ex celltype_api [code_obj "CL:9999999"; code_obj "CL:0000236"]
    = Ok [("CL:0000236", JStr "B cell")] /\
  getcitationobjects (fun _ => Err ConnectionError)
    [code_obj "PMID:31000000"; code_obj "PMID:32000000"] = Err ConnectionError.
Proof. split; reflexivity. Qed.

(** C9 (amended): when the service answers that it does not know a code,
    the resolver records the placeholder of its kind for that object
    (["unknown"] for citations and origins, [""] for datasets, the code for
    markers, nothing for cell types, diagnoses and locations) and resolves
    the sibling objects as usual; when the request fails in transport
    ([ConnectionError], re-raised by [RequestRetry]), the whole resolution
    of the assertion fails with it. *)
Theorem C9_resolution_failures (self : senlib) (k : linked) (api : string -> res json)
    (pre post : list json) (o : json) (c u : string)
    (Hc : obj_code o = Ok c) (Hu : object_url self k c = Some u) :
  (api u = Ok (unknown_answer k) ->
   resolver self k api (pre ++ o :: post) =
     let! a := resolver self k api pre in
     let! b := resolver self k api post in
     Ok (app a (app (placeholder k c) b))) /\
  (api u = Err ConnectionError ->
   forall a, resolver self k api pre = Ok a ->
   resolver self k api (pre ++ o :: post) = Err ConnectionError).
Proof.
  rewrite !resolver_each. split.
  - intros Ha. rewrite resolve_each_app. simpl.
    rewrite (resolver_object_unknown self k api o c u Hc Hu Ha). simpl.
    destruct (resolve_each _ pre); simpl; [|reflexivity|reflexivity].
    destruct (resolve_each _ post); reflexivity.
  - intros Ha a Hpre. rewrite resolve_each_app, Hpre. simpl.
    rewrite (resolver_object_transport self k api o c u Hc Hu Ha). reflexivity.
Qed.

Lemma C9_resolution_failures_witness :
  obj_code (code_obj "CL:9999999") = Ok "CL:9999999" /\
  object_url tables_ex CellType "CL:9999999" = Some "/ontology/celltypes/9999999" /\
  celltype_api "/ontology/celltypes/9999999" = Ok (unknown_answer CellType) /\
  resolver tables_ex CellType celltype_api ([code_obj "CL:0000236"] ++ code_obj "CL:9999999" :: [])
    = Ok [("CL:0000236", JStr "B cell")] /\
  ((celltype_api "/ontology/celltypes/9999999" = Ok (unknown_answer CellType) ->
    resolver tables_ex CellType celltype_api ([code_obj "CL:0000236"] ++ code_obj "CL:9999999" :: []) =
      let! a := resolver tables_ex CellType celltype_api [code_obj "CL:0000236"] in
      let! b := resolver tables_ex CellType celltype_api [] in
      Ok (app a (app (placeholder CellType "CL:9999999") b))) /\
   (celltype_api "/ontology/celltypes/9999999" = Err ConnectionError ->
    forall a, resolver tables_ex CellType celltype_api [code_obj "CL:0000236"] = Ok a ->
    resolver tables_ex CellType celltype_api ([code_obj "CL:0000236"] ++ code_obj "CL:9999999" :: [])
      = Err ConnectionError)).
Proof.
  assert (Hc : obj_code (code_obj "CL:9999999") = Ok "CL:9999999") by reflexivity.
  assert (Hu : object_url tables_ex CellType "CL:9999999" = Some "/ontology/celltypes/9999999")
    by reflexivity.
  split; [exact Hc|split; [exact Hu|split; [reflexivity|split; [reflexivity|]]]].
  exact (C9_resolution_failures tables_ex CellType celltype_api [code_obj "CL:0000236"] []
           (code_obj "CL:9999999") "CL:9999999" "/ontology/celltypes/9999999" Hc Hu).
Defined.

(* ------------------------------------------------------------------ *)
(** ** The forward walk of the version tree *)

Lemma dict_get_set {V} (d : list (string * V)) (k x : string) (v : V) :
  dict_get (dict_set d k v) x = if String.eqb x k then Some v else dict_get d x.
Proof.
  induction d as [|[k' v'] d IH]; simpl.
  - reflexivity.
  - destruct (String.eqb_spec k k') as [->|Hk]; simpl.
    + destruct (String.eqb x k'); reflexivity.
    + rewrite IH. destruct (String.eqb_spec x k'), (String.eqb_spec x k); congruence.
Qed.

(** One step of the forward walk: the truthy successor of a stored record. *)
Definition succ_of (sbi : list (string * senotype)) (x : string) : option string :=
  match dict_get sbi x with
  | Some snt =>
      match successor (snt_provenance snt) with
      | Some s => if truthy (Some s) then Some s else None
      | None => None
      end
  | None => None
  end.

(** [n] steps of the forward walk from [x]. *)
Fixpoint succ_iter (n : nat) (sbi : list (string * senotype)) (x : string) : option string :=
  match n with
  | 0 => Some x
  | S n' =>
      match succ_of sbi x with
      | Some y => succ_iter n' sbi y
      | None => None
      end
  end.

Lemma succ_iter_add sbi a b x :
  succ_iter (a + b) sbi x =
    match succ_iter a sbi x with Some y => succ_iter b sbi y | None => None end.
Proof.
  revert x. induction a as [|a IH]; intros x; simpl; [reflexivity|].
  destruct (succ_of sbi x); [apply IH|reflexivity].
Qed.

(** A record on a successor cycle starts a walk that never stops. *)
Lemma succ_iter_cycle sbi x k :
  succ_iter (S k) sbi x = Some x -> forall n, succ_iter n sbi x <> None.
Proof.
  intros Hc n. induction n as [n IH] using (well_founded_induction lt_wf).
  destruct (Nat.lt_ge_cases n (S k)) as [Hlt|Hge].
  - intros Hn. replace (S k) with (n + (S k - n)) in Hc by lia.
    rewrite succ_iter_add, Hn in Hc. discriminate.
  - replace n with (S k + (n - S k)) by lia. rewrite succ_iter_add, Hc.
    apply IH. lia.
Qed.

Lemma assign_versions_ok fuel sbi id_ v vm vm' :
  JTree.assign_versions_from_oldest fuel sbi id_ v vm = Ok vm' ->
  (forall x, dict_mem vm' x = true ->
     dict_mem vm x = true \/ exists n, succ_iter n sbi id_ = Some x) /\
  exists N, succ_iter N sbi id_ = None.
Proof.
  revert id_ v vm. induction fuel as [|fuel IH]; intros id_ v vm H; simpl in H;
    [discriminate|].
  assert (Hset : forall x, dict_mem (dict_set vm id_ v) x = true ->
                 dict_mem vm x = true \/ x = id_).
  { intros x. unfold dict_mem. rewrite dict_get_set.
    destruct (String.eqb_spec x id_); auto. }
  destruct (dict_get sbi id_) as [snt|] eqn:E; [|discriminate].
  assert (Hs : succ_of sbi id_ =
    match successor (snt_provenance snt) with
    | Some s => if truthy (Some s) then Some s else None | None => None end)
    by (unfold succ_of; rewrite E; reflexivity).
  destruct (successor (snt_provenance snt)) as [s|] eqn:Es;
    [destruct (truthy (Some s)) eqn:Et|].
  - simpl in Et. rewrite Et in H. destruct (IH _ _ _ H) as [Hm [N HN]]. split.
    + intros x Hx. destruct (Hm x Hx) as [Hx'|[n Hn]].
      * destruct (Hset x Hx') as [Hv| ->]; [left; assumption|right; exists 0; reflexivity].
      * right. exists (S n). simpl. rewrite Hs. exact Hn.
    + exists (S N). simpl. rewrite Hs. exact HN.
  - simpl in Et. rewrite Et in H. injection H as <-. split.
    + intros x Hx. destruct (Hset x Hx) as [Hv| ->]; [left; assumption|right; exists 0; reflexivity].
    + exists 1. simpl. rewrite Hs. reflexivity.
  - injection H as <-. split.
    + intros x Hx. destruct (Hset x Hx) as [Hv| ->]; [left; assumption|right; exists 0; reflexivity].
    + exists 1. simpl. rewrite Hs. reflexivity.
Qed.

Lemma assign_all_ok fuel sbi oids vm vm' :
  JTree.assign_all fuel sbi oids vm = Ok vm' ->
  (forall x, dict_mem vm' x = true ->
     dict_mem vm x = true \/ exists r, In r oids /\ exists n, succ_iter n sbi r = Some x) /\
  forall r, In r oids -> exists N, succ_iter N sbi r = None.
Proof.
  revert vm. induction oids as [|o oids IH]; intros vm H; simpl in H.
  - injection H as <-. split; [auto|intros r []].
  - destruct (JTree.assign_versions_from_oldest fuel sbi o 1 vm) as [vm1| |] eqn:E;
      simpl in H; try discriminate.
    destruct (assign_versions_ok _ _ _ _ _ _ E) as [Hm1 Ho].
    destruct (IH _ H) as [Hm Hr]. split.
    + intros x Hx. destruct (Hm x Hx) as [Hx1|[r [Hr' Hn]]].
      * destruct (Hm1 x Hx1) as [Hv|Hn]; [left; assumption|right; exists o; split; [left|]; auto].
      * right. exists r. split; [right|]; auto.
    + intros r [<-|Hr']; auto.
Qed.

Lemma build_nodes_ok m vm userid sbi ns :
  JTree.build_nodes m vm userid sbi = Ok ns ->
  forall x snt, dict_get sbi x = Some snt -> dict_mem vm x = true.
Proof.
  revert ns. induction sbi as [|[id_ snt0] sbi IH]; intros ns H x snt Hx; simpl in *.
  - discriminate.
  - destruct (dict_get vm id_) as [v|] eqn:Ev; [|discriminate].
    destruct (JTree.build_nodes m vm userid sbi) as [rest| |] eqn:Er; simpl in H;
      try discriminate.
    destruct (String.eqb_spec x id_) as [->|]; [unfold dict_mem; rewrite Ev; reflexivity|].
    eapply IH; eauto.
Qed.

Lemma build_maps_keys jsons j :
  In j jsons -> dict_get (JTree.senotype_by_id (JTree.build_maps jsons)) (sj_id j) <> None.
Proof.
  unfold JTree.build_maps. generalize (JTree.mkMaps [] [] [] []).
  assert (Hkeep : forall l m k, dict_get (JTree.senotype_by_id m) k <> None ->
            dict_get (JTree.senotype_by_id (fold_left JTree.add_json l m)) k <> None).
  { induction l as [|a l IH]; intros m k Hk; simpl; [assumption|].
    apply IH. simpl. rewrite dict_get_set. destruct (String.eqb k _); [discriminate|assumption]. }
  induction jsons as [|a jsons IH]; intros m Hin; [destruct Hin|].
  destruct Hin as [ -> |Hin]; simpl; [|apply IH; assumption].
  apply Hkeep. simpl. rewrite dict_get_set. unfold sj_id. rewrite String.eqb_refl. discriminate.
Qed.

(** A stored version record with the given provenance, submitted by
    [a@b.org] and not yet published. *)
Definition vrec (id_ : string) (pred succ : option string) : senotype_json :=
  mkSenotypeJson (mkSenotype id_ (mkProvenance pred succ) None (Some "Senotype") None)
    (mkSubmitter None None (Some "a@b.org")) [].

(** Two records that are each other's successor: no chain root. *)
Definition cycle_jsons : list senotype_json :=
  [vrec "SNT1" (Some "SNT2") (Some "SNT2"); vrec "SNT2" (Some "SNT1") (Some "SNT1")].

(** A root whose forward walk enters the cycle [SNT1 -> SNT2 -> SNT1]. *)
Definition rooted_cycle_jsons : list senotype_json :=
  [vrec "SNT0" None (Some "SNT1"); vrec "SNT1" (Some "SNT0") (Some "SNT2");
   vrec "SNT2" (Some "SNT1") (Some "SNT1")].

(** A well-formed chain of two versions. *)
Definition chain2_jsons : list senotype_json :=
  [vrec "SNT1" None (Some "SNT2"); vrec "SNT2" (Some "SNT1") None].

Definition chain2_tree : JTree.jtree :=
  JTree.JLibrary
    [JTree.JNew;
     JTree.JGroup "groupSNT2" "Senotype" 2
       [JTree.JVersion "SNT2" 2 JTree.Editable
          [JTree.JVersion "SNT1" 1 JTree.Editable []]]].

(** C4 (counterexample): records reachable from no root make the version
    lookup of the node loop raise [KeyError] (no report, no tree); a cycle
    behind a root makes the unguarded recursion run out of any budget. *)
Lemma C4_malformed_provenance_counterexample :
  JTree.getsenotypejtree 1000 cycle_jsons "a@b.org" = Err (KeyError "SNT1") /\
  JTree.getsenotypejtree 1000 rooted_cycle_jsons "a@b.org" = NoFuel.
Proof. split; vm_compute; reflexivity. Qed.

(** The records that the forward walk from some chain root reaches. *)
Definition reached_from_root (m : JTree.maps) (x : string) : Prop :=
  exists r, In r (JTree.oldest_ids m) /\
  exists n, succ_iter n (JTree.senotype_by_id m) r = Some x.

(** Well-formed provenance: every record is reached from a chain root and
    no record lies on a successor cycle. *)
Definition provenance_wellformed (jsons : list senotype_json) : Prop :=
  (forall j, In j jsons -> reached_from_root (JTree.build_maps jsons) (sj_id j)) /\
  (forall x k, succ_iter (S k) (JTree.senotype_by_id (JTree.build_maps jsons)) x <> Some x).

Lemma getsenotypejtree_ok_wellformed (fuel : nat) (jsons : list senotype_json)
    (userid : string) (t : JTree.jtree) :
  JTree.getsenotypejtree fuel jsons userid = Ok t -> provenance_wellformed jsons.
Proof.
  intros Hok. unfold JTree.getsenotypejtree in Hok. unfold provenance_wellformed.
  set (m := JTree.build_maps jsons) in *.
  destruct (JTree.assign_all fuel (JTree.senotype_by_id m) (JTree.oldest_ids m) [])
    as [vm| |] eqn:Ea; simpl in Hok; try discriminate.
  destruct (JTree.build_nodes m vm userid (JTree.senotype_by_id m)) as [ns| |] eqn:Eb;
    simpl in Hok; try discriminate.
  destruct (assign_all_ok _ _ _ _ _ Ea) as [Hm Hroots].
  pose proof (build_nodes_ok _ _ _ _ _ Eb) as Hn.
  assert (Hreach : forall x snt, dict_get (JTree.senotype_by_id m) x = Some snt ->
            reached_from_root m x).
  { intros x snt Hx. destruct (Hm x (Hn x snt Hx)) as [H0|H0]; [discriminate|exact H0]. }
  split.
  - intros j Hj. pose proof (build_maps_keys jsons j Hj) as Hk. fold m in Hk.
    destruct (dict_get (JTree.senotype_by_id m) (sj_id j)) as [snt|] eqn:E;
      [|contradiction]. exact (Hreach _ _ E).
  - intros x k Hc.
    assert (Hx : exists snt, dict_get (JTree.senotype_by_id m) x = Some snt).
    { simpl in Hc. unfold succ_of in Hc.
      destruct (dict_get (JTree.senotype_by_id m) x) as [snt|]; [eauto|discriminate]. }
    destruct Hx as [snt Hx].
    destruct (Hreach _ _ Hx) as [r [Hr [n Hrn]]].
    destruct (Hroots r Hr) as [N HN].
    destruct (Nat.le_gt_cases N n) as [Hle|Hgt].
    + replace n with (N + (n - N)) in Hrn by lia.
      rewrite succ_iter_add, HN in Hrn. discriminate.
    + replace N with (n + (N - n)) in HN by lia.
      rewrite succ_iter_add, Hrn in HN.
      exact (succ_iter_cycle _ _ _ Hc (N - n) HN).
Qed.

Lemma dict_get_none_iff {V} (d : list (string * V)) k :
  dict_get d k = None <-> ~ In k (map fst d).
Proof.
  induction d as [|[k' v] d IH]; simpl; [tauto|].
  destruct (String.eqb_spec k k') as [->|Hk]; split; intros H.
  - discriminate.
  - exfalso. apply H. left. reflexivity.
  - intros [->|Hin]; [apply Hk; reflexivity|]. apply IH in H. contradiction.
  - apply IH. tauto.
Qed.

Lemma dict_set_keys {V} (d : list (string * V)) k v :
  dict_get d k <> None -> map fst (dict_set d k v) = map fst d.
Proof.
  induction d as [|[k' v'] d IH]; simpl; intros H; [contradiction|].
  destruct (String.eqb_spec k k') as [->|]; simpl; [reflexivity|].
  rewrite IH by exact H. reflexivity.
Qed.

Lemma res_mapM_err {A B} (f : A -> res B) (l : list A) e :
  res_mapM f l = Err e -> exists x, In x l /\ f x = Err e.
Proof.
  induction l as [|a l IH]; simpl; intros H; [discriminate|].
  destruct (f a) as [b|e'|] eqn:Ef; simpl in H; try discriminate.
  - destruct (res_mapM f l) as [ys|e''|] eqn:El; simpl in H; try discriminate.
    injection H as ->. destruct (IH eq_refl) as [x [Hx Hfx]].
    exists x. split; [right|]; assumption.
  - injection H as ->. exists a. split; [left; reflexivity|exact Ef].
Qed.

(** [assign_versions_from_oldest] raises only [KeyError] on an id that is
    no record. *)
Lemma assign_versions_err fuel sbi id_ v vm e :
  JTree.assign_versions_from_oldest fuel sbi id_ v vm = Err e ->
  exists k, e = KeyError k /\ dict_get sbi k = None.
Proof.
  revert id_ v vm. induction fuel as [|fuel IH]; intros id_ v vm H; simpl in H;
    [discriminate|].
  destruct (dict_get sbi id_) as [snt|] eqn:E.
  - destruct (successor (snt_provenance snt)) as [s|]; [|discriminate].
    destruct (negb (String.eqb s "")); [exact (IH _ _ _ H)|discriminate].
  - injection H as <-. exists id_. split; [reflexivity|exact E].
Qed.

Lemma assign_all_err fuel sbi oids vm e :
  JTree.assign_all fuel sbi oids vm = Err e ->
  exists k, e = KeyError k /\ dict_get sbi k = None.
Proof.
  revert vm. induction oids as [|o oids IH]; intros vm H; simpl in H; [discriminate|].
  destruct (JTree.assign_versions_from_oldest fuel sbi o 1 vm) as [vm1|e1|] eqn:E;
    simpl in H; try discriminate.
  - exact (IH _ H).
  - injection H as ->. exact (assign_versions_err _ _ _ _ _ _ E).
Qed.

(** A successful walk keeps the versions already set and sets one for
    every record it passes. *)
Lemma assign_versions_covers fuel sbi id_ v vm vm' :
  JTree.assign_versions_from_oldest fuel sbi id_ v vm = Ok vm' ->
  (forall x, dict_mem vm x = true -> dict_mem vm' x = true) /\
  (forall n x, succ_iter n sbi id_ = Some x -> dict_mem vm' x = true).
Proof.
  revert id_ v vm. induction fuel as [|fuel IH]; intros id_ v vm H; simpl in H;
    [discriminate|].
  assert (Hset : forall x, dict_mem vm x = true \/ x = id_ ->
                 dict_mem (dict_set vm id_ v) x = true).
  { intros x Hx. unfold dict_mem in *. rewrite dict_get_set.
    destruct (String.eqb_spec x id_); [reflexivity|]. destruct Hx; [assumption|contradiction]. }
  destruct (dict_get sbi id_) as [snt|] eqn:E; [|discriminate].
  assert (Hs : succ_of sbi id_ =
    match successor (snt_provenance snt) with
    | Some s => if truthy (Some s) then Some s else None | None => None end)
    by (unfold succ_of; rewrite E; reflexivity).
  destruct (successor (snt_provenance snt)) as [s|] eqn:Es;
    [destruct (truthy (Some s)) eqn:Et|].
  - simpl in Et. rewrite Et in H. destruct (IH _ _ _ H) as [Hm Hc]. split.
    + intros x Hx. apply Hm, Hset. left. exact Hx.
    + intros [|n] x Hn; simpl in Hn.
      * injection Hn as <-. apply Hm, Hset. right. reflexivity.
      * rewrite Hs in Hn. exact (Hc _ _ Hn).
  - simpl in Et. rewrite Et in H. injection H as <-. split.
    + intros x Hx. apply Hset. left. exact Hx.
    + intros [|n] x Hn; simpl in Hn.
      * injection Hn as <-. apply Hset. right. reflexivity.
      * rewrite Hs in Hn. discriminate.
  - injection H as <-. split.
    + intros x Hx. apply Hset. left. exact Hx.
    + intros [|n] x Hn; simpl in Hn.
      * injection Hn as <-. apply Hset. right. reflexivity.
      * rewrite Hs in Hn. discriminate.
Qed.

Lemma assign_all_covers fuel sbi oids vm vm' :
  JTree.assign_all fuel sbi oids vm = Ok vm' ->
  (forall x, dict_mem vm x = true -> dict_mem vm' x = true) /\
  (forall r, In r oids -> forall n x, succ_iter n sbi r = Some x -> dict_mem vm' x = true).
Proof.
  revert vm. induction oids as [|o oids IH]; intros vm H; simpl in H.
  - injection H as <-. split; [auto|intros r []].
  - destruct (JTree.assign_versions_from_oldest fuel sbi o 1 vm) as [vm1| |] eqn:E;
      simpl in H; try discriminate.
    destruct (assign_versions_covers _ _ _ _ _ _ E) as [Hm1 Hc1].
    destruct (IH _ H) as [Hm Hc]. split.
    + intros x Hx. apply Hm, Hm1, Hx.
    + intros r [<-|Hr] n x Hn; [apply Hm; exact (Hc1 _ _ Hn)|exact (Hc r Hr n x Hn)].
Qed.

(** The node loop raises only [KeyError] on a record that has no version. *)
Lemma build_nodes_err m vm userid l e :
  JTree.build_nodes m vm userid l = Err e ->
  exists k, e = KeyError k /\ In k (map fst l) /\ dict_mem vm k = false.
Proof.
  induction l as [|[id_ snt] l IH]; simpl; intros H; [discriminate|].
  destruct (dict_get vm id_) as [v|] eqn:Ev.
  - destruct (JTree.build_nodes m vm userid l) as [rest|e'|] eqn:Er; simpl in H;
      try discriminate.
    injection H as ->. destruct (IH eq_refl) as [k [-> [Hk Hm]]].
    exists k. split; [reflexivity|]. split; [right; exact Hk|exact Hm].
  - injection H as <-. exists id_. split; [reflexivity|]. split; [left; reflexivity|].
    unfold dict_mem. rewrite Ev. reflexivity.
Qed.

Lemma build_nodes_keys m vm userid l ns :
  JTree.build_nodes m vm userid l = Ok ns -> map fst ns = map fst l.
Proof.
  revert ns. induction l as [|[id_ snt] l IH]; simpl; intros ns H.
  - injection H as <-. reflexivity.
  - destruct (dict_get vm id_) as [v|]; [|discriminate].
    destruct (JTree.build_nodes m vm userid l) as [rest| |] eqn:Er; simpl in H;
      try discriminate.
    injection H as <-. simpl. rewrite (IH _ eq_refl). reflexivity.
Qed.

Lemma attach_children_keys sbi nm :
  map fst (JTree.attach_children sbi nm) = map fst nm.
Proof.
  unfold JTree.attach_children. revert nm.
  induction sbi as [|[id_ snt] sbi IH]; intros nm; simpl; [reflexivity|].
  rewrite IH. unfold JTree.attach_child.
  destruct (successor (snt_provenance snt)) as [s|]; [|reflexivity].
  destruct (negb (String.eqb s "")); [|reflexivity].
  destruct (dict_get nm s) as [[[v st] cs]|] eqn:E; [|reflexivity].
  apply dict_set_keys. rewrite E. discriminate.
Qed.

(** Rendering raises only [KeyError] on an id that has no node. *)
Lemma render_err fuel nm id_ e :
  JTree.render fuel nm id_ = Err e -> exists k, e = KeyError k /\ dict_get nm k = None.
Proof.
  revert id_. induction fuel as [|fuel IH]; intros id_ H; simpl in H; [discriminate|].
  destruct (dict_get nm id_) as [[[v st] cs]|] eqn:E.
  - destruct (res_mapM (JTree.render fuel nm) cs) as [kids|e'|] eqn:Ek; simpl in H;
      try discriminate.
    injection H as ->. destruct (res_mapM_err _ _ _ Ek) as [c [_ Hc]]. exact (IH _ Hc).
  - injection H as <-. exists id_. split; [reflexivity|exact E].
Qed.

(** Every exception of [_getsenotypejtree] is a [KeyError] that names
    either no record (a dangling successor) or a record that no chain root
    reaches. *)
Lemma getsenotypejtree_err fuel jsons userid e :
  JTree.getsenotypejtree fuel jsons userid = Err e ->
  exists k, e = KeyError k /\
    (dict_get (JTree.senotype_by_id (JTree.build_maps jsons)) k = None \/
     (dict_get (JTree.senotype_by_id (JTree.build_maps jsons)) k <> None /\
      ~ reached_from_root (JTree.build_maps jsons) k)).
Proof.
  intros H. unfold JTree.getsenotypejtree in H.
  set (m := JTree.build_maps jsons) in *.
  set (sbi := JTree.senotype_by_id m) in *.
  assert (Hunr : forall vm k, JTree.assign_all fuel sbi (JTree.oldest_ids m) [] = Ok vm ->
            In k (map fst sbi) -> dict_mem vm k = false ->
            dict_get sbi k <> None /\ ~ reached_from_root m k).
  { intros vm k Ea Hk Hm. split.
    - intros Hn. apply dict_get_none_iff in Hn. contradiction.
    - intros [r [Hr [n Hn]]]. destruct (assign_all_covers _ _ _ _ _ Ea) as [_ Hc].
      rewrite (Hc r Hr n k Hn) in Hm. discriminate. }
  destruct (JTree.assign_all fuel sbi (JTree.oldest_ids m) []) as [vm|e1|] eqn:Ea;
    simpl in H; try discriminate.
  2:{ injection H as <-. destruct (assign_all_err _ _ _ _ _ Ea) as [k [-> Hk]].
      exists k. split; [reflexivity|left; exact Hk]. }
  destruct (JTree.build_nodes m vm userid sbi) as [ns|e2|] eqn:Eb; simpl in H;
    try discriminate.
  2:{ injection H as <-. destruct (build_nodes_err _ _ _ _ _ Eb) as [k [-> [Hk Hm]]].
      exists k. split; [reflexivity|right; exact (Hunr _ _ eq_refl Hk Hm)]. }
  destruct (res_mapM (JTree.group_of fuel m vm (JTree.attach_children sbi ns))
              (JTree.latest_ids sbi)) as [gs|e3|] eqn:Eg; simpl in H; try discriminate.
  injection H as <-.
  destruct (res_mapM_err _ _ _ Eg) as [id_ [Hid Hg]].
  unfold JTree.group_of in Hg.
  destruct (JTree.render fuel (JTree.attach_children sbi ns) id_) as [root|e4|] eqn:Er;
    simpl in Hg; try discriminate.
  - destruct (dict_get vm id_) as [v|] eqn:Ev; [discriminate|].
    injection Hg as <-. exists id_. split; [reflexivity|right].
    apply (Hunr _ _ eq_refl).
    + unfold JTree.latest_ids in Hid. apply in_map_iff in Hid.
      destruct Hid as [[x snt] [<- Hx]]. apply List.filter_In in Hx.
      apply in_map_iff. exists (x, snt). split; [reflexivity|exact (proj1 Hx)].
    + unfold dict_mem. rewrite Ev. reflexivity.
  - injection Hg as <-. destruct (render_err _ _ _ _ Er) as [k [-> Hk]].
    exists k. split; [reflexivity|left].
    apply dict_get_none_iff. apply dict_get_none_iff in Hk.
    rewrite attach_children_keys, (build_nodes_keys _ _ _ _ _ Eb) in Hk. exact Hk.
Qed.

(** C4 (amended): the builder has no visited-set guard and no anomaly
    report.  On malformed provenance (a record that no chain root reaches,
    or a successor cycle) it returns no tree, for any recursion budget: it
    raises [KeyError], naming either an id that is no record (a dangling
    successor met by [assign_versions_from_oldest]) or a record that no
    chain root reaches, or its recursion does not end within the budget. *)
Theorem C4_malformed_provenance_fails (fuel : nat) (jsons : list senotype_json)
    (userid : string) (Hbad : ~ provenance_wellformed jsons) :
  JTree.getsenotypejtree fuel jsons userid = NoFuel \/
  exists k, JTree.getsenotypejtree fuel jsons userid = Err (KeyError k) /\
    (dict_get (JTree.senotype_by_id (JTree.build_maps jsons)) k = None \/
     (dict_get (JTree.senotype_by_id (JTree.build_maps jsons)) k <> None /\
      ~ reached_from_root (JTree.build_maps jsons) k)).
Proof.
  destruct (JTree.getsenotypejtree fuel jsons userid) as [t|e|] eqn:E.
  - exfalso. exact (Hbad (getsenotypejtree_ok_wellformed _ _ _ _ E)).
  - right. destruct (getsenotypejtree_err _ _ _ _ E) as [k [-> Hk]].
    exists k. split; [reflexivity|exact Hk].
  - left. reflexivity.
Qed.

Lemma C4_malformed_provenance_fails_witness :
  ~ provenance_wellformed cycle_jsons /\
  (JTree.getsenotypejtree 10 cycle_jsons "a@b.org" = NoFuel \/
   exists k, JTree.getsenotypejtree 10 cycle_jsons "a@b.org" = Err (KeyError k) /\
     (dict_get (JTree.senotype_by_id (JTree.build_maps cycle_jsons)) k = None \/
      (dict_get (JTree.senotype_by_id (JTree.build_maps cycle_jsons)) k <> None /\
       ~ reached_from_root (JTree.build_maps cycle_jsons) k))).
Proof.
  assert (Hbad : ~ provenance_wellformed cycle_jsons).
  { intros [Hr _].
    destruct (Hr (vrec "SNT1" (Some "SNT2") (Some "SNT2")) (or_introl eq_refl))
      as [r [Hin _]].
    assert (Ho : JTree.oldest_ids (JTree.build_maps cycle_jsons) = []) by reflexivity.
    rewrite Ho in Hin. destruct Hin. }
  split; [exact Hbad|].
  exact (C4_malformed_provenance_fails 10 cycle_jsons "a@b.org" Hbad).
Defined.

(* ------------------------------------------------------------------ *)
(** ** Well-formed provenance chains and the version tree they give *)

(** Each id of a chain [c] (oldest first) is stored, with the provenance
    that links it to its neighbours: no predecessor for the root, no
    successor for the head. *)
Definition chain_links (jsons : list senotype_json) (c : list string) : Prop :=
  forall i x, nth_error c i = Some x ->
    exists j, In j jsons /\ sj_id j = x /\
      sj_prov j = mkProvenance (match i with 0 => None | S i' => nth_error c i' end)
                               (nth_error c (S i)).

(** The records form the given chains: ids are distinct and non-empty,
    each record lies on exactly one chain, and the chains are linked. *)
Record chains_wf (chains : list (list string)) (jsons : list senotype_json) : Prop := {
  wf_nodup : List.NoDup (map sj_id jsons);
  wf_perm : Permutation (map sj_id jsons) (concat chains);
  wf_nonempty : forall c, In c chains -> c <> [];
  wf_ids : forall j, In j jsons -> sj_id j <> EmptyString;
  wf_links : forall c, In c chains -> chain_links jsons c
}.

(** The expected subtree of a chain, given newest first: the head carries
    version [n], each node has its predecessor as its only child, down to
    the root with version 1 as the leaf. *)
Fixpoint down_tree (st : string -> JTree.node_state) (l : list string) (n : nat)
    : list JTree.jtree :=
  match l with
  | [] => []
  | x :: l' => [JTree.JVersion x n (st x) (down_tree st l' (pred n))]
  end.

(** The truthy successor stored in a record. *)
Definition snt_succ (snt : senotype) : option string :=
  match successor (snt_provenance snt) with
  | Some s => if truthy (Some s) then Some s else None
  | None => None
  end.

Definition sbi_of (jsons : list senotype_json) : list (string * senotype) :=
  map (fun j => (sj_id j, sj_senotype j)) jsons.

Lemma dict_get_app {V} (d1 d2 : list (string * V)) k :
  dict_get (app d1 d2) k = match dict_get d1 k with Some v => Some v | None => dict_get d2 k end.
Proof.
  induction d1 as [|[k' v'] d1 IH]; simpl; [reflexivity|].
  destruct (String.eqb k k'); [reflexivity|exact IH].
Qed.

Lemma dict_set_fresh {V} (d : list (string * V)) k v :
  dict_get d k = None -> dict_set d k v = app d [(k, v)].
Proof.
  induction d as [|[k' v'] d IH]; simpl; intros H; [reflexivity|].
  destruct (String.eqb k k'); [discriminate|]. rewrite IH by exact H. reflexivity.
Qed.

Lemma dict_mem_set {V} (d : list (string * V)) k v x :
  dict_mem (dict_set d k v) x = String.eqb x k || dict_mem d x.
Proof. unfold dict_mem. rewrite dict_get_set. destruct (String.eqb x k); reflexivity. Qed.

Lemma sbi_fold l m :
  JTree.senotype_by_id (fold_left JTree.add_json l m) =
  fold_left (fun d j => dict_set d (sj_id j) (sj_senotype j)) l (JTree.senotype_by_id m).
Proof. revert m. induction l as [|a l IH]; intros m; simpl; [reflexivity|apply IH]. Qed.

Lemma fold_fresh l d :
  List.NoDup (map sj_id l) -> (forall j, In j l -> dict_get d (sj_id j) = None) ->
  fold_left (fun d j => dict_set d (sj_id j) (sj_senotype j)) l d = app d (sbi_of l).
Proof.
  revert d. induction l as [|a l IH]; intros d Hnd Hf; simpl; [symmetry; apply app_nil_r|].
  inversion Hnd as [|? ? Hnin Hnd']; subst.
  rewrite dict_set_fresh by (apply Hf; left; reflexivity).
  rewrite IH; [rewrite <- app_assoc; reflexivity|exact Hnd'|].
  intros j Hj. rewrite dict_get_app, Hf by (right; exact Hj). simpl.
  destruct (String.eqb_spec (sj_id j) (sj_id a)) as [He|]; [|reflexivity].
  exfalso. apply Hnin. rewrite <- He. apply in_map. exact Hj.
Qed.

Lemma sbi_build_maps jsons :
  List.NoDup (map sj_id jsons) -> JTree.senotype_by_id (JTree.build_maps jsons) = sbi_of jsons.
Proof.
  intros Hnd. unfold JTree.build_maps. rewrite sbi_fold. simpl.
  apply fold_fresh; [exact Hnd|reflexivity].
Qed.

Lemma sbi_of_get l j :
  List.NoDup (map sj_id l) -> In j l -> dict_get (sbi_of l) (sj_id j) = Some (sj_senotype j).
Proof.
  induction l as [|a l IH]; intros Hnd Hj; [destruct Hj|]. simpl.
  inversion Hnd as [|? ? Hnin Hnd']; subst.
  destruct Hj as [->|Hj]; [rewrite String.eqb_refl; reflexivity|].
  destruct (String.eqb_spec (sj_id j) (sj_id a)) as [He|]; [|apply IH; assumption].
  exfalso. apply Hnin. rewrite <- He. apply in_map. exact Hj.
Qed.

Lemma sbi_of_get_inv l x snt :
  dict_get (sbi_of l) x = Some snt -> exists j, In j l /\ sj_id j = x /\ sj_senotype j = snt.
Proof.
  induction l as [|a l IH]; simpl; intros H; [discriminate|].
  destruct (String.eqb_spec x (sj_id a)) as [->|].
  - injection H as <-. exists a. auto.
  - destruct (IH H) as [j [? ?]]. exists j. auto.
Qed.

Lemma ids_unique (l : list senotype_json) a b :
  List.NoDup (map sj_id l) -> In a l -> In b l -> sj_id a = sj_id b -> a = b.
Proof.
  induction l as [|c l IH]; intros Hnd Ha Hb He; [destruct Ha|].
  inversion Hnd as [|? ? Hnin Hnd']; subst.
  destruct Ha as [<-|Ha], Hb as [<-|Hb]; auto.
  - exfalso. apply Hnin. rewrite He. apply in_map. exact Hb.
  - exfalso. apply Hnin. rewrite <- He. apply in_map. exact Ha.
Qed.

Lemma pm_add_json m a x :
  dict_mem (JTree.predecessor_map (JTree.add_json m a)) x =
  dict_mem (JTree.predecessor_map m) x ||
  (String.eqb (sj_id a) x && truthy (predecessor (sj_prov a))).
Proof.
  unfold JTree.add_json, sj_id, sj_prov. cbn [JTree.predecessor_map].
  destruct (predecessor (snt_provenance (sj_senotype a))) as [p|].
  - destruct (truthy (Some p)) eqn:Et.
    + rewrite dict_mem_set, andb_true_r.
      destruct (String.eqb_spec x (snt_id (sj_senotype a))) as [->|Hne].
      * rewrite String.eqb_refl, orb_true_r. reflexivity.
      * rewrite (proj2 (String.eqb_neq _ _) (not_eq_sym Hne)), orb_false_r. reflexivity.
    + rewrite andb_false_r, orb_false_r. reflexivity.
  - simpl. rewrite andb_false_r, orb_false_r. reflexivity.
Qed.

Lemma pm_fold l m x :
  dict_mem (JTree.predecessor_map (fold_left JTree.add_json l m)) x =
  dict_mem (JTree.predecessor_map m) x ||
  existsb (fun j => String.eqb (sj_id j) x && truthy (predecessor (sj_prov j))) l.
Proof.
  revert m. induction l as [|a l IH]; intros m; simpl; [symmetry; apply orb_false_r|].
  rewrite IH, pm_add_json, orb_assoc. reflexivity.
Qed.

Lemma oldest_ids_in jsons r :
  List.NoDup (map sj_id jsons) ->
  In r (JTree.oldest_ids (JTree.build_maps jsons)) <->
  In r (map sj_id jsons) /\
  existsb (fun j => String.eqb (sj_id j) r && truthy (predecessor (sj_prov j))) jsons = false.
Proof.
  intros Hnd. unfold JTree.oldest_ids. rewrite filter_In, sbi_build_maps by exact Hnd.
  unfold sbi_of. rewrite map_map. cbn [fst].
  unfold JTree.build_maps. rewrite pm_fold. cbn [JTree.predecessor_map].
  unfold dict_mem at 1. simpl. rewrite negb_true_iff. reflexivity.
Qed.

Lemma oldest_ids_nodup jsons :
  List.NoDup (map sj_id jsons) -> List.NoDup (JTree.oldest_ids (JTree.build_maps jsons)).
Proof.
  intros Hnd. unfold JTree.oldest_ids. apply List.NoDup_filter.
  rewrite sbi_build_maps by exact Hnd. unfold sbi_of. rewrite map_map. exact Hnd.
Qed.

Lemma nodup_app_disjoint {A} (l1 l2 : list A) x :
  List.NoDup (app l1 l2) -> In x l1 -> In x l2 -> False.
Proof.
  induction l1 as [|a l1 IH]; intros Hnd H1 H2; [destruct H1|].
  inversion Hnd as [|? ? Hnin Hnd']; subst.
  destruct H1 as [->|H1]; [apply Hnin; apply in_or_app; right; exact H2|].
  exact (IH Hnd' H1 H2).
Qed.

Lemma concat_unique {A} (L : list (list A)) c1 c2 y :
  List.NoDup (concat L) -> In c1 L -> In c2 L -> In y c1 -> In y c2 -> c1 = c2.
Proof.
  induction L as [|a L IH]; intros Hnd H1 H2 Hy1 Hy2; [destruct H1|].
  simpl in Hnd. destruct H1 as [<-|H1], H2 as [<-|H2]; auto.
  - exfalso. apply (nodup_app_disjoint _ _ y Hnd Hy1). apply in_concat. eauto.
  - exfalso. apply (nodup_app_disjoint _ _ y Hnd Hy2). apply in_concat. eauto.
  - exact (IH (List.NoDup_app_remove_l _ _ Hnd) H1 H2 Hy1 Hy2).
Qed.

Lemma concat_nodup_elem {A} (L : list (list A)) c :
  List.NoDup (concat L) -> In c L -> List.NoDup c.
Proof.
  induction L as [|a L IH]; intros Hnd Hc; [destruct Hc|]. simpl in Hnd.
  destruct Hc as [<-|Hc]; [exact (List.NoDup_app_remove_r _ _ Hnd)|].
  exact (IH (List.NoDup_app_remove_l _ _ Hnd) Hc).
Qed.

Lemma res_mapM_all_ok {A B} (f : A -> res B) (l : list A) :
  (forall x, In x l -> exists y, f x = Ok y) ->
  exists ys, res_mapM f l = Ok ys /\ forall x, In x l -> exists y, f x = Ok y /\ In y ys.
Proof.
  induction l as [|a l IH]; intros H; [exists []; split; [reflexivity|intros x []]|].
  destruct (H a (or_introl eq_refl)) as [ya Ha].
  destruct IH as [ys [Hys Hin]]; [intros x Hx; apply H; right; exact Hx|].
  exists (ya :: ys). simpl. rewrite Ha, Hys. split; [reflexivity|].
  intros x [<-|Hx]; [exists ya; split; [exact Ha|left; reflexivity]|].
  destruct (Hin x Hx) as [y [Hy Hy']]. exists y. split; [exact Hy|right; exact Hy'].
Qed.

Lemma firstn_S_nth {A} (c : list A) k y :
  nth_error c k = Some y -> firstn (S k) c = app (firstn k c) [y].
Proof.
  revert c. induction k as [|k IH]; intros [|a c] H; simpl in *; try discriminate.
  - injection H as ->. reflexivity.
  - rewrite (IH c H). reflexivity.
Qed.

Section ChainFacts.

Variable chains : list (list string).
Variable jsons : list senotype_json.
Hypothesis Hwf : chains_wf chains jsons.

Lemma concat_chains_nodup : List.NoDup (concat chains).
Proof. exact (Permutation_NoDup (wf_perm _ _ Hwf) (wf_nodup _ _ Hwf)). Qed.

Lemma chain_unique c1 c2 y :
  In c1 chains -> In c2 chains -> In y c1 -> In y c2 -> c1 = c2.
Proof. apply concat_unique, concat_chains_nodup. Qed.

Lemma chain_index_unique c k1 k2 y :
  In c chains -> nth_error c k1 = Some y -> nth_error c k2 = Some y -> k1 = k2.
Proof.
  intros Hc H1 H2.
  apply (proj1 (List.NoDup_nth_error c) (concat_nodup_elem _ c concat_chains_nodup Hc)).
  - apply nth_error_Some. congruence.
  - congruence.
Qed.

Lemma chain_record c k x :
  In c chains -> nth_error c k = Some x ->
  exists j, In j jsons /\ sj_id j = x /\ dict_get (sbi_of jsons) x = Some (sj_senotype j) /\
    sj_prov j = mkProvenance (match k with 0 => None | S k' => nth_error c k' end)
                             (nth_error c (S k)).
Proof.
  intros Hc Hx. destruct (wf_links _ _ Hwf c Hc k x Hx) as [j [Hj [Hid Hp]]].
  exists j. split; [exact Hj|split; [exact Hid|split; [|exact Hp]]].
  rewrite <- Hid. apply sbi_of_get; [apply (wf_nodup _ _ Hwf)|exact Hj].
Qed.

Lemma record_chain j :
  In j jsons -> exists c k, In c chains /\ nth_error c k = Some (sj_id j).
Proof.
  intros Hj.
  assert (Hin : In (sj_id j) (concat chains))
    by (apply (Permutation_in _ (wf_perm _ _ Hwf)); apply in_map; exact Hj).
  apply in_concat in Hin. destruct Hin as [c [Hc Hy]].
  destruct (In_nth_error _ _ Hy) as [k Hk]. exists c, k. auto.
Qed.

Lemma truthy_chain c k x :
  In c chains -> nth_error c k = Some x -> truthy (Some x) = true.
Proof.
  intros Hc Hx. destruct (chain_record c k x Hc Hx) as [j [Hj [Hid _]]].
  unfold truthy. apply negb_true_iff, String.eqb_neq. rewrite <- Hid.
  apply (wf_ids _ _ Hwf). exact Hj.
Qed.

Lemma snt_succ_chain c k x snt :
  In c chains -> nth_error c k = Some x -> dict_get (sbi_of jsons) x = Some snt ->
  snt_succ snt = nth_error c (S k).
Proof.
  intros Hc Hx Hg. destruct (chain_record c k x Hc Hx) as [j [_ [_ [Hg' Hp]]]].
  rewrite Hg in Hg'. injection Hg' as ->.
  unfold snt_succ. unfold sj_prov in Hp. rewrite Hp. cbn [successor].
  destruct (nth_error c (S k)) as [s|] eqn:Hs; [|reflexivity].
  rewrite (truthy_chain c (S k) s Hc Hs). reflexivity.
Qed.

Lemma succ_of_chain c k x :
  In c chains -> nth_error c k = Some x -> succ_of (sbi_of jsons) x = nth_error c (S k).
Proof.
  intros Hc Hx. destruct (chain_record c k x Hc Hx) as [j [_ [_ [Hg _]]]].
  rewrite <- (snt_succ_chain c k x _ Hc Hx Hg). unfold succ_of. rewrite Hg. reflexivity.
Qed.

Lemma pred_exists_chain c k x :
  In c chains -> nth_error c k = Some x ->
  existsb (fun j => String.eqb (sj_id j) x && truthy (predecessor (sj_prov j))) jsons =
  match k with 0 => false | S _ => true end.
Proof.
  intros Hc Hx. destruct (chain_record c k x Hc Hx) as [j0 [Hj0 [Hid0 [_ Hp0]]]].
  destruct k as [|k'].
  - apply not_true_iff_false. intros Hex. apply existsb_exists in Hex.
    destruct Hex as [j [Hj Hb]]. apply andb_true_iff in Hb. destruct Hb as [He Ht].
    apply String.eqb_eq in He.
    assert (j = j0) as -> by (apply (ids_unique jsons); auto; [apply (wf_nodup _ _ Hwf)|congruence]).
    rewrite Hp0 in Ht. discriminate.
  - apply existsb_exists. exists j0. split; [exact Hj0|].
    rewrite Hid0, String.eqb_refl, Hp0. cbn [predecessor andb].
    destruct (nth_error c k') as [y|] eqn:Ey.
    + exact (truthy_chain c k' y Hc Ey).
    + apply nth_error_None in Ey.
      assert (S k' < length c) by (apply nth_error_Some; congruence). lia.
Qed.

Lemma oldest_chain r :
  In r (JTree.oldest_ids (JTree.build_maps jsons)) <->
  exists c, In c chains /\ nth_error c 0 = Some r.
Proof.
  rewrite (oldest_ids_in jsons r (wf_nodup _ _ Hwf)). split.
  - intros [Hin Hex]. apply in_map_iff in Hin. destruct Hin as [j [<- Hj]].
    destruct (record_chain j Hj) as [c [k [Hc Hk]]].
    rewrite (pred_exists_chain c k _ Hc Hk) in Hex.
    destruct k; [exists c; auto|discriminate].
  - intros [c [Hc H0]]. split.
    + destruct (chain_record c 0 r Hc H0) as [j [Hj [Hid _]]].
      rewrite <- Hid. apply in_map. exact Hj.
    + exact (pred_exists_chain c 0 r Hc H0).
Qed.

Lemma assign_step fuel sbi id_ v vm :
  JTree.assign_versions_from_oldest (S fuel) sbi id_ v vm =
  match dict_get sbi id_ with
  | None => Err (KeyError id_)
  | Some snt =>
      match snt_succ snt with
      | Some s => JTree.assign_versions_from_oldest fuel sbi s (S v) (dict_set vm id_ v)
      | None => Ok (dict_set vm id_ v)
      end
  end.
Proof.
  unfold snt_succ. cbn [JTree.assign_versions_from_oldest].
  destruct (dict_get sbi id_) as [snt|]; [|reflexivity].
  destruct (successor (snt_provenance snt)) as [s|]; [|reflexivity].
  destruct (truthy (Some s)); reflexivity.
Qed.

(** The forward walk from the [i]-th id of a chain numbers the rest of the
    chain [i+1, i+2, ...] and leaves every other entry alone. *)
Lemma walk_chain c (Hc : In c chains) :
  forall fuel i x vm, nth_error c i = Some x -> length c - i <= fuel ->
  exists vm', JTree.assign_versions_from_oldest fuel (sbi_of jsons) x (S i) vm = Ok vm' /\
    (forall k y, i <= k -> nth_error c k = Some y -> dict_get vm' y = Some (S k)) /\
    (forall y, (forall k, i <= k -> nth_error c k <> Some y) -> dict_get vm' y = dict_get vm y).
Proof.
  induction fuel as [|fuel IH]; intros i x vm Hx Hf.
  - assert (i < length c) by (apply nth_error_Some; congruence). lia.
  - rewrite assign_step.
    destruct (chain_record c i x Hc Hx) as [j [_ [_ [Hg _]]]]. rewrite Hg.
    rewrite (snt_succ_chain c i x _ Hc Hx Hg).
    destruct (nth_error c (S i)) as [s|] eqn:Hs.
    + destruct (IH (S i) s (dict_set vm x (S i)) Hs ltac:(lia)) as [vm' [Hok [Hset Hfr]]].
      exists vm'. split; [exact Hok|split].
      * intros k y Hk Hy. destruct (Nat.eq_dec k i) as [->|Hne]; [|apply Hset; [lia|exact Hy]].
        assert (y = x) as -> by congruence.
        rewrite Hfr. { rewrite dict_get_set, String.eqb_refl. reflexivity. }
        intros k' Hk' Hk'x. pose proof (chain_index_unique c k' i x Hc Hk'x Hx). lia.
      * intros y Hy. rewrite Hfr by (intros k Hk; apply Hy; lia).
        rewrite dict_get_set. destruct (String.eqb_spec y x) as [->|]; [|reflexivity].
        exfalso. exact (Hy i (le_n i) Hx).
    + exists (dict_set vm x (S i)). split; [reflexivity|split].
      * intros k y Hk Hy. destruct (Nat.eq_dec k i) as [->|Hne].
        -- assert (y = x) as -> by congruence.
           rewrite dict_get_set, String.eqb_refl. reflexivity.
        -- apply nth_error_None in Hs. assert (k < length c) by (apply nth_error_Some; congruence).
           lia.
      * intros y Hy. rewrite dict_get_set. destruct (String.eqb_spec y x) as [->|]; [|reflexivity].
        exfalso. exact (Hy i (le_n i) Hx).
Qed.

Lemma assign_all_chains fuel (Hfuel : forall c, In c chains -> length c <= fuel) :
  forall oids vm, List.NoDup oids ->
  (forall r, In r oids -> exists c, In c chains /\ nth_error c 0 = Some r) ->
  exists vm', JTree.assign_all fuel (sbi_of jsons) oids vm = Ok vm' /\
  forall c r k y, In c chains -> nth_error c 0 = Some r -> nth_error c k = Some y ->
    (In r oids -> dict_get vm' y = Some (S k)) /\
    (~ In r oids -> dict_get vm' y = dict_get vm y).
Proof.
  induction oids as [|o oids IH]; intros vm Hnd Hr.
  - exists vm. split; [reflexivity|]. intros. split; [intros []|reflexivity].
  - destruct (Hr o (or_introl eq_refl)) as [c0 [Hc0 H0]].
    assert (Hl0 := Hfuel c0 Hc0).
    destruct (walk_chain c0 Hc0 fuel 0 o vm H0 ltac:(lia)) as [vm1 [Hw [Hset Hfr]]].
    inversion Hnd as [|? ? Hnin Hnd']; subst.
    destruct (IH vm1 Hnd' (fun r H => Hr r (or_intror H))) as [vm' [Hok Hprop]].
    exists vm'. split; [simpl; rewrite Hw; exact Hok|].
    intros c r k y Hc Hr0 Hy. destruct (Hprop c r k y Hc Hr0 Hy) as [Hin Hout]. split.
    + intros [->|Hr']; [|exact (Hin Hr')].
      rewrite (Hout Hnin).
      assert (c = c0) as ->
        by exact (chain_unique c c0 r Hc Hc0 (nth_error_In _ _ Hr0) (nth_error_In _ _ H0)).
      apply Hset; [lia|exact Hy].
    + intros Hn. rewrite Hout by (intros H; apply Hn; right; exact H).
      apply Hfr. intros k' _ Hk'.
      assert (c = c0) as ->
        by exact (chain_unique c c0 y Hc Hc0 (nth_error_In _ _ Hy) (nth_error_In _ _ Hk')).
      apply Hn. left. congruence.
Qed.

Lemma build_nodes_all m vm userid sbi' :
  (forall x snt, In (x, snt) sbi' -> dict_get vm x <> None) ->
  exists nodes, JTree.build_nodes m vm userid sbi' = Ok nodes /\
  forall x, match dict_get nodes x with
            | Some (v, _, cs) => dict_get vm x = Some v /\ cs = []
            | None => dict_get sbi' x = None
            end.
Proof.
  induction sbi' as [|[id_ snt] sbi' IH]; intros H.
  - exists []. split; reflexivity.
  - destruct (dict_get vm id_) as [v|] eqn:Ev;
      [|exfalso; exact (H id_ snt (or_introl eq_refl) Ev)].
    destruct IH as [nodes [Hb Hn]]; [intros x s Hx; exact (H x s (or_intror Hx))|].
    eexists. split; [simpl; rewrite Ev, Hb; reflexivity|].
    intros x. simpl. destruct (String.eqb_spec x id_) as [->|]; [split; [exact Ev|reflexivity]|].
    exact (Hn x).
Qed.

(** The ids whose stored (truthy) successor is [x], in the order of [sbi]. *)
Definition preds_of (sbi : list (string * senotype)) (x : string) : list string :=
  map fst (List.filter (fun p => match snt_succ (snd p) with
                                 | Some s => String.eqb s x
                                 | None => false
                                 end) sbi).

Lemma attach_child_get nm p x :
  dict_get (JTree.attach_child nm p) x =
  match dict_get nm x with
  | Some (v, st, cs) =>
      Some (v, st, app cs (if match snt_succ (snd p) with
                              | Some s => String.eqb s x | None => false end
                           then [fst p] else []))
  | None => None
  end.
Proof.
  destruct p as [id_ snt]. unfold JTree.attach_child, snt_succ. cbn [fst snd].
  destruct (successor (snt_provenance snt)) as [s|];
    [destruct (truthy (Some s))|].
  - destruct (dict_get nm s) as [[[v st] cs]|] eqn:Es.
    + rewrite dict_get_set. destruct (String.eqb_spec x s) as [->|Hne].
      * rewrite Es, String.eqb_refl. reflexivity.
      * rewrite (proj2 (String.eqb_neq s x) (not_eq_sym Hne)).
        destruct (dict_get nm x) as [[[v' st'] cs']|]; rewrite ?app_nil_r; reflexivity.
    + destruct (String.eqb_spec s x) as [->|]; [rewrite Es; reflexivity|].
      destruct (dict_get nm x) as [[[v' st'] cs']|]; rewrite ?app_nil_r; reflexivity.
  - destruct (dict_get nm x) as [[[v' st'] cs']|]; rewrite ?app_nil_r; reflexivity.
  - destruct (dict_get nm x) as [[[v' st'] cs']|]; rewrite ?app_nil_r; reflexivity.
Qed.

Lemma attach_children_get sbi' nm x :
  dict_get (JTree.attach_children sbi' nm) x =
  match dict_get nm x with
  | Some (v, st, cs) => Some (v, st, app cs (preds_of sbi' x))
  | None => None
  end.
Proof.
  revert nm. induction sbi' as [|p sbi' IH]; intros nm.
  - simpl. destruct (dict_get nm x) as [[[v st] cs]|]; rewrite ?app_nil_r; reflexivity.
  - unfold JTree.attach_children. simpl fold_left. fold (JTree.attach_children sbi' (JTree.attach_child nm p)).
    rewrite IH, attach_child_get. unfold preds_of. simpl List.filter.
    destruct (dict_get nm x) as [[[v st] cs]|]; [|reflexivity].
    destruct (match snt_succ (snd p) with Some s => String.eqb s x | None => false end);
      simpl; rewrite <- ?app_assoc; reflexivity.
Qed.

Lemma preds_of_sbi l y :
  preds_of (sbi_of l) y =
  map sj_id (List.filter (fun j => match snt_succ (sj_senotype j) with
                                   | Some s => String.eqb s y | None => false end) l).
Proof.
  induction l as [|a l IH]; [reflexivity|]. unfold preds_of in *. simpl.
  destruct (match snt_succ (sj_senotype a) with Some s => String.eqb s y | None => false end);
    simpl; rewrite IH; reflexivity.
Qed.

Lemma filter_none {A} (f : A -> bool) l :
  (forall a, In a l -> f a = false) -> List.filter f l = [].
Proof.
  induction l as [|a l IH]; intros H; [reflexivity|]. simpl.
  rewrite (H a (or_introl eq_refl)). apply IH. intros b Hb. apply H. right. exact Hb.
Qed.

Lemma filter_id_single (l : list senotype_json) p :
  List.NoDup (map sj_id l) -> In p (map sj_id l) ->
  map sj_id (List.filter (fun j => String.eqb (sj_id j) p) l) = [p].
Proof.
  induction l as [|a l IH]; intros Hnd Hp; [destruct Hp|].
  inversion Hnd as [|? ? Hnin Hnd']; subst. simpl.
  destruct (String.eqb_spec (sj_id a) p) as [<-|Hne].
  - rewrite filter_none; [reflexivity|].
    intros b Hb. apply String.eqb_neq. intros He. apply Hnin. rewrite <- He. apply in_map. exact Hb.
  - apply IH; [exact Hnd'|]. destruct Hp as [Hp|Hp]; [contradiction|exact Hp].
Qed.

Lemma preds_root c y :
  In c chains -> nth_error c 0 = Some y -> preds_of (sbi_of jsons) y = [].
Proof.
  intros Hc Hy. rewrite preds_of_sbi, filter_none; [reflexivity|]. intros j Hj.
  destruct (record_chain j Hj) as [c' [k' [Hc' Hk']]].
  pose proof (sbi_of_get jsons j (wf_nodup _ _ Hwf) Hj) as Hg.
  rewrite (snt_succ_chain c' k' _ _ Hc' Hk' Hg).
  destruct (nth_error c' (S k')) as [s|] eqn:Hs; [|reflexivity].
  destruct (String.eqb_spec s y) as [->|]; [|reflexivity].
  assert (c' = c) as ->
    by exact (chain_unique c' c y Hc' Hc (nth_error_In _ _ Hs) (nth_error_In _ _ Hy)).
  pose proof (chain_index_unique c (S k') 0 y Hc Hs Hy). discriminate.
Qed.

Lemma preds_step c k y p :
  In c chains -> nth_error c (S k) = Some y -> nth_error c k = Some p ->
  preds_of (sbi_of jsons) y = [p].
Proof.
  intros Hc Hy Hp. rewrite preds_of_sbi.
  rewrite (List.filter_ext_in _ (fun j => String.eqb (sj_id j) p)).
  - apply filter_id_single; [apply (wf_nodup _ _ Hwf)|].
    destruct (chain_record c k p Hc Hp) as [j [Hj [Hid _]]]. rewrite <- Hid.
    apply in_map. exact Hj.
  - intros j Hj. destruct (record_chain j Hj) as [c' [k' [Hc' Hk']]].
    pose proof (sbi_of_get jsons j (wf_nodup _ _ Hwf) Hj) as Hg.
    rewrite (snt_succ_chain c' k' _ _ Hc' Hk' Hg).
    destruct (String.eqb_spec (sj_id j) p) as [Hjp|Hjp].
    + rewrite Hjp in Hk'.
      assert (c' = c) as ->
        by exact (chain_unique c' c p Hc' Hc (nth_error_In _ _ Hk') (nth_error_In _ _ Hp)).
      assert (k' = k) as -> by exact (chain_index_unique c k' k p Hc Hk' Hp).
      rewrite Hy, String.eqb_refl. reflexivity.
    + destruct (nth_error c' (S k')) as [s|] eqn:Hs; [|reflexivity].
      destruct (String.eqb_spec s y) as [->|]; [|reflexivity]. exfalso.
      assert (c' = c) as ->
        by exact (chain_unique c' c y Hc' Hc (nth_error_In _ _ Hs) (nth_error_In _ _ Hy)).
      assert (k' = k) as ->
        by (pose proof (chain_index_unique c (S k') (S k) y Hc Hs Hy); lia).
      apply Hjp. congruence.
Qed.

(** Rendering the [k]-th id of a chain gives the chain down to its root. *)
Lemma render_chain c (nm : list (string * JTree.node)) st (Hc : In c chains)
    (Hnm : forall k y, nth_error c k = Some y ->
           dict_get nm y = Some (S k, st y, preds_of (sbi_of jsons) y)) :
  forall k y f, nth_error c k = Some y -> k < f ->
  JTree.render f nm y = Ok (JTree.JVersion y (S k) (st y) (down_tree st (rev (firstn k c)) k)).
Proof.
  induction k as [|k IH]; intros y f Hy Hf; (destruct f as [|f]; [lia|]).
  - cbn [JTree.render]. rewrite (Hnm _ y Hy), (preds_root c y Hc Hy). reflexivity.
  - destruct (nth_error c k) as [p|] eqn:Hp.
    2:{ apply nth_error_None in Hp. assert (S k < length c) by (apply nth_error_Some; congruence).
        lia. }
    rewrite (firstn_S_nth c k p Hp), rev_app_distr.
    cbn [JTree.render]. rewrite (Hnm _ y Hy), (preds_step c k y p Hc Hy Hp).
    cbn [res_mapM res_bind]. rewrite (IH p f eq_refl ltac:(lia)). reflexivity.
Qed.

Lemma chain_length_le c : In c chains -> length c <= length jsons.
Proof.
  intros Hc. rewrite <- (length_map sj_id jsons), (Permutation_length (wf_perm _ _ Hwf)).
  clear Hwf. induction chains as [|a L IH]; [destruct Hc|].
  simpl. rewrite length_app. destruct Hc as [<-|Hc]; [lia|]. specialize (IH Hc). lia.
Qed.

Lemma latest_chain x :
  In x (JTree.latest_ids (sbi_of jsons)) ->
  exists c k, In c chains /\ nth_error c k = Some x /\ nth_error c (S k) = None.
Proof.
  unfold JTree.latest_ids. intros Hx. apply in_map_iff in Hx.
  destruct Hx as [[x' snt] [Hx' Hin]]. cbn [fst] in Hx'. subst x'.
  apply filter_In in Hin. destruct Hin as [Hin Hf]. cbn [snd] in Hf.
  unfold sbi_of in Hin. apply in_map_iff in Hin. destruct Hin as [j [Hjp Hj]].
  injection Hjp as Hid Hsnt.
  destruct (record_chain j Hj) as [c [k [Hc Hk]]]. exists c, k. rewrite <- Hid.
  split; [exact Hc|split; [exact Hk|]].
  pose proof (sbi_of_get jsons j (wf_nodup _ _ Hwf) Hj) as Hg.
  rewrite <- (snt_succ_chain c k _ _ Hc Hk Hg). rewrite Hsnt.
  unfold snt_succ. destruct (successor (snt_provenance snt)) as [s|]; [|reflexivity].
  apply negb_true_iff in Hf. rewrite Hf. reflexivity.
Qed.

Lemma chain_head_latest c k x :
  In c chains -> nth_error c k = Some x -> nth_error c (S k) = None ->
  In x (JTree.latest_ids (sbi_of jsons)).
Proof.
  intros Hc Hk Hn. destruct (chain_record c k x Hc Hk) as [j [Hj [Hid [_ Hp]]]].
  unfold JTree.latest_ids. apply in_map_iff. exists (x, sj_senotype j). split; [reflexivity|].
  apply filter_In. split.
  - rewrite <- Hid. unfold sbi_of. exact (in_map (fun j => (sj_id j, sj_senotype j)) _ _ Hj).
  - unfold sj_prov in Hp. cbn [snd]. rewrite Hp. cbn [successor]. rewrite Hn. reflexivity.
Qed.

End ChainFacts.

(** C3: for records forming well-formed provenance chains (distinct ids,
    each chain linked from a root with no predecessor to a head with no
    successor, no cycles), the version tree has one group per chain,
    labelled by the chain's head and its length [N]; under it the head
    carries version [N], each node's only child is its predecessor with
    the version one lower, and the leaf-most node is the root of the chain
    with version 1. *)
Theorem C3_chain_versions (chains : list (list string)) (jsons : list senotype_json)
    (userid : string) (fuel : nat)
    (Hwf : chains_wf chains jsons) (Hfuel : length jsons < fuel) :
  exists groups,
    JTree.getsenotypejtree fuel jsons userid = Ok (JTree.JLibrary (JTree.JNew :: groups)) /\
    forall c, In c chains ->
      exists h st nm, hd_error (rev c) = Some h /\
        In (JTree.JGroup ("group" ++ h) nm (length c) (down_tree st (rev c) (length c))) groups.
Proof.
  pose proof (wf_nodup _ _ Hwf) as Hnd.
  assert (Hlen : forall c, In c chains -> length c <= fuel)
    by (intros c Hc; pose proof (chain_length_le chains jsons Hwf c Hc); lia).
  assert (Hv : forall c k y, In c chains -> nth_error c k = Some y -> dict_get
    (match JTree.assign_all fuel (sbi_of jsons) (JTree.oldest_ids (JTree.build_maps jsons)) []
     with Ok vm => vm | _ => [] end) y = Some (S k)).
  { intros c k y Hc Hy.
    destruct (assign_all_chains chains jsons Hwf fuel Hlen _ [] (oldest_ids_nodup jsons Hnd)
                (fun r Hr => proj1 (oldest_chain chains jsons Hwf r) Hr)) as [vm [Ha Hvm]].
    rewrite Ha. destruct c as [|r c']; [exfalso; exact (wf_nonempty _ _ Hwf [] Hc eq_refl)|].
    apply (proj1 (Hvm (r :: c') r k y Hc eq_refl Hy)).
    apply (oldest_chain chains jsons Hwf r). exists (r :: c'). auto. }
  destruct (assign_all_chains chains jsons Hwf fuel Hlen _ [] (oldest_ids_nodup jsons Hnd)
              (fun r Hr => proj1 (oldest_chain chains jsons Hwf r) Hr)) as [vm [Ha _]].
  rewrite Ha in Hv.
  destruct (build_nodes_all (JTree.build_maps jsons) vm userid (sbi_of jsons)) as [nodes [Hb Hn]].
  { intros x snt Hin. unfold sbi_of in Hin. apply in_map_iff in Hin.
    destruct Hin as [j [Hjp Hj]]. injection Hjp as <- _.
    destruct (record_chain chains jsons Hwf j Hj) as [c [k [Hc Hk]]].
    rewrite (Hv c k _ Hc Hk). discriminate. }
  set (nm := JTree.attach_children (sbi_of jsons) nodes).
  set (st := fun x => match dict_get nodes x with Some (_, s, _) => s | None => JTree.Editable end).
  assert (Hnm : forall c, In c chains -> forall k y, nth_error c k = Some y ->
            dict_get nm y = Some (S k, st y, preds_of (sbi_of jsons) y)).
  { intros c Hc k y Hy. unfold nm. rewrite attach_children_get.
    specialize (Hn y). unfold st. destruct (dict_get nodes y) as [[[v s] cs]|] eqn:E.
    - destruct Hn as [Hvy ->]. rewrite (Hv c k y Hc Hy) in Hvy. injection Hvy as <-. reflexivity.
    - destruct (chain_record chains jsons Hwf c k y Hc Hy) as [j [_ [_ [Hg _]]]]. congruence. }
  assert (Hgroup : forall c k h, In c chains -> nth_error c k = Some h -> nth_error c (S k) = None ->
            exists nmv, JTree.group_of fuel (JTree.build_maps jsons) vm nm h =
              Ok (JTree.JGroup ("group" ++ h) nmv (S k) (down_tree st (rev c) (S k)))).
  { intros c k h Hc Hh Hn'.
    assert (Hk : S k <= length c) by (assert (k < length c) by (apply nth_error_Some; congruence); lia).
    assert (Hk' : length c <= S k) by (apply nth_error_None; exact Hn').
    pose proof (Hlen c Hc).
    unfold JTree.group_of.
    rewrite (render_chain chains jsons Hwf c nm st Hc (Hnm c Hc) k h fuel Hh ltac:(lia)).
    cbn [res_bind]. rewrite (Hv c k h Hc Hh).
    replace (rev c) with (rev (firstn (S k) c)) by (rewrite firstn_all2; [reflexivity|lia]).
    rewrite (firstn_S_nth c k h Hh), rev_app_distr. eexists. reflexivity. }
  destruct (res_mapM_all_ok (JTree.group_of fuel (JTree.build_maps jsons) vm nm)
              (JTree.latest_ids (sbi_of jsons))) as [groups [Hg Hin]].
  { intros x Hx. destruct (latest_chain chains jsons Hwf x Hx) as [c [k [Hc [Hk Hk']]]].
    destruct (Hgroup c k x Hc Hk Hk') as [nmv E]. eexists. exact E. }
  exists groups. split.
  - unfold JTree.getsenotypejtree. rewrite (sbi_build_maps jsons Hnd), Ha. cbn [res_bind].
    rewrite Hb. cbn [res_bind]. fold nm. rewrite Hg. reflexivity.
  - intros c Hc. destruct (exists_last (wf_nonempty _ _ Hwf c Hc)) as [c' [h Ec]].
    assert (Hh : nth_error c (length c') = Some h)
      by (rewrite Ec, nth_error_app2, Nat.sub_diag by lia; reflexivity).
    assert (Hn' : nth_error c (S (length c')) = None)
      by (apply nth_error_None; rewrite Ec, length_app; simpl; lia).
    destruct (Hin h (chain_head_latest chains jsons Hwf c _ h Hc Hh Hn')) as [y [Ey Hy]].
    destruct (Hgroup c _ h Hc Hh Hn') as [nmv E]. rewrite E in Ey. injection Ey as <-.
    exists h, st, nmv. split.
    + rewrite Ec, rev_unit. reflexivity.
    + replace (length c) with (S (length c')) by (rewrite Ec, length_app; simpl; lia).
      exact Hy.
Qed.

(** Two chains stored out of order: [A1 -> A2 -> A3] and the single [B1]. *)
Definition chains3_jsons : list senotype_json :=
  [vrec "SNT-A2" (Some "SNT-A1") (Some "SNT-A3"); vrec "SNT-B1" None None;
   vrec "SNT-A1" None (Some "SNT-A2"); vrec "SNT-A3" (Some "SNT-A2") None].

Definition chains3 : list (list string) := [["SNT-A1"; "SNT-A2"; "SNT-A3"]; ["SNT-B1"]].

Lemma chains3_wf : chains_wf chains3 chains3_jsons.
Proof.
  assert (Hnd : List.NoDup (map sj_id chains3_jsons)).
  { simpl. repeat constructor; simpl; intros H; repeat destruct H as [H|H]; try discriminate; contradiction. }
  constructor.
  - exact Hnd.
  - apply Stdlib.Sorting.Permutation.NoDup_Permutation; [exact Hnd| |intros x; simpl; tauto].
    simpl. repeat constructor; simpl; intros H; repeat destruct H as [H|H]; try discriminate; contradiction.
  - intros c [<-|[<-|[]]]; discriminate.
  - intros j Hj. repeat (destruct Hj as [<-|Hj]; [discriminate|]). destruct Hj.
  - intros c [<-|[<-|[]]] i x Hx.
    + destruct i as [|[|[|i]]]; simpl in Hx; [| | |destruct i; discriminate];
        injection Hx as <-.
      * exists (vrec "SNT-A1" None (Some "SNT-A2")).
        split; [right; right; left; reflexivity|split; reflexivity].
      * exists (vrec "SNT-A2" (Some "SNT-A1") (Some "SNT-A3")).
        split; [left; reflexivity|split; reflexivity].
      * exists (vrec "SNT-A3" (Some "SNT-A2") None).
        split; [right; right; right; left; reflexivity|split; reflexivity].
    + destruct i as [|i]; simpl in Hx; [|destruct i; discriminate]. injection Hx as <-.
      exists (vrec "SNT-B1" None None). split; [right; left; reflexivity|split; reflexivity].
Qed.

Lemma C3_chain_versions_witness :
  chains_wf chains3 chains3_jsons /\ length chains3_jsons < 10 /\
  exists groups,
    JTree.getsenotypejtree 10 chains3_jsons "a@b.org" =
      Ok (JTree.JLibrary (JTree.JNew :: groups)) /\
    forall c, In c chains3 ->
      exists h st nm, hd_error (rev c) = Some h /\
        In (JTree.JGroup ("group" ++ h) nm (length c) (down_tree st (rev c) (length c))) groups.
Proof.
  assert (Hlen : length chains3_jsons < 10) by (simpl; lia).
  split; [exact chains3_wf|split; [exact Hlen|]].
  exact (C3_chain_versions chains3 chains3_jsons "a@b.org" 10 chains3_wf Hlen).
Defined.

(* ------------------------------------------------------------------ *)
(** ** The round trip of the list fields *)

(** A code that survives the form unchanged: not blank, already stripped,
    not the string ['None'], and without the [" ("] of a display label. *)
Definition clean_code (c : string) : bool :=
  negb (String.eqb c "") && String.eqb (py_strip c) c && negb (String.eqb c "None") &&
  String.eqb (split_paren c) c.

(** The codes of a stored assertion's objects ([[] ] when one has none). *)
Definition codes_of_assertion (a : assertion) : list string :=
  match res_mapM obj_code (a_objects a) with Ok cs => cs | _ => [] end.

Definition simple_predicates : list string := map (fun '(_, p, _) => p) simple_fields.

Definition simple_field_names : list string := map (fun '(f, _, _) => f) simple_fields.

(** The resolver of the assertion's predicate labels every object and
    keeps its (clean) code. *)
Definition resolves_codes (self : senlib) (api : string -> res json) (a : assertion) : Prop :=
  exists cs items,
    res_mapM obj_code (a_objects a) = Ok cs /\ forallb clean_code cs = true /\
    hydrate_objects self api (term (a_predicate a)) (a_objects a) = Ok items /\
    map fst items = cs /\ Forall (fun it => exists t, snd it = JStr t) items.

(** The codes the form shows for a predicate: those of the first stored
    assertion with that term. *)
Definition codes_of (assertions : list assertion) (p : string) : list string :=
  match find (fun a => String.eqb (term (a_predicate a)) p) assertions with
  | Some a => codes_of_assertion a
  | None => []
  end.

Lemma prefix_cons x s1 y s2 :
  String.prefix (String x s1) (String y s2) =
  if ascii_dec x y then String.prefix s1 s2 else false.
Proof. reflexivity. Qed.

Lemma prefix_paren_app a c r :
  String.prefix " (" (String a c) = false ->
  String.prefix " (" (String a (c ++ " (" ++ r)) = false.
Proof.
  intros H. rewrite !prefix_cons in *. destruct (ascii_dec " " a) as [<-|Hne]; [|reflexivity].
  destruct c as [|b c]; [reflexivity|].
  change (String b c ++ " (" ++ r) with (String b (c ++ " (" ++ r)).
  rewrite !prefix_cons in *. destruct (ascii_dec "(" b); [destruct c; discriminate|reflexivity].
Qed.

Lemma split_paren_cons a c :
  split_paren (String a c) = if String.prefix " (" (String a c) then "" else String a (split_paren c).
Proof. reflexivity. Qed.

Lemma split_paren_app c r :
  split_paren c = c -> split_paren (c ++ " (" ++ r) = c.
Proof.
  induction c as [|a c IH]; intros H; [destruct r; reflexivity|].
  rewrite split_paren_cons in H.
  destruct (String.prefix " (" (String a c)) eqn:Ep; [discriminate|].
  injection H as H. change (String a c ++ " (" ++ r) with (String a (c ++ " (" ++ r)).
  rewrite split_paren_cons, (prefix_paren_app a c r Ep), IH by exact H. reflexivity.
Qed.

Lemma clean_code_parts c :
  clean_code c = true ->
  c <> "" /\ py_strip c = c /\ c <> "None" /\ split_paren c = c.
Proof.
  unfold clean_code. intros H. repeat rewrite andb_true_iff in H.
  destruct H as [[[H1 H2] H3] H4]. apply negb_true_iff, String.eqb_neq in H1.
  apply negb_true_iff, String.eqb_neq in H3. apply String.eqb_eq in H2, H4. auto.
Qed.

Lemma normalize_clean cs : forallb clean_code cs = true -> normalize_values cs = cs.
Proof.
  unfold normalize_values. induction cs as [|c cs IH]; intros H; [reflexivity|].
  simpl in H. apply andb_true_iff in H. destruct H as [Hc Hcs].
  destruct (clean_code_parts c Hc) as [H1 [H2 [H3 _]]]. simpl.
  rewrite (proj2 (String.eqb_neq c "") H1), H2, (proj2 (String.eqb_neq c "") H1),
    (proj2 (String.eqb_neq c "None") H3). simpl. rewrite H2, IH by exact Hcs. reflexivity.
Qed.

Lemma obj_code_json_code o c : obj_code o = Ok c -> json_code o = JStr c.
Proof.
  unfold obj_code, json_code. destruct o; simpl; try discriminate.
  destruct (dict_get kv "code") as [[]|]; simpl; congruence.
Qed.

Lemma obj_codes_json l cs : res_mapM obj_code l = Ok cs -> map json_code l = map JStr cs.
Proof.
  revert cs. induction l as [|o l IH]; intros cs H; simpl in H.
  - injection H as <-. reflexivity.
  - destruct (obj_code o) as [c| |] eqn:Ec; simpl in H; try discriminate.
    destruct (res_mapM obj_code l) as [cs'| |]; simpl in H; try discriminate.
    injection H as <-. simpl. rewrite (obj_code_json_code o c Ec), (IH cs' eq_refl). reflexivity.
Qed.

Lemma assertion_object_labels self p raw items :
  getassertionobjects self p raw = Ok items ->
  Forall (fun it => exists rest, snd it = JStr (fst it ++ " (" ++ rest)) items.
Proof.
  unfold getassertionobjects. revert items.
  induction raw as [|o raw IH]; intros items H; simpl in H.
  - injection H as <-. constructor.
  - destruct (resolve_each (assertion_object self p) raw) as [rest| |];
      unfold assertion_object in H; destruct (obj_code o) as [c| |]; simpl in H;
      try discriminate.
    injection H as <-. constructor; [eexists; reflexivity|exact (IH rest eq_refl)].
Qed.

Lemma byterm_labels self p raw items :
  getassertionobjects self p raw = Ok items ->
  Forall (fun it => exists rest, display_item ByTerm it = Ok (fst it ++ " (" ++ rest)) items.
Proof.
  intros H. eapply List.Forall_impl; [|exact (assertion_object_labels self p raw items H)].
  intros [c j] [rest Hj]. simpl in Hj. subst j. exists rest. reflexivity.
Qed.

Lemma trunc_labels n (items : list (string * json)) :
  Forall (fun it => exists t, snd it = JStr t) items ->
  Forall (fun it => exists rest, display_item (Trunc n) it = Ok (fst it ++ " (" ++ rest)) items.
Proof.
  apply List.Forall_impl. intros [c j] [t Hj]. simpl in Hj. subst j.
  eexists. unfold display_item, truncateddisplaytext. simpl. reflexivity.
Qed.

Lemma display_labels self api f p d raw items :
  In (f, p, d) simple_fields ->
  hydrate_objects self api p raw = Ok items ->
  Forall (fun it => exists t, snd it = JStr t) items ->
  Forall (fun it => exists rest, display_item d it = Ok (fst it ++ " (" ++ rest)) items.
Proof.
  intros Hin Hh Hj. simpl in Hin.
  repeat (destruct Hin as [Hin|Hin]; [injection Hin as <- <- <-|]); try contradiction;
    first [exact (trunc_labels _ _ Hj) | exact (byterm_labels self _ raw items Hh)].
Qed.

Lemma getstored_find self api assertions p :
  (forall a, In a assertions -> predicate_matches a p = String.eqb (term (a_predicate a)) p) ->
  getstoredsimpleassertiondata self api assertions p =
  match find (fun a => String.eqb (term (a_predicate a)) p) assertions with
  | Some a => hydrate_objects self api p (a_objects a)
  | None => Ok []
  end.
Proof.
  induction assertions as [|a l IH]; intros H; [reflexivity|]. simpl.
  rewrite (H a (or_introl eq_refl)).
  destruct (String.eqb (term (a_predicate a)) p); [reflexivity|].
  apply IH. intros a' Ha'. exact (H a' (or_intror Ha')).
Qed.

Lemma map_template_labels (g : string * json -> res string) items :
  Forall (fun it => exists rest, g it = Ok (fst it ++ " (" ++ rest)) items ->
  Forall (fun it => split_paren (fst it) = fst it) items ->
  exists vs, res_mapM g items = Ok vs /\ map template_code vs = map fst items.
Proof.
  induction items as [|it items IH]; intros Hl Hs; [exists []; split; reflexivity|].
  inversion Hl as [|? ? [rest Hg] Hl']; subst. inversion Hs as [|? ? Hsp Hs']; subst.
  destruct (IH Hl' Hs') as [vs [Hvs Hm]].
  exists ((fst it ++ " (" ++ rest) :: vs). simpl. rewrite Hg, Hvs. split; [reflexivity|].
  simpl. unfold template_code at 1. rewrite (split_paren_app _ _ Hsp). f_equal. exact Hm.
Qed.

Lemma clean_items (items : list (string * json)) :
  forallb clean_code (map fst items) = true ->
  Forall (fun it => split_paren (fst it) = fst it) items.
Proof.
  intros H. apply List.Forall_forall. intros it Hit.
  rewrite forallb_forall in H. apply clean_code_parts, H, in_map, Hit.
Qed.

Lemma hydrate_field_codes self api assertions f p d :
  In (f, p, d) simple_fields ->
  (forall a, In a assertions -> predicate_matches a p = String.eqb (term (a_predicate a)) p) ->
  (forall a, In a assertions -> resolves_codes self api a) ->
  exists vs, hydrate_field self api assertions (f, p, d) = Ok (f, vs) /\
             normalize_values (map template_code vs) = codes_of assertions p.
Proof.
  intros Hin Hm Hres. unfold hydrate_field. rewrite (getstored_find self api assertions p Hm).
  unfold codes_of. destruct (find _ assertions) as [a|] eqn:Ef; [|exists [""]; split; reflexivity].
  apply find_some in Ef as [Ha Ht]. apply String.eqb_eq in Ht.
  destruct (Hres a Ha) as (cs & items & Hc & Hcl & Hh & Hf & Hj).
  rewrite Ht in Hh. rewrite Hh. simpl. unfold codes_of_assertion. rewrite Hc.
  destruct items as [|it items'].
  - exists [""]. simpl in Hf. subst cs. split; reflexivity.
  - subst cs.
    destruct (map_template_labels (display_item d) (it :: items')
                (display_labels self api f p d _ _ Hin Hh Hj) (clean_items _ Hcl))
      as [vs [Hvs Hmap]].
    exists vs. rewrite Hvs. split; [reflexivity|]. rewrite Hmap. apply normalize_clean, Hcl.
Qed.

Lemma res_mapM_pointwise {A B C} (f : A -> res B) (g : B -> C) (h : A -> C) (l : list A) :
  (forall x, In x l -> exists y, f x = Ok y /\ g y = h x) ->
  exists ys, res_mapM f l = Ok ys /\ map g ys = map h l.
Proof.
  induction l as [|x l IH]; intros H; [exists []; split; reflexivity|].
  destruct (H x (or_introl eq_refl)) as [y [Hy Hg]].
  destruct IH as [ys [Hys Hm]]; [intros x' Hx'; exact (H x' (or_intror Hx'))|].
  exists (y :: ys). simpl. rewrite Hy, Hys. split; [reflexivity|]. simpl. rewrite Hg, Hm.
  reflexivity.
Qed.

(** The entry of a list field in the form the user posts back. *)
Definition form_entry (assertions : list assertion) (fpd : string * string * display)
    : string * fval :=
  let '(f, p, _) := fpd in (f, FList (codes_of assertions p)).

(** The predicate of a list field that [fetchfromdb] fills. *)
Definition simple_field_predicate (f : string) : option string :=
  dict_get (map (fun '(f, p, _) => (f, p)) simple_fields) f.

(** The form the user posts back: each string field with its value, each
    list field with the codes of its predicate, and no regulating marker. *)
Definition form_of (scalars : string -> option string) (assertions : list assertion)
    : form :=
  map (fun '(f, k) =>
         (f, match k with
             | KStr => FStr (scalars f)
             | KList => FList (match simple_field_predicate f with
                               | Some p => codes_of assertions p
                               | None => []
                               end)
             | KRegs => FRegs []
             end)) editform_layout.

Lemma dict_get_map_val {V W} (h : V -> W) (d : list (string * V)) k :
  dict_get (map (fun '(f, v) => (f, h v)) d) k =
  match dict_get d k with Some v => Some (h v) | None => None end.
Proof.
  induction d as [|[f v] d IH]; simpl; [reflexivity|].
  destruct (String.eqb k f); [reflexivity|exact IH].
Qed.

Lemma dict_get_map_key {V W} (h : string -> V -> W) (d : list (string * V)) k :
  dict_get (map (fun '(f, v) => (f, h f v)) d) k =
  match dict_get d k with Some v => Some (h k v) | None => None end.
Proof.
  induction d as [|[f v] d IH]; simpl; [reflexivity|].
  destruct (String.eqb_spec k f) as [->|]; [reflexivity|exact IH].
Qed.

Lemma hydrate_submitted self api scalars assertions :
  (forall a, In a assertions -> forall p, In p simple_predicates ->
     predicate_matches a p = String.eqb (term (a_predicate a)) p) ->
  (forall a, In a assertions -> resolves_codes self api a) ->
  exists fields, hydrate_simple_fields self api assertions = Ok fields /\
                 submitted_form scalars fields = form_of scalars assertions.
Proof.
  intros Hm Hres.
  destruct (res_mapM_pointwise (hydrate_field self api assertions)
              (fun '(f, vs) => (f, FList (normalize_values (map template_code vs))))
              (form_entry assertions) simple_fields) as [fields [Hf Hmap]].
  - intros [[f p] d] Hin.
    assert (Hp : In p simple_predicates)
      by (unfold simple_predicates; apply (in_map (fun '(_, p, _) => p) _ _ Hin)).
    destruct (hydrate_field_codes self api assertions f p d Hin
                (fun a Ha => Hm a Ha p Hp) Hres) as [vs [Hv Hn]].
    exists (f, vs). split; [exact Hv|]. simpl. rewrite Hn. reflexivity.
  - exists fields. split; [exact Hf|].
    assert (Hkey : forall f,
      match dict_get fields f with
      | Some vs => normalize_values (map template_code vs) | None => [] end =
      match simple_field_predicate f with Some p => codes_of assertions p | None => [] end).
    { intros f. pose proof (f_equal (fun d => dict_get d f) Hmap) as Hd. cbv beta in Hd.
      rewrite (dict_get_map_val (fun vs => FList (normalize_values (map template_code vs))))
        in Hd.
      replace (map (form_entry assertions) simple_fields)
        with (map (fun '(f, p) => (f, FList (codes_of assertions p)))
                  (map (fun '(f, p, _) => (f, p)) simple_fields)) in Hd
        by (rewrite map_map; apply map_ext; intros [[? ?] ?]; reflexivity).
      rewrite (dict_get_map_val (fun p => FList (codes_of assertions p))) in Hd.
      unfold simple_field_predicate.
      destruct (dict_get fields f), (dict_get (map (fun '(f, p, _) => (f, p)) simple_fields) f);
        congruence. }
    unfold submitted_form, form_of. apply map_ext. intros [f []]; [reflexivity| |reflexivity].
    rewrite Hkey. reflexivity.
Qed.

Lemma pairs_cons a l :
  pairs (a :: l) = app (map (fun o => (term (a_predicate a), json_code o)) (a_objects a)) (pairs l).
Proof. reflexivity. Qed.

Lemma simple_object_codes (p src : string) (cs : list string) :
  map (fun o => (p, json_code o)) (map (simple_object src) (map JStr cs)) =
  map (fun c => (p, JStr c)) cs.
Proof. induction cs as [|c cs IH]; [reflexivity|]. simpl. rewrite IH. reflexivity. Qed.

(** The pairs a list field contributes to the posted-back form. *)
Definition entry_pairs (assertions : list assertion) (fk : string * field_kind)
    : list (string * json) :=
  let '(f, k) := fk in
  match k with
  | KList => match simple_field_predicate f with
             | Some p => map (fun c => (p, JStr c)) (codes_of assertions p)
             | None => []
             end
  | _ => []
  end.

Lemma build_simple_pairs self scalars assertions l :
  (forall f p d, In (f, p, d) simple_fields ->
     exists row, get_field_row self f = Some row /\ apo_predicate_term row = p) ->
  (forall f, In (f, KStr) l -> get_field_row self f = None) ->
  pairs (buildsimpleassertions self
    (map (fun '(f, k) =>
            (f, match k with
                | KStr => FStr (scalars f)
                | KList => FList (match simple_field_predicate f with
                                  | Some p => codes_of assertions p
                                  | None => []
                                  end)
                | KRegs => FRegs []
                end)) l))
  = flat_map (entry_pairs assertions) l.
Proof.
  induction l as [|[f k] l IH]; intros Hmeta Hstr; [reflexivity|].
  rewrite map_cons. cbn [flat_map buildsimpleassertions].
  rewrite <- IH by (exact Hmeta || (intros f' H'; exact (Hstr f' (or_intror H')))).
  destruct k.
  - rewrite (Hstr f (or_introl eq_refl)). reflexivity.
  - simpl entry_pairs. destruct (simple_field_predicate f) as [p|] eqn:Ep.
    + unfold simple_field_predicate in Ep.
      assert (Hin : exists d, In (f, p, d) simple_fields).
      { clear -Ep. induction simple_fields as [|[[f' p'] d'] l IH]; simpl in Ep;
          [discriminate|].
        destruct (String.eqb_spec f f') as [->|].
        - injection Ep as ->. exists d'. left. reflexivity.
        - destruct (IH Ep) as [d Hd]. exists d. right. exact Hd. }
      destruct Hin as [d Hin]. destruct (Hmeta f p d Hin) as [row [Hrow Hpt]].
      rewrite Hrow. unfold field_values.
      destruct (codes_of assertions p) as [|c cs]; [destruct (get_field_row self f); reflexivity|].
      change ((0 <? length (map JStr (c :: cs)))%nat) with true. cbv iota.
      rewrite pairs_cons. cbn [a_objects a_predicate term]. rewrite Hpt, simple_object_codes.
      reflexivity.
    + destruct (get_field_row self f); reflexivity.
  - destruct (get_field_row self f); reflexivity.
Qed.

Lemma dict_get_notin {V} (d : list (string * V)) k :
  ~ In k (map fst d) -> dict_get d k = None.
Proof.
  induction d as [|[k' v] d IH]; intros H; [reflexivity|]. simpl in *.
  destruct (String.eqb_spec k k') as [->|]; [tauto|]. apply IH. tauto.
Qed.

Lemma buildassertions_form_of self scalars assertions row rest :
  context_assertion_code self = row :: rest ->
  ~ In (fst row) (map fst editform_layout) ->
  buildassertions self (form_of scalars assertions) =
  Ok (app (buildsimpleassertions self (form_of scalars assertions)) []).
Proof.
  intros Hc Hn. unfold buildassertions.
  assert (Hreg : buildregmarkerassertions (form_of scalars assertions) = Ok []).
  { unfold buildregmarkerassertions, form_get, form_of. rewrite dict_get_map_key.
    reflexivity. }
  rewrite Hreg. cbn [res_bind]. unfold buildcontextassertions. rewrite Hc.
  destruct row as [n code]. unfold context_row_assertions, form_value, form_get, form_of.
  rewrite dict_get_map_key, dict_get_notin by exact Hn. reflexivity.
Qed.

Lemma pairs_codes (l : list assertion) :
  (forall a, In a l -> exists cs, res_mapM obj_code (a_objects a) = Ok cs) ->
  pairs l = flat_map (fun a => map (fun c => (term (a_predicate a), JStr c))
                                   (codes_of_assertion a)) l.
Proof.
  induction l as [|a l IH]; intros H; [reflexivity|].
  rewrite pairs_cons, IH by (intros a' Ha'; exact (H a' (or_intror Ha'))).
  destruct (H a (or_introl eq_refl)) as [cs Hcs]. simpl. unfold codes_of_assertion.
  rewrite Hcs. f_equal.
  replace (map (fun o => (term (a_predicate a), json_code o)) (a_objects a))
    with (map (fun y => (term (a_predicate a), y)) (map json_code (a_objects a)))
    by (rewrite map_map; reflexivity).
  rewrite (obj_codes_json _ _ Hcs), map_map. reflexivity.
Qed.

Lemma find_unique (l : list assertion) a :
  List.NoDup (map (fun a => term (a_predicate a)) l) -> In a l ->
  find (fun a' => String.eqb (term (a_predicate a')) (term (a_predicate a))) l = Some a.
Proof.
  induction l as [|a0 l IH]; intros Hnd Ha; [contradiction|].
  simpl in Hnd. apply List.NoDup_cons_iff in Hnd as [Hnin Hnd]. simpl.
  destruct Ha as [<-|Ha]; [rewrite String.eqb_refl; reflexivity|].
  destruct (String.eqb_spec (term (a_predicate a0)) (term (a_predicate a))) as [He|].
  - exfalso. apply Hnin. rewrite He. apply (in_map (fun a => term (a_predicate a))), Ha.
  - apply IH; assumption.
Qed.

(** Each list field that [fetchfromdb] fills is a [FieldList] of the form,
    mapped to its predicate. *)
Lemma simple_fields_in_layout f p d :
  In (f, p, d) simple_fields ->
  In (f, KList) editform_layout /\ simple_field_predicate f = Some p.
Proof.
  intros Hin. simpl in Hin.
  repeat (destruct Hin as [Hin|Hin];
          [injection Hin as <- <- <-; split;
           [simpl; repeat (first [left; reflexivity | right]) | reflexivity]|]).
  contradiction.
Qed.

(** A senlib whose [assertion_predicate_object] table maps every list field
    of the form to its predicate, with the taxon valueset. *)
Definition self5 : senlib :=
  mkSenLib [mkValuesetRow None "in_taxon" "NCBITaxon:9606" "human";
            mkValuesetRow None "in_taxon" "NCBITaxon:10090" "mouse"]
           (map (fun '(f, p, _) => mkApoRow f p "external") simple_fields)
           [("age", "PATO:0000011")] "" "" "".

(** The string fields as [fetchfromdb] fills them for a record with no
    context assertion. *)
Definition scalars5 (f : string) : option string :=
  if String.eqb f "senotypeid" then Some "SNT123.ABCD.456"
  else if String.eqb f "senotypename" then Some "Senotype"
  else if String.eqb f "senotypedescription" then Some "A senotype"
  else if String.eqb f "submitteremail" then Some "a@b.org"
  else if String.eqb f "ageunit" then Some "year"
  else if String.eqb f "bmiunit" then Some "kg/m2"
  else Some "".

(** A record with a cell type the cell-type service does not know. *)
Definition rec5_unknown : list assertion :=
  [mkAssertion (mkPredicate "has_cell_type" None)
     [code_obj "CL:0000236"; code_obj "CL:9999999"]].

(** A record with two assertions of the same predicate. *)
Definition rec5_repeated : list assertion :=
  [mkAssertion (mkPredicate "in_taxon" None) [code_obj "NCBITaxon:9606"];
   mkAssertion (mkPredicate "in_taxon" None) [code_obj "NCBITaxon:10090"]].

(** A record on which every object resolves. *)
Definition rec5_resolved : list assertion :=
  [mkAssertion (mkPredicate "in_taxon" None) [code_obj "NCBITaxon:9606"];
   mkAssertion (mkPredicate "has_cell_type" None) [code_obj "CL:0000236"]].

(** C5 (counterexample): the round trip loses pairs. An object the
    resolver drops during hydration is not in the form, so it is not
    posted back; and of two assertions with the same predicate only the
    first is hydrated. *)
Lemma C5_round_trip_counterexample :
  (let! o := round_trip self5 celltype_api scalars5 rec5_unknown in Ok (pairs o))
    = Ok [("has_cell_type", JStr "CL:0000236")] /\
  In ("has_cell_type", JStr "CL:9999999") (pairs rec5_unknown) /\
  (let! o := round_trip self5 celltype_api scalars5 rec5_repeated in Ok (pairs o))
    = Ok [("in_taxon", JStr "NCBITaxon:9606")] /\
  In ("in_taxon", JStr "NCBITaxon:10090") (pairs rec5_repeated).
Proof.
  split; [vm_compute; reflexivity|]. split; [simpl; tauto|].
  split; [vm_compute; reflexivity|]. simpl. tauto.
Qed.

(** C5 (amended): the round trip keeps the set of (predicate, code) pairs
    of a record, whatever values the form's string fields carry, when each
    of its assertions has a distinct predicate of a list field of the form
    (matched by its term, an IRI naming another list predicate being
    excluded), the [assertion_predicate_object] table maps each list field
    to its predicate and maps no string field of the form, the context
    table's first row names no field of the form, and the resolver of every
    assertion labels each object, keeping its code, the codes being
    non-blank, stripped, not ['None'] and free of [" ("]. *)
Theorem C5_round_trip_preserves_pairs (self : senlib) (api : string -> res json)
    (scalars : string -> option string) (assertions : list assertion)
    (Hterms : forall a, In a assertions -> In (term (a_predicate a)) simple_predicates)
    (Hnodup : List.NoDup (map (fun a => term (a_predicate a)) assertions))
    (Hiri : forall a i, In a assertions -> IRI (a_predicate a) = Some i ->
              In i simple_predicates -> i = term (a_predicate a))
    (Hmeta : forall f p d, In (f, p, d) simple_fields ->
               exists row, get_field_row self f = Some row /\ apo_predicate_term row = p)
    (Hstr : forall f, In (f, KStr) editform_layout -> get_field_row self f = None)
    (Hctx : exists row rest, context_assertion_code self = row :: rest /\
              ~ In (fst row) (map fst editform_layout))
    (Hres : forall a, In a assertions -> resolves_codes self api a) :
  exists out, round_trip self api scalars assertions = Ok out /\
              forall x, In x (pairs out) <-> In x (pairs assertions).
Proof.
  assert (Hm : forall a, In a assertions -> forall p, In p simple_predicates ->
                 predicate_matches a p = String.eqb (term (a_predicate a)) p).
  { intros a Ha p Hp. unfold predicate_matches.
    destruct (IRI (a_predicate a)) as [i|] eqn:Ei; [|reflexivity].
    destruct (String.eqb_spec i p) as [->|]; [|reflexivity].
    rewrite <- (Hiri a p Ha Ei Hp), String.eqb_refl. reflexivity. }
  destruct (hydrate_submitted self api scalars assertions Hm Hres) as [fields [Hf Hs]].
  destruct Hctx as (row & rest & Hc & Hn).
  exists (app (buildsimpleassertions self (form_of scalars assertions)) []). split.
  - unfold round_trip. rewrite Hf. cbn [res_bind]. rewrite Hs.
    exact (buildassertions_form_of self scalars assertions row rest Hc Hn).
  - intros x. rewrite app_nil_r. unfold form_of.
    rewrite (build_simple_pairs self scalars assertions _ Hmeta Hstr).
    rewrite (pairs_codes assertions)
      by (intros a Ha; destruct (Hres a Ha) as (cs & _ & Hcs & _); exists cs; exact Hcs).
    split; intros Hx.
    + apply List.in_flat_map in Hx as [[f k] [_ Hx]].
      destruct k; try contradiction. simpl in Hx.
      destruct (simple_field_predicate f) as [p|]; [|contradiction].
      unfold codes_of in Hx.
      destruct (find _ assertions) as [a|] eqn:Ef; [|contradiction].
      apply find_some in Ef as [Ha Ht]. apply String.eqb_eq in Ht. subst p.
      apply List.in_flat_map. exists a. split; assumption.
    + apply List.in_flat_map in Hx as [a [Ha Hx]].
      destruct (proj1 (List.in_map_iff _ _ _) (Hterms a Ha)) as [[[f p] d] [Hp Hin]].
      simpl in Hp. subst p.
      destruct (simple_fields_in_layout _ _ _ Hin) as [Hl Hsp].
      apply List.in_flat_map. exists (f, KList). split; [exact Hl|].
      simpl. rewrite Hsp. unfold codes_of. rewrite find_unique by assumption. exact Hx.
Qed.

Lemma C5_round_trip_preserves_pairs_witness :
  (let! o := round_trip self5 celltype_api scalars5 rec5_resolved in Ok (pairs o))
    = Ok [("in_taxon", JStr "NCBITaxon:9606"); ("has_cell_type", JStr "CL:0000236")] /\
  exists out, round_trip self5 celltype_api scalars5 rec5_resolved = Ok out /\
              forall x, In x (pairs out) <-> In x (pairs rec5_resolved).
Proof.
  split; [vm_compute; reflexivity|].
  apply (C5_round_trip_preserves_pairs self5 celltype_api scalars5 rec5_resolved).
  - intros a Ha. simpl in Ha. destruct Ha as [<-|[<-|[]]]; simpl; tauto.
  - simpl. apply List.NoDup_cons; [simpl; intros [H|[]]; discriminate|].
    apply List.NoDup_cons; [simpl; tauto|constructor].
  - intros a i Ha Hi. simpl in Ha. destruct Ha as [<-|[<-|[]]]; discriminate.
  - intros f p d Hin. simpl in Hin.
    repeat (destruct Hin as [Hin|Hin]; [injection Hin as <- <- <-; eexists; split; reflexivity|]).
    contradiction.
  - intros f Hin. simpl in Hin.
    repeat (destruct Hin as [Hin|Hin];
            [first [discriminate Hin | injection Hin as <-; vm_compute; reflexivity]|]).
    contradiction.
  - exists ("age", "PATO:0000011"), []. split; [reflexivity|].
    simpl. intros H. repeat (destruct H as [H|H]; [discriminate|]). exact H.
  - intros a Ha. simpl in Ha. destruct Ha as [<-|[<-|[]]];
      (eexists _, _; split; [reflexivity|split; [reflexivity|split; [reflexivity|]]]);
      (split; [reflexivity|repeat constructor; eexists; reflexivity]).
Defined.

(* ================================================================== *)
(** * The form normalisation of the update route (routes/update/update.py) *)

(** A werkzeug [MultiDict] as the (key, value) pairs in insertion order. *)
Definition multidict := list (string * string).

(** [md.getlist(key)]. *)
Definition md_getlist (md : multidict) (k : string) : list string :=
  map snd (List.filter (fun kv => String.eqb (fst kv) k) md).

Definition md_keys_step (acc : list string) (kv : string * string) : list string :=
  if existsb (String.eqb (fst kv)) acc then acc else app acc [fst kv].

(** [md.keys()]: each key once, in the order of its first value. *)
Definition md_keys (md : multidict) : list string := fold_left md_keys_step md [].

(** [normalize_multidict]: for each key, its cleaned values are added in
    order; a key without a cleaned value is not added. *)
Definition normalize_multidict (md : multidict) : multidict :=
  fold_left (fun normalized key =>
               let cleaned := normalize_values (md_getlist md key) in
               match cleaned with
               | [] => normalized
               | _ => fold_left (fun n entry => app n [(key, entry)]) cleaned normalized
               end)
            (md_keys md) [].

(** [str.strip()] on the list of characters. *)
Fixpoint lstrip_l (l : list ascii) : list ascii :=
  match l with
  | [] => []
  | c :: rest => if is_ws c then lstrip_l rest else l
  end.

Lemma lstrip_list s : list_ascii_of_string (lstrip s) = lstrip_l (list_ascii_of_string s).
Proof. induction s as [|c s IH]; [reflexivity|]. simpl. destruct (is_ws c); [exact IH|reflexivity]. Qed.

Lemma py_strip_list s :
  list_ascii_of_string (py_strip s) = rev (lstrip_l (rev (lstrip_l (list_ascii_of_string s)))).
Proof.
  unfold py_strip, string_rev.
  rewrite list_ascii_of_string_of_list_ascii, lstrip_list, list_ascii_of_string_of_list_ascii,
    lstrip_list. reflexivity.
Qed.

Lemma lstrip_l_idem l : lstrip_l (lstrip_l l) = lstrip_l l.
Proof.
  induction l as [|c l IH]; [reflexivity|]. simpl.
  destruct (is_ws c) eqn:E; [exact IH|]. simpl. rewrite E. reflexivity.
Qed.

Lemma lstrip_l_snoc l c : is_ws c = false -> lstrip_l (app l [c]) = app (lstrip_l l) [c].
Proof.
  intros Hc. induction l as [|d l IH]; simpl; [rewrite Hc; reflexivity|].
  destruct (is_ws d); [exact IH|reflexivity].
Qed.

Lemma lstrip_l_head l : lstrip_l l = [] \/ exists c t, lstrip_l l = c :: t /\ is_ws c = false.
Proof.
  induction l as [|c l IH]; [left; reflexivity|]. simpl.
  destruct (is_ws c) eqn:E; [exact IH|right; exists c, l; split; [reflexivity|exact E]].
Qed.

(** [s.strip().strip() == s.strip()]. *)
Lemma py_strip_idem s : py_strip (py_strip s) = py_strip s.
Proof.
  rewrite <- (string_of_list_ascii_of_string (py_strip (py_strip s))),
    <- (string_of_list_ascii_of_string (py_strip s)).
  f_equal. rewrite !py_strip_list.
  set (t := lstrip_l (list_ascii_of_string s)).
  assert (Hu : lstrip_l (rev (lstrip_l (rev t))) = rev (lstrip_l (rev t))).
  { destruct (lstrip_l_head (list_ascii_of_string s)) as [He|(c & t' & He & Hc)];
      unfold t; rewrite He; [reflexivity|].
    simpl. rewrite (lstrip_l_snoc _ _ Hc), rev_app_distr. simpl. rewrite Hc. reflexivity. }
  rewrite list_ascii_of_string_of_list_ascii, Hu, rev_involutive, lstrip_l_idem. reflexivity.
Qed.

Lemma fold_add_entries (key : string) (vs : list string) (n : multidict) :
  fold_left (fun n entry => app n [(key, entry)]) vs n = app n (map (fun e => (key, e)) vs).
Proof.
  revert n. induction vs as [|v vs IH]; intros n; simpl; [rewrite app_nil_r; reflexivity|].
  rewrite IH, <- app_assoc. reflexivity.
Qed.

Lemma normalize_fold (md : multidict) K acc :
  fold_left (fun normalized key =>
               let cleaned := normalize_values (md_getlist md key) in
               match cleaned with
               | [] => normalized
               | _ => fold_left (fun n entry => app n [(key, entry)]) cleaned normalized
               end) K acc =
  app acc (flat_map (fun k => map (fun e => (k, e)) (normalize_values (md_getlist md k))) K).
Proof.
  revert acc. induction K as [|k K IH]; intros acc.
  - simpl. rewrite app_nil_r. reflexivity.
  - simpl. rewrite IH, app_assoc. f_equal.
    destruct (normalize_values (md_getlist md k)) as [|v vs]; [rewrite app_nil_r; reflexivity|].
    apply fold_add_entries.
Qed.

Lemma normalize_multidict_flat md :
  normalize_multidict md =
  flat_map (fun k => map (fun e => (k, e)) (normalize_values (md_getlist md k))) (md_keys md).
Proof. unfold normalize_multidict. rewrite normalize_fold. reflexivity. Qed.

Lemma md_keys_fold_nodup l acc : List.NoDup acc -> List.NoDup (fold_left md_keys_step l acc).
Proof.
  revert acc. induction l as [|kv l IH]; intros acc H; simpl; [exact H|]. apply IH.
  unfold md_keys_step. destruct (existsb (String.eqb (fst kv)) acc) eqn:E; [exact H|].
  apply List.NoDup_app; [exact H|repeat constructor; auto|].
  intros x Hx [<-|[]]. assert (existsb (String.eqb (fst kv)) acc = true) by
    (apply existsb_exists; exists (fst kv); split; [exact Hx|apply String.eqb_refl]). congruence.
Qed.

Lemma md_keys_fold_in l acc k :
  In k (fold_left md_keys_step l acc) <-> In k acc \/ In k (map fst l).
Proof.
  revert acc. induction l as [|kv l IH]; intros acc; simpl; [tauto|]. rewrite IH.
  unfold md_keys_step. destruct (existsb (String.eqb (fst kv)) acc) eqn:E.
  - apply existsb_exists in E as [x [Hx Heq]]. apply String.eqb_eq in Heq. subst x.
    split; [tauto|]. intros [H|[<-|H]]; tauto.
  - rewrite in_app_iff. simpl. split; intros H; intuition.
Qed.

Lemma md_keys_nodup md : List.NoDup (md_keys md).
Proof. apply md_keys_fold_nodup. constructor. Qed.

Lemma md_keys_in md k : In k (md_keys md) <-> In k (map fst md).
Proof. unfold md_keys. rewrite md_keys_fold_in. simpl. tauto. Qed.

Lemma md_keys_block_in k vs acc :
  In k acc -> fold_left md_keys_step (map (fun e => (k, e)) vs) acc = acc.
Proof.
  intros H. induction vs as [|v vs IH]; [reflexivity|]. simpl. unfold md_keys_step at 2. simpl.
  replace (existsb (String.eqb k) acc) with true; [exact IH|].
  symmetry. apply existsb_exists. exists k. split; [exact H|apply String.eqb_refl].
Qed.

Lemma md_keys_flat (f : string -> list string) K acc :
  List.NoDup K -> (forall k, In k K -> ~ In k acc) ->
  fold_left md_keys_step (flat_map (fun k => map (fun e => (k, e)) (f k)) K) acc =
  app acc (List.filter (fun k => negb (Nat.eqb (length (f k)) 0)) K).
Proof.
  revert acc. induction K as [|k K IH]; intros acc Hnd Hfresh; simpl; [rewrite app_nil_r; reflexivity|].
  apply List.NoDup_cons_iff in Hnd as [HkK Hnd]. rewrite fold_left_app.
  destruct (f k) as [|v vs] eqn:Ef.
  - simpl. apply IH; [exact Hnd|]. intros k' Hk'. exact (Hfresh k' (or_intror Hk')).
  - assert (Hstep : md_keys_step acc (k, v) = app acc [k]).
    { unfold md_keys_step. simpl. replace (existsb (String.eqb k) acc) with false; [reflexivity|].
      symmetry. apply Bool.not_true_iff_false. intros Hex.
      apply existsb_exists in Hex as [x [Hx Heq]]. apply String.eqb_eq in Heq. subst x.
      exact (Hfresh k (or_introl eq_refl) Hx). }
    change (map (fun e => (k, e)) (v :: vs)) with ((k, v) :: map (fun e => (k, e)) vs).
    cbn [fold_left]. rewrite Hstep.
    rewrite md_keys_block_in by (apply in_or_app; right; left; reflexivity).
    change (negb (length (v :: vs) =? 0)%nat) with true. cbv iota.
    rewrite IH, <- app_assoc; [reflexivity|exact Hnd|].
    intros k' Hk' Hin. apply in_app_or in Hin as [Hin|[<-|[]]].
    + exact (Hfresh k' (or_intror Hk') Hin).
    + exact (HkK Hk').
Qed.

Lemma md_getlist_app l1 l2 k : md_getlist (app l1 l2) k = app (md_getlist l1 k) (md_getlist l2 k).
Proof. unfold md_getlist. rewrite List.filter_app, map_app. reflexivity. Qed.

Lemma md_getlist_block k' vs k :
  md_getlist (map (fun e => (k', e)) vs) k = if String.eqb k' k then vs else [].
Proof.
  unfold md_getlist. induction vs as [|v vs IH]; simpl; [destruct (String.eqb k' k); reflexivity|].
  destruct (String.eqb k' k); simpl; rewrite IH; reflexivity.
Qed.

Lemma md_getlist_flat (f : string -> list string) K k :
  List.NoDup K ->
  md_getlist (flat_map (fun k => map (fun e => (k, e)) (f k)) K) k =
  if existsb (String.eqb k) K then f k else [].
Proof.
  induction K as [|k' K IH]; intros Hnd; [reflexivity|].
  apply List.NoDup_cons_iff in Hnd as [Hk' Hnd]. simpl. rewrite md_getlist_app, md_getlist_block, IH by exact Hnd.
  destruct (String.eqb_spec k' k) as [<-|Hne]; simpl.
  - rewrite String.eqb_refl. simpl.
    replace (existsb (String.eqb k') K) with false; [apply app_nil_r|].
    symmetry. apply Bool.not_true_iff_false. intros Hex.
    apply existsb_exists in Hex as [x [Hx Heq]]. apply String.eqb_eq in Heq. subst x. tauto.
  - rewrite (proj2 (String.eqb_neq k k')) by congruence. reflexivity.
Qed.

Lemma md_getlist_absent md k : ~ In k (map fst md) -> md_getlist md k = [].
Proof.
  unfold md_getlist. induction md as [|[k' v] md IH]; intros H; [reflexivity|]. simpl in *.
  destruct (String.eqb_spec k' k); [tauto|]. apply IH. tauto.
Qed.

Lemma normalize_values_clean l v :
  In v (normalize_values l) -> v <> "" /\ py_strip v = v /\ v <> "None".
Proof.
  unfold normalize_values. intros H. apply in_map_iff in H as [w [<- Hw]].
  apply List.filter_In in Hw as [_ Hp]. rewrite !andb_true_iff, !negb_true_iff in Hp.
  destruct Hp as [_ [H1 H2]]. apply String.eqb_neq in H1, H2. rewrite py_strip_idem. auto.
Qed.

Lemma normalize_values_idem l : normalize_values (normalize_values l) = normalize_values l.
Proof.
  assert (Hc := normalize_values_clean l). set (n := normalize_values l) in *.
  unfold normalize_values at 1.
  rewrite (List.filter_ext_in _ (fun _ => true)).
  - rewrite List.filter_true. clearbody n. induction n as [|v n IH]; [reflexivity|]. simpl.
    destruct (Hc v (or_introl eq_refl)) as [_ [-> _]]. f_equal.
    apply IH. intros w Hw. exact (Hc w (or_intror Hw)).
  - intros v Hv. destruct (Hc v Hv) as [H1 [H2 H3]]. rewrite H2.
    rewrite (proj2 (String.eqb_neq _ _) H1), (proj2 (String.eqb_neq _ _) H3). reflexivity.
Qed.

Lemma flat_map_filter_nonempty (f : string -> list string) (g : string -> multidict) K :
  (forall k, In k K -> g k = map (fun e => (k, e)) (f k)) ->
  flat_map g (List.filter (fun k => negb (Nat.eqb (length (f k)) 0)) K) =
  flat_map (fun k => map (fun e => (k, e)) (f k)) K.
Proof.
  induction K as [|k K IH]; intros H; [reflexivity|]. simpl.
  rewrite <- IH by (intros k' Hk'; exact (H k' (or_intror Hk'))).
  destruct (f k) as [|v vs] eqn:Ef; simpl; [reflexivity|].
  rewrite (H k (or_introl eq_refl)), Ef. reflexivity.
Qed.

Lemma normalize_values_nonempty l :
  normalize_values l <> [] <->
  exists v, In v l /\ py_strip v <> "" /\ py_strip v <> "None".
Proof.
  unfold normalize_values. split.
  - intros H. destruct (List.filter _ l) as [|w ws] eqn:Ef; [contradiction|].
    assert (Hw : In w (w :: ws)) by (left; reflexivity). rewrite <- Ef in Hw.
    apply List.filter_In in Hw as [Hw Hp]. rewrite !andb_true_iff, !negb_true_iff in Hp.
    destruct Hp as [_ [H1 H2]]. apply String.eqb_neq in H1, H2. exists w. auto.
  - intros (v & Hv & H1 & H2) Hnil. apply map_eq_nil in Hnil.
    assert (Hin : In v (List.filter (fun v => andb (negb (String.eqb v ""))
                             (andb (negb (String.eqb (py_strip v) ""))
                                   (negb (String.eqb (py_strip v) "None")))) l)).
    { apply List.filter_In. split; [exact Hv|].
      assert (v <> "") by (intros ->; apply H1; reflexivity).
      rewrite (proj2 (String.eqb_neq _ _) H), (proj2 (String.eqb_neq _ _) H1),
        (proj2 (String.eqb_neq _ _) H2). reflexivity. }
    rewrite Hnil in Hin. exact Hin.
Qed.

Lemma md_getlist_in md k v : In v (md_getlist md k) -> In k (map fst md).
Proof.
  unfold md_getlist. intros H. apply in_map_iff in H as [[k' v'] [_ H]].
  apply List.filter_In in H as [H Hk]. simpl in Hk. apply String.eqb_eq in Hk. subst k'.
  apply (in_map fst _ _ H).
Qed.

(** normalize_multidict keeps, for each key, exactly the cleaned values of
    that key: [getlist] of the result is the stripped values of [getlist]
    of the input without blanks and ['None']. *)
Theorem normalize_multidict_getlist md k :
  md_getlist (normalize_multidict md) k = normalize_values (md_getlist md k).
Proof.
  rewrite normalize_multidict_flat, md_getlist_flat by apply md_keys_nodup.
  destruct (existsb (String.eqb k) (md_keys md)) eqn:E; [reflexivity|].
  rewrite md_getlist_absent; [reflexivity|]. rewrite <- md_keys_in. intros Hin.
  assert (existsb (String.eqb k) (md_keys md) = true)
    by (apply existsb_exists; exists k; split; [exact Hin|apply String.eqb_refl]). congruence.
Qed.

(** normalize_multidict is idempotent: normalising normalised form data
    changes nothing, keys and their order included. *)
Theorem normalize_multidict_idem md :
  normalize_multidict (normalize_multidict md) = normalize_multidict md.
Proof.
  set (f := fun k => normalize_values (md_getlist md k)).
  assert (Hn : normalize_multidict md = flat_map (fun k => map (fun e => (k, e)) (f k)) (md_keys md))
    by apply normalize_multidict_flat.
  assert (Hk : md_keys (normalize_multidict md) =
               List.filter (fun k => negb (Nat.eqb (length (f k)) 0)) (md_keys md)).
  { rewrite Hn. unfold md_keys at 1. rewrite md_keys_flat; [reflexivity|apply md_keys_nodup|].
    intros k _ []. }
  rewrite (normalize_multidict_flat (normalize_multidict md)), Hk, Hn.
  apply flat_map_filter_nonempty. intros k Hin.
  rewrite <- Hn, normalize_multidict_getlist. unfold f. rewrite normalize_values_idem. reflexivity.
Qed.

(** Every value normalize_multidict keeps is stripped, non-blank and not
    the string ['None'], and a key is kept exactly when one of its values
    is non-blank and not ['None'] once stripped. *)
Theorem normalize_multidict_clean md :
  (forall k v, In (k, v) (normalize_multidict md) -> v <> "" /\ py_strip v = v /\ v <> "None") /\
  (forall k, In k (map fst (normalize_multidict md)) <->
             exists v, In v (md_getlist md k) /\ py_strip v <> "" /\ py_strip v <> "None").
Proof.
  split.
  - intros k v H. rewrite normalize_multidict_flat in H.
    apply List.in_flat_map in H as [k' [_ H]]. apply in_map_iff in H as [e [He Hin]].
    injection He as -> ->. exact (normalize_values_clean _ _ Hin).
  - intros k. rewrite <- normalize_values_nonempty, <- normalize_multidict_getlist. split.
    + intros Hk Hnil. apply in_map_iff in Hk as [[k' v] [Hk' Hin]]. simpl in Hk'. subst k'.
      assert (Hv : In v (md_getlist (normalize_multidict md) k)).
      { unfold md_getlist. apply in_map_iff. exists (k, v). split; [reflexivity|].
        apply List.filter_In. split; [exact Hin|apply String.eqb_refl]. }
      rewrite Hnil in Hv. exact Hv.
    + intros Hne. destruct (md_getlist (normalize_multidict md) k) as [|v vs] eqn:E;
        [contradiction|].
      apply (md_getlist_in _ k v). rewrite E. left. reflexivity.
Qed.

(* ------------------------------------------------------------------ *)
(** ** validate_form (routes/update/update.py) *)

Fixpoint drop_char (c : ascii) (l : list ascii) : list ascii :=
  match l with
  | [] => []
  | x :: r => if Ascii.eqb x c then drop_char c r else l
  end.

(** [s.rstrip(c)] for one character. *)
Definition py_rstrip_char (c : ascii) (s : string) : string :=
  string_of_list_ascii (rev (drop_char c (rev (list_ascii_of_string s)))).

Definition fieldlist_prefixes : list string :=
  ["taxon-"; "location-"; "celltype-"; "hallmark-"; "inducer-"; "assay-"; "citation-";
   "origin-"; "dataset-"; "marker-"; "regmarker-"].

(** [val not in [None, '', [], {}]] for a value of [form.data]. *)
Definition py_nonempty_val (v : fval) : bool :=
  match v with
  | FStr None => false
  | FStr (Some s) => negb (String.eqb s "")
  | FList l => negb (Nat.eqb (length l) 0)
  | FRegs l => negb (Nat.eqb (length l) 0)
  end.

(** Some key of [form.data] starting with [base_name] has a non-empty value. *)
Definition found_value (formdata : form) (base_name : string) : bool :=
  existsb (fun key => andb (String.prefix base_name key)
                           (match dict_get formdata key with
                            | Some v => py_nonempty_val v
                            | None => false
                            end))
          (map fst formdata).

Definition errname (base_name : string) : string :=
  if String.eqb base_name "marker" then "specified marker"
  else if String.eqb base_name "regmarker" then "regulating marker"
  else base_name.

Definition custom_message (base_name : string) : list string :=
  ["At least one " ++ errname base_name ++ " required."].

Definition fieldlist_check (formdata : form) (errors : list (string * list string)) (prefix : string)
    : list (string * list string) :=
  let base_name := py_rstrip_char "-" prefix in
  if found_value formdata base_name then errors
  else dict_set errors base_name (custom_message base_name).

(** The attributes of an [EditForm] instance (models/editform.py): its
    fields and [senlib]; [ftu_tree_json] is commented out there. *)
Definition editform_fields : list string :=
  ["senotypeid"; "senotypename"; "senotypedescription"; "doi"; "provenance";
   "submitterfirst"; "submitterlast"; "submitteremail"; "taxon"; "location"; "celltype";
   "microenvironment"; "hallmark"; "inducer"; "assay"; "agevalue"; "agelowerbound";
   "ageupperbound"; "ageunit"; "bmivalue"; "bmilowerbound"; "bmiupperbound"; "bmiunit";
   "sex"; "citation"; "origin"; "dataset"; "marker"; "regmarker"; "diagnosis"; "senlib"].

(** [form.ftu_tree_json.data == '[]'] *)
Definition ftu_tree_json_empty (formdata : form) : bool :=
  match dict_get formdata "ftu_tree_json" with
  | Some (FStr (Some s)) => String.eqb s "[]"
  | _ => false
  end.

(** [validate_form(form)]: [fields] are the form's attributes, [valid] and
    [form_errors] the outcome of [form.validate()], [formdata] is
    [form.data]; [form.ftu_tree_json] raises [AttributeError] on a form
    without that field. *)
Definition validate_form (fields : list string) (valid : bool)
    (form_errors : list (string * list string)) (formdata : form)
    : res (list (string * list string)) :=
  let errors := if valid then [] else form_errors in
  let errors := fold_left (fieldlist_check formdata) fieldlist_prefixes errors in
  if existsb (String.eqb "ftu_tree_json") fields then
    if ftu_tree_json_empty formdata
    then Ok (dict_set errors "ftu_tree_json" ["At least one ftu path must be selected."])
    else Ok errors
  else Err AttributeError.

Definition fieldlist_bases : list string := map (py_rstrip_char "-") fieldlist_prefixes.

Lemma fieldlist_check_fold formdata P e0 x :
  dict_get (fold_left (fieldlist_check formdata) P e0) x =
  if existsb (fun p => andb (String.eqb x (py_rstrip_char "-" p))
                            (negb (found_value formdata (py_rstrip_char "-" p)))) P
  then Some (custom_message x) else dict_get e0 x.
Proof.
  revert e0. induction P as [|p P IH]; intros e0; [reflexivity|]. simpl. rewrite IH.
  unfold fieldlist_check.
  destruct (existsb _ P) eqn:E.
  - destruct (String.eqb x (py_rstrip_char "-" p)); simpl; [|reflexivity].
    destruct (found_value formdata (py_rstrip_char "-" p)); reflexivity.
  - destruct (found_value formdata (py_rstrip_char "-" p)) eqn:Ef; simpl.
    + rewrite andb_false_r. reflexivity.
    + rewrite andb_true_r, dict_get_set.
      destruct (String.eqb_spec x (py_rstrip_char "-" p)) as [->|]; reflexivity.
Qed.

Lemma existsb_base_found formdata b P :
  existsb (fun p => andb (String.eqb b (py_rstrip_char "-" p))
                         (negb (found_value formdata (py_rstrip_char "-" p)))) P =
  andb (existsb (fun p => String.eqb b (py_rstrip_char "-" p)) P) (negb (found_value formdata b)).
Proof.
  induction P as [|p P IH]; [reflexivity|]. simpl. rewrite IH.
  destruct (String.eqb_spec b (py_rstrip_char "-" p)) as [<-|]; simpl; [|reflexivity].
  destruct (found_value formdata b); simpl; rewrite ?andb_false_r; reflexivity.
Qed.

(** validate_form never returns on an EditForm: whatever the data and the
    outcome of the standard validation, it raises AttributeError, since
    the form has no ftu_tree_json field. *)
Theorem validate_form_editform valid form_errors formdata :
  validate_form editform_fields valid form_errors formdata = Err AttributeError.
Proof. unfold validate_form. reflexivity. Qed.

(** On a form that declares ftu_tree_json, validate_form reports
    "At least one ... required." for a list field exactly when no key of
    the form data starting with the field's name holds a value other than
    None, '' or an empty list, and keeps the standard error otherwise; it
    reports the ftu path error exactly when ftu_tree_json is '[]'. *)
Theorem validate_form_errors fields valid form_errors formdata
    (Hf : In "ftu_tree_json" fields) :
  exists errors,
    validate_form fields valid form_errors formdata = Ok errors /\
    (forall b, In b fieldlist_bases ->
       dict_get errors b =
       if found_value formdata b then dict_get (if valid then [] else form_errors) b
       else Some (custom_message b)) /\
    dict_get errors "ftu_tree_json" =
    if ftu_tree_json_empty formdata then Some ["At least one ftu path must be selected."]
    else dict_get (if valid then [] else form_errors) "ftu_tree_json".
Proof.
  unfold validate_form.
  replace (existsb (String.eqb "ftu_tree_json") fields) with true
    by (symmetry; apply existsb_exists; exists "ftu_tree_json"; split; [exact Hf|reflexivity]).
  set (e := fold_left (fieldlist_check formdata) fieldlist_prefixes (if valid then [] else form_errors)).
  assert (Hb : forall b, In b fieldlist_bases ->
            dict_get e b = if found_value formdata b then dict_get (if valid then [] else form_errors) b
                           else Some (custom_message b)).
  { intros b Hb. unfold e. rewrite fieldlist_check_fold, existsb_base_found.
    replace (existsb (fun p => String.eqb b (py_rstrip_char "-" p)) fieldlist_prefixes) with true.
    - destruct (found_value formdata b); reflexivity.
    - symmetry. apply existsb_exists. apply List.in_map_iff in Hb. destruct Hb as [p [<- Hp]].
      exists p. split; [exact Hp|apply String.eqb_refl]. }
  assert (Hftu : dict_get e "ftu_tree_json" = dict_get (if valid then [] else form_errors) "ftu_tree_json")
    by (unfold e; rewrite fieldlist_check_fold; reflexivity).
  destruct (ftu_tree_json_empty formdata).
  - eexists. split; [reflexivity|]. split.
    + intros b Hin. rewrite dict_get_set, <- Hb by exact Hin.
      destruct (String.eqb_spec b "ftu_tree_json") as [->|]; [|reflexivity].
      vm_compute in Hin. exfalso. repeat (destruct Hin as [Hin|Hin]; [discriminate|]). exact Hin.
    + rewrite dict_get_set. reflexivity.
  - exists e. split; [reflexivity|split; [exact Hb|exact Hftu]].
Qed.

Lemma validate_form_errors_witness :
  In "ftu_tree_json" ("ftu_tree_json" :: editform_fields) /\
  exists errors,
    validate_form ("ftu_tree_json" :: editform_fields) true []
      [("marker-0-code", FStr (Some "HGNC:1")); ("ftu_tree_json", FStr (Some "[]"))] = Ok errors /\
    (forall b, In b fieldlist_bases ->
       dict_get errors b =
       if found_value [("marker-0-code", FStr (Some "HGNC:1")); ("ftu_tree_json", FStr (Some "[]"))] b
       then dict_get (if true then [] else []) b
       else Some (custom_message b)) /\
    dict_get errors "ftu_tree_json" =
    if ftu_tree_json_empty [("marker-0-code", FStr (Some "HGNC:1")); ("ftu_tree_json", FStr (Some "[]"))]
    then Some ["At least one ftu path must be selected."]
    else dict_get (if true then [] else []) "ftu_tree_json".
Proof.
  split; [left; reflexivity|].
  apply (validate_form_errors ("ftu_tree_json" :: editform_fields) true []
           [("marker-0-code", FStr (Some "HGNC:1")); ("ftu_tree_json", FStr (Some "[]"))]).
  left; reflexivity.
Defined.

(* ------------------------------------------------------------------ *)
(** ** SenLib.getstoredcontextassertiondata *)

(** [for o in objects: if o.get('type') == context: return o]; [None]
    when the loop ends. *)
Fixpoint find_context_object (objects : list json) (context : string) : res (option json) :=
  match objects with
  | [] => Ok None
  | o :: rest =>
      let! objcontext := jget o "type" in
      match objcontext with
      | Some (JStr s) => if String.eqb s context then Ok (Some o)
                         else find_context_object rest context
      | _ => find_context_object rest context
      end
  end.

(** [pred] is the predicate when the IRI or the term equals it, else
    [''], and the objects are searched only when [pred != '']. *)
Fixpoint getstoredcontextassertiondata (assertions : list assertion) (predicate : string)
    (context : string) : res json :=
  match assertions with
  | [] => Ok (JObj [])
  | a :: rest =>
      let pred := if predicate_matches a predicate then predicate else "" in
      if negb (String.eqb pred "") then
        let! r := find_context_object (a_objects a) context in
        match r with
        | Some o => Ok o
        | None => getstoredcontextassertiondata rest predicate context
        end
      else getstoredcontextassertiondata rest predicate context
  end.

(** A JSON object without a ["type"] key. *)
Definition untyped (o : json) : Prop :=
  match o with
  | JObj kv => dict_get kv "type" = None
  | _ => False
  end.

Lemma find_context_untyped objects context :
  Forall untyped objects -> find_context_object objects context = Ok None.
Proof.
  induction 1 as [|o os Ho _ IH]; [reflexivity|].
  destruct o; try contradiction. simpl in Ho |- *. rewrite Ho. exact IH.
Qed.

Lemma getstoredcontext_untyped assertions predicate context :
  Forall (fun a => Forall untyped (a_objects a)) assertions ->
  getstoredcontextassertiondata assertions predicate context = Ok (JObj []).
Proof.
  induction 1 as [|a l Ha _ IH]; [reflexivity|]. simpl.
  destruct (negb _); [|exact IH].
  rewrite find_context_untyped by exact Ha. exact IH.
Qed.

Lemma simple_assertions_untyped self form_data :
  Forall (fun a => Forall untyped (a_objects a)) (buildsimpleassertions self form_data).
Proof.
  induction form_data as [|[key v] rest IH]; simpl; [constructor|].
  destruct (get_field_row self key); [|exact IH].
  destruct (Nat.ltb 0 _); [|exact IH]. constructor; [|exact IH]. simpl.
  apply List.Forall_forall. intros o Ho. apply List.in_map_iff in Ho.
  destruct Ho as [x [<- _]]. reflexivity.
Qed.

Lemma regmarker_fold_untyped ms s :
  Forall untyped (up_objects s) -> Forall untyped (down_objects s) ->
  Forall untyped (inc_objects s) ->
  let s' := fold_left regmarker_step ms s in
  Forall untyped (up_objects s') /\ Forall untyped (down_objects s') /\
  Forall untyped (inc_objects s').
Proof.
  revert s. induction ms as [|[code action] ms IH]; intros s Hu Hd Hi; simpl; [auto|].
  assert (Hobj : untyped (JObj [("source", JStr "external"); ("code", JStr code)])) by reflexivity.
  unfold regmarker_step.
  destruct (String.eqb action "up_regulates"); [| destruct (String.eqb action "down_regulates")];
    apply IH; simpl; try assumption; apply Forall_app; split; auto.
Qed.

Lemma reg_assertions_untyped form_data l :
  buildregmarkerassertions form_data = Ok l ->
  Forall (fun a => Forall untyped (a_objects a)) l.
Proof.
  unfold buildregmarkerassertions.
  destruct (form_get form_data "regmarker") as [[[s|]|[|x xs]|ms]|]; intros H;
    try discriminate.
  - destruct (String.eqb_spec s "") as [->|Hs]; [injection H as <-; constructor|].
    destruct s as [|c s]; [contradiction|]. discriminate.
  - injection H as <-. constructor.
  - injection H as <-.
    destruct (regmarker_fold_untyped ms (mkRegState [] [] [] [])) as [Hu [Hd Hi]];
      try constructor.
    unfold reg_assertions. apply List.Forall_forall. intros a Ha.
    apply List.in_map_iff in Ha. destruct Ha as [[t r] [<- _]].
    destruct r; simpl; assumption.
Qed.

Lemma context_assertions_untyped self form_data l :
  buildcontextassertions self form_data = Some l ->
  Forall (fun a => Forall untyped (a_objects a)) l.
Proof.
  unfold buildcontextassertions. destruct (context_assertion_code self) as [|[n c] rows];
    intros H; [discriminate|]. injection H as <-. simpl.
  destruct (form_value form_data n); constructor; [|constructor].
  constructor; [|constructor]. unfold untyped; cbv iota. cbn [dict_get].
  change (String.eqb "type" "term") with false. change (String.eqb "type" "code") with false.
  change (String.eqb "type" "value") with false. cbv iota. rewrite !dict_get_app.
  destruct (form_value form_data (n ++ "lowerbound")), (form_value form_data (n ++ "upperbound")),
    (form_value form_data (n ++ "unit")); reflexivity.
Qed.

(** What the editor writes is never read back as a context: on the
    assertions that buildassertions builds from any form,
    getstoredcontextassertiondata returns {} for every predicate and
    context (none of the objects it writes has a "type" key), so
    fetchfromdb never fills the age or BMI fields from a record saved
    by the editor. *)
Theorem getstoredcontext_buildassertions self form_data assertions predicate context
    (H : buildassertions self form_data = Ok assertions) :
  getstoredcontextassertiondata assertions predicate context = Ok (JObj []).
Proof.
  apply getstoredcontext_untyped. revert H. unfold buildassertions.
  destruct (buildregmarkerassertions form_data) as [reg| |] eqn:Er; cbn [res_bind];
    intros H; try discriminate H.
  destruct (buildcontextassertions self form_data) as [ctx|] eqn:Ec; [|discriminate H].
  injection H as <-.
  assert (Hs := simple_assertions_untyped self form_data).
  assert (Hr := reg_assertions_untyped _ _ Er).
  assert (Hc := context_assertions_untyped _ _ _ Ec).
  destruct (Nat.ltb 0 (length ctx)).
  - apply Forall_app; split; [apply Forall_app; split|]; assumption.
  - apply Forall_app; split; assumption.
Qed.

(** A library with one list field and the age context, and a form that
    fills both and one regulating marker. *)
Definition senlib_ex : senlib :=
  mkSenLib [mkValuesetRow None "in_taxon" "NCBITaxon:9606" "human"]
           [mkApoRow "taxon" "in_taxon" "NCBITaxon"]
           [("age", "PATO:0000011")] "" "" "".

Definition context_form_ex : form :=
  [("taxon", FList ["NCBITaxon:9606"]); ("regmarker", FRegs [("HGNC:1", "up_regulates")]);
   ("age", FStr (Some "65")); ("ageunit", FStr (Some "year"))].

Lemma getstoredcontext_buildassertions_witness :
  exists assertions, buildassertions senlib_ex context_form_ex = Ok assertions /\
    getstoredcontextassertiondata assertions "has_context" "age" = Ok (JObj []).
Proof.
  eexists. split; [vm_compute; reflexivity|].
  apply (getstoredcontext_buildassertions senlib_ex context_form_ex). vm_compute. reflexivity.
Defined.

(* ------------------------------------------------------------------ *)
(** ** SenLib.getregmarkerobjects *)

Fixpoint last_opt {A} (l : list A) : option A :=
  match l with
  | [] => None
  | [x] => Some x
  | _ :: l' => last_opt l'
  end.

Definition regulating_terms : list string :=
  ["up_regulates"; "down_regulates"; "inconclusively_regulates"].

Definition is_regulating (a : assertion) : bool :=
  existsb (String.eqb (term (a_predicate a))) regulating_terms.

(** [listret = self.getmarkerobjects(...)] then [o['type'] = predicate_term]
    for each entry: an entry is code, term and type. *)
Fixpoint getregmarkerobjects_loop (self : senlib) (api : string -> res json)
    (listret : list (string * json * string)) (assertions : list assertion)
    : res (list (string * json * string)) :=
  match assertions with
  | [] => Ok listret
  | a :: rest =>
      let predicate_term := term (a_predicate a) in
      if is_regulating a then
        let! l := getmarkerobjects self api (a_objects a) in
        getregmarkerobjects_loop self api
          (map (fun '(c, t) => (c, t, predicate_term)) l) rest
      else getregmarkerobjects_loop self api listret rest
  end.

Definition getregmarkerobjects (self : senlib) (api : string -> res json)
    (assertions : list assertion) : res (list (string * json * string)) :=
  getregmarkerobjects_loop self api [] assertions.

Lemma res_bind_ok {A B} (r : res A) (k : A -> res B) x :
  res_bind r k = Ok x -> exists a, r = Ok a /\ k a = Ok x.
Proof. destruct r; simpl; [eauto|discriminate|discriminate]. Qed.

Lemma marker_object_single self api o x :
  marker_object self api o = Ok x ->
  exists c t, obj_code o = Ok c /\ x = [(py_strip c, t)].
Proof.
  intros H. unfold marker_object in H. apply res_bind_ok in H as [c [Hc H]].
  exists c. cbv beta zeta in H.
  destruct (orb _ _); [injection H as <-; eauto|].
  apply res_bind_ok in H as [url [_ H]]. apply res_bind_ok in H as [resp [_ H]].
  destruct (match resp with JList (r0 :: _) => negb (jtruthy r0) | _ => true end);
    [injection H as <-; eauto|].
  apply res_bind_ok in H as [data [_ H]].
  destruct (str_contains "HGNC" (py_strip c)).
  - apply res_bind_ok in H as [t [_ H]]. injection H as <-. eauto.
  - apply res_bind_ok in H as [rn [_ H]].
    destruct rn as [[| | | |[|[] ?]|]|]; try discriminate H; injection H as <-; eauto.
Qed.

Lemma getmarkerobjects_codes_gen self api raw out :
  getmarkerobjects self api raw = Ok out ->
  exists codes, res_mapM obj_code raw = Ok codes /\ map fst out = map py_strip codes.
Proof.
  revert out. induction raw as [|o raw IH]; intros out H.
  - injection H as <-. exists []. split; reflexivity.
  - unfold getmarkerobjects in H. simpl in H.
    apply res_bind_ok in H as [x [Hx H]]. apply res_bind_ok in H as [rest [Hrest H]].
    injection H as <-. destruct (marker_object_single _ _ _ _ Hx) as [c [t [Hc ->]]].
    destruct (IH rest Hrest) as [codes [Hcodes Hmap]].
    exists (c :: codes). simpl. rewrite Hc, Hcodes. split; [reflexivity|].
    simpl. rewrite Hmap. reflexivity.
Qed.

(** getmarkerobjects drops no marker: when it succeeds, it returns one
    entry per raw object, in the same order, whose code is the object's
    code stripped, whether or not the marker service knew the code. *)
Theorem getmarkerobjects_codes self api raw out
    (H : getmarkerobjects self api raw = Ok out) :
  exists codes, res_mapM obj_code raw = Ok codes /\ map fst out = map py_strip codes.
Proof. exact (getmarkerobjects_codes_gen self api raw out H). Qed.

Lemma last_opt_some {A} (a : A) (l : list A) : exists x, last_opt (a :: l) = Some x.
Proof. revert a. induction l as [|b l IH]; intros a; [eauto|]. exact (IH b). Qed.

Lemma last_cons_opt {A} (a : A) (l : list A) :
  last_opt (a :: l) = match last_opt l with None => Some a | s => s end.
Proof. destruct l as [|b l]; [reflexivity|]. change (last_opt (a :: b :: l)) with (last_opt (b :: l)).
  destruct (last_opt_some b l) as [x ->]. reflexivity. Qed.

Lemma getregmarkerobjects_loop_last self api listret assertions out :
  getregmarkerobjects_loop self api listret assertions = Ok out ->
  match last_opt (List.filter is_regulating assertions) with
  | None => out = listret
  | Some a => exists l, getmarkerobjects self api (a_objects a) = Ok l /\
                        out = map (fun '(c, t) => (c, t, term (a_predicate a))) l
  end.
Proof.
  revert listret. induction assertions as [|a rest IH]; intros listret H.
  - injection H as <-. reflexivity.
  - simpl in H |- *. destruct (is_regulating a).
    + apply res_bind_ok in H as [l [Hl H]]. specialize (IH _ H).
      rewrite last_cons_opt. destruct (last_opt (List.filter is_regulating rest)); [exact IH|].
      exists l. split; assumption.
    + exact (IH _ H).
Qed.

(** getregmarkerobjects keeps the markers of the last regulating
    assertion only: when it succeeds, its result is the resolved objects
    of the last assertion whose term is up_regulates, down_regulates or
    inconclusively_regulates, each tagged with that term, and [] when
    there is none; each regulating assertion overwrites the list. *)
Theorem getregmarkerobjects_last self api assertions out
    (H : getregmarkerobjects self api assertions = Ok out) :
  match last_opt (List.filter is_regulating assertions) with
  | None => out = []
  | Some a => exists l, getmarkerobjects self api (a_objects a) = Ok l /\
                        out = map (fun '(c, t) => (c, t, term (a_predicate a))) l
  end.
Proof. exact (getregmarkerobjects_loop_last self api [] assertions out H). Qed.

(** The regulating markers of the edit form ([form_data.get('regmarker')]
    when it is the list of entries). *)
Definition form_regmarkers (form_data : form) : list (string * string) :=
  match form_get form_data "regmarker" with
  | Some (FRegs ms) => ms
  | _ => []
  end.

(** The list [buildregmarkerassertions] sorts an action into. *)
Definition reg_action (action : string) : string :=
  if String.eqb action "up_regulates" then "up_regulates"
  else if String.eqb action "down_regulates" then "down_regulates"
  else "inconclusively_regulates".

(** The regulating term that survives [getregmarkerobjects]. *)
Definition kept_action (ms : list (string * string)) : string :=
  if existsb (fun m => String.eqb (reg_action (snd m)) "inconclusively_regulates") ms
  then "inconclusively_regulates"
  else if existsb (fun m => String.eqb (reg_action (snd m)) "down_regulates") ms
  then "down_regulates" else "up_regulates".

Definition reg_obj (code : string) : json :=
  JObj [("source", JStr "external"); ("code", JStr code)].

Definition cat_objects (ms : list (string * string)) (t : string) : list json :=
  map (fun m => reg_obj (fst m)) (List.filter (fun m => String.eqb (reg_action (snd m)) t) ms).

(** The two halves of [regmarker_step]: sorting the object, then
    appending the assertions. *)
Definition reg_classify (s : regstate) (m : string * string) : regstate :=
  let '(code, action) := m in
  let obj := JObj [("source", JStr "external"); ("code", JStr code)] in
  if String.eqb action "up_regulates"
  then mkRegState (app (up_objects s) [obj]) (down_objects s) (inc_objects s) (pending s)
  else if String.eqb action "down_regulates"
  then mkRegState (up_objects s) (app (down_objects s) [obj]) (inc_objects s) (pending s)
  else mkRegState (up_objects s) (down_objects s) (app (inc_objects s) [obj]) (pending s).

Definition reg_append_pending (s : regstate) : regstate :=
  let p := pending s in
  let p := if Nat.ltb 0 (length (up_objects s)) then app p [("up_regulates", UpObjects)] else p in
  let p := if Nat.ltb 0 (length (down_objects s)) then app p [("down_regulates", DownObjects)] else p in
  let p := if Nat.ltb 0 (length (inc_objects s)) then app p [("inconclusively_regulates", IncObjects)] else p in
  mkRegState (up_objects s) (down_objects s) (inc_objects s) p.

Definition kept_of (s : regstate) : string * objlist :=
  if Nat.ltb 0 (length (inc_objects s)) then ("inconclusively_regulates", IncObjects)
  else if Nat.ltb 0 (length (down_objects s)) then ("down_regulates", DownObjects)
  else ("up_regulates", UpObjects).

Lemma regmarker_step_split s m :
  regmarker_step s m = reg_append_pending (reg_classify s m).
Proof. destruct m; reflexivity. Qed.

Lemma last_opt_snoc {A} (l : list A) x : last_opt (app l [x]) = Some x.
Proof. induction l as [|a l IH]; [reflexivity|]. simpl app. rewrite last_cons_opt, IH. reflexivity. Qed.

Lemma last_opt_map {A B} (f : A -> B) l : last_opt (map f l) = option_map f (last_opt l).
Proof.
  induction l as [|a l IH]; [reflexivity|]. simpl map. rewrite !last_cons_opt, IH.
  destruct (last_opt l); reflexivity.
Qed.

Lemma filter_all_true {A} (f : A -> bool) l :
  List.Forall (fun x => f x = true) l -> List.filter f l = l.
Proof. induction 1 as [|x l Hx _ IH]; [reflexivity|]. simpl. rewrite Hx, IH. reflexivity. Qed.

Lemma length_pos_filter {A B} (g : A -> B) f (l : list A) :
  Nat.ltb 0 (length (map g (List.filter f l))) = existsb f l.
Proof.
  induction l as [|a l IH]; [reflexivity|]. simpl. destruct (f a); [reflexivity|exact IH].
Qed.

Lemma reg_append_last s :
  (0 < length (up_objects s) \/ 0 < length (down_objects s) \/ 0 < length (inc_objects s))%nat ->
  last_opt (pending (reg_append_pending s)) = Some (kept_of s).
Proof.
  intros Hne. unfold reg_append_pending, kept_of. cbn [pending].
  destruct (Nat.ltb_spec 0 (length (inc_objects s))); [apply last_opt_snoc|].
  destruct (Nat.ltb_spec 0 (length (down_objects s))); [apply last_opt_snoc|].
  destruct (Nat.ltb_spec 0 (length (up_objects s))); [apply last_opt_snoc|]. lia.
Qed.

Lemma reg_classify_nonempty s m :
  (0 < length (up_objects (reg_classify s m)) \/ 0 < length (down_objects (reg_classify s m)) \/
   0 < length (inc_objects (reg_classify s m)))%nat.
Proof.
  destruct m as [code action]. unfold reg_classify.
  destruct (String.eqb action "up_regulates"); [|destruct (String.eqb action "down_regulates")];
    cbn [up_objects down_objects inc_objects]; rewrite length_app; simpl; lia.
Qed.

Lemma fold_pending_last ms s :
  ms <> [] ->
  last_opt (pending (fold_left regmarker_step ms s)) = Some (kept_of (fold_left regmarker_step ms s)).
Proof.
  revert s. induction ms as [|m ms IH]; intros s Hne; [contradiction|].
  destruct ms as [|m' ms'].
  - simpl. rewrite regmarker_step_split. rewrite reg_append_last by apply reg_classify_nonempty.
    reflexivity.
  - apply IH. discriminate.
Qed.

Lemma fold_pending_regulating ms s :
  List.Forall (fun p => existsb (String.eqb (fst p)) regulating_terms = true) (pending s) ->
  List.Forall (fun p => existsb (String.eqb (fst p)) regulating_terms = true)
              (pending (fold_left regmarker_step ms s)).
Proof.
  revert s. induction ms as [|m ms IH]; intros s Hs; [exact Hs|]. simpl. apply IH.
  rewrite regmarker_step_split. unfold reg_append_pending. cbn [pending].
  assert (Hp : pending (reg_classify s m) = pending s)
    by (destruct m as [c a]; unfold reg_classify;
        destruct (String.eqb a "up_regulates"); [|destruct (String.eqb a "down_regulates")]; reflexivity).
  rewrite Hp.
  destruct (Nat.ltb 0 (length (up_objects _))), (Nat.ltb 0 (length (down_objects _))),
    (Nat.ltb 0 (length (inc_objects _)));
    repeat (apply Forall_app; split); try assumption; repeat constructor.
Qed.

Lemma reg_action_cases a :
  reg_action a = "up_regulates" \/ reg_action a = "down_regulates" \/
  reg_action a = "inconclusively_regulates".
Proof.
  unfold reg_action. destruct (String.eqb a "up_regulates"); [left; reflexivity|].
  destruct (String.eqb a "down_regulates"); [right; left; reflexivity|right; right; reflexivity].
Qed.

Lemma fold_objects ms s :
  up_objects (fold_left regmarker_step ms s) = app (up_objects s) (cat_objects ms "up_regulates") /\
  down_objects (fold_left regmarker_step ms s) = app (down_objects s) (cat_objects ms "down_regulates") /\
  inc_objects (fold_left regmarker_step ms s) =
    app (inc_objects s) (cat_objects ms "inconclusively_regulates").
Proof.
  revert s. induction ms as [|[code action] ms IH]; intros s.
  - simpl. rewrite !app_nil_r. auto.
  - change (fold_left regmarker_step ((code, action) :: ms) s)
      with (fold_left regmarker_step ms (regmarker_step s (code, action))).
    destruct (IH (regmarker_step s (code, action))) as [Hu [Hd Hi]].
    rewrite Hu, Hd, Hi. rewrite regmarker_step_split. unfold reg_append_pending, cat_objects.
    cbn [up_objects down_objects inc_objects List.filter snd fst map].
    unfold reg_classify.
    destruct (String.eqb action "up_regulates") eqn:Eu;
      [|destruct (String.eqb action "down_regulates") eqn:Ed];
      [assert (Hra : reg_action action = "up_regulates") by (unfold reg_action; rewrite Eu; reflexivity)
      |assert (Hra : reg_action action = "down_regulates")
         by (unfold reg_action; rewrite Eu, Ed; reflexivity)
      |assert (Hra : reg_action action = "inconclusively_regulates")
         by (unfold reg_action; rewrite Eu, Ed; reflexivity)];
      rewrite Hra; cbn [up_objects down_objects inc_objects];
      change (String.eqb "up_regulates" "up_regulates") with true;
      change (String.eqb "up_regulates" "down_regulates") with false;
      change (String.eqb "up_regulates" "inconclusively_regulates") with false;
      change (String.eqb "down_regulates" "up_regulates") with false;
      change (String.eqb "down_regulates" "down_regulates") with true;
      change (String.eqb "down_regulates" "inconclusively_regulates") with false;
      change (String.eqb "inconclusively_regulates" "up_regulates") with false;
      change (String.eqb "inconclusively_regulates" "down_regulates") with false;
      change (String.eqb "inconclusively_regulates" "inconclusively_regulates") with true;
      cbv iota; rewrite <- ?app_assoc; auto.
Qed.

Lemma res_mapM_obj_code_cat ms t :
  res_mapM obj_code (cat_objects ms t) =
  Ok (map fst (List.filter (fun m => String.eqb (reg_action (snd m)) t) ms)).
Proof.
  unfold cat_objects. induction (List.filter _ ms) as [|m l IH]; [reflexivity|].
  simpl map. cbn [res_mapM]. rewrite IH. reflexivity.
Qed.

Lemma kept_of_fold ms :
  let s := fold_left regmarker_step ms (mkRegState [] [] [] []) in
  exists r, kept_of s = (kept_action ms, r) /\ deref s r = cat_objects ms (kept_action ms).
Proof.
  cbv zeta. destruct (fold_objects ms (mkRegState [] [] [] [])) as [Hu [Hd Hi]].
  cbn [up_objects down_objects inc_objects] in Hu, Hd, Hi. rewrite app_nil_l in Hu, Hd, Hi.
  unfold kept_of, kept_action. rewrite Hi, Hd. unfold cat_objects.
  rewrite !length_pos_filter.
  destruct (existsb _ ms); [exists IncObjects; simpl; rewrite Hi; split; reflexivity|].
  destruct (existsb _ ms); [exists DownObjects; simpl; rewrite Hd; split; reflexivity|].
  exists UpObjects. simpl. rewrite Hu. split; reflexivity.
Qed.

(** Regulating markers do not survive a save and reload: after
    buildregmarkerassertions writes the form's regulating markers, a
    successful getregmarkerobjects reads back only the markers of one
    action, inconclusively_regulates if any marker has it, else
    down_regulates if any has it, else up_regulates, with their codes
    stripped, in form order, tagged with that action. *)
Theorem regmarkers_read_back self api form_data assertions out
    (Hb : buildregmarkerassertions form_data = Ok assertions)
    (Hg : getregmarkerobjects self api assertions = Ok out) :
  map (fun '(c, _, t) => (c, t)) out =
  map (fun m => (py_strip (fst m), kept_action (form_regmarkers form_data)))
      (List.filter (fun m => String.eqb (reg_action (snd m)) (kept_action (form_regmarkers form_data)))
                   (form_regmarkers form_data)).
Proof.
  assert (Hnil : assertions = [] -> form_regmarkers form_data = [] ->
                 map (fun '(c, _, t) => (c, t)) out =
                 map (fun m => (py_strip (fst m), kept_action (form_regmarkers form_data)))
                     (List.filter (fun m => String.eqb (reg_action (snd m))
                                   (kept_action (form_regmarkers form_data))) (form_regmarkers form_data))).
  { intros -> ->. injection Hg as <-. reflexivity. }
  unfold buildregmarkerassertions, form_regmarkers in *.
  destruct (form_get form_data "regmarker") as [[[s|]|[|x xs]|ms]|]; try discriminate Hb.
  - destruct (String.eqb_spec s "") as [->|Hs]; [injection Hb as <-; apply Hnil; reflexivity|].
    destruct s; [contradiction|discriminate Hb].
  - injection Hb as <-. apply Hnil; reflexivity.
  - injection Hb as <-. destruct ms as [|m ms'] eqn:Ems.
    + apply Hnil; reflexivity.
    + rewrite <- Ems in *. assert (Hne : ms <> []) by (rewrite Ems; discriminate).
      set (s := fold_left regmarker_step ms (mkRegState [] [] [] [])) in *.
      apply getregmarkerobjects_loop_last in Hg.
      unfold reg_assertions in Hg.
      rewrite filter_all_true in Hg.
      2:{ apply List.Forall_forall. intros a Ha. apply List.in_map_iff in Ha.
          destruct Ha as [[t r] [<- Hin]].
          assert (Hall := fold_pending_regulating ms (mkRegState [] [] [] []) (List.Forall_nil _)).
          apply List.Forall_forall with (x := (t, r)) in Hall; [exact Hall|exact Hin]. }
      rewrite last_opt_map in Hg. unfold s in Hg. rewrite fold_pending_last in Hg by exact Hne.
      fold s in Hg. destruct (kept_of_fold ms) as [r [Hk Hd]]. fold s in Hk, Hd.
      rewrite Hk in Hg. cbn [option_map a_objects a_predicate term] in Hg.
      destruct Hg as [l [Hl ->]]. rewrite Hd in Hl.
      destruct (getmarkerobjects_codes_gen _ _ _ _ Hl) as [codes [Hc Hm]].
      rewrite res_mapM_obj_code_cat in Hc. injection Hc as <-.
      rewrite map_map. transitivity (map (fun c => (c, kept_action ms)) (map fst l)).
      * rewrite map_map. apply map_ext. intros [c t]. reflexivity.
      * rewrite Hm, !map_map. reflexivity.
Qed.

(** A marker service that knows no marker. *)
Definition api_unknown : string -> res json := fun _ => Ok (JList []).

Definition regmarker_form_ex : form :=
  [("regmarker", FRegs [("HGNC:1", "up_regulates"); ("HGNC:2", "down_regulates");
                        ("HGNC:3", "up_regulates")])].

Lemma getmarkerobjects_codes_witness :
  exists out, getmarkerobjects senlib_ex api_unknown [code_obj " HGNC:1 "; code_obj "x"] = Ok out /\
  exists codes, res_mapM obj_code [code_obj " HGNC:1 "; code_obj "x"] = Ok codes /\
                map fst out = map py_strip codes.
Proof.
  eexists. split; [vm_compute; reflexivity|].
  apply (getmarkerobjects_codes senlib_ex api_unknown). vm_compute. reflexivity.
Defined.

Definition regmarker_assertions_ex : list assertion :=
  Eval vm_compute in
    match buildregmarkerassertions regmarker_form_ex with Ok l => l | _ => [] end.

Definition regmarker_out_ex : list (string * json * string) :=
  Eval vm_compute in
    match getregmarkerobjects senlib_ex api_unknown regmarker_assertions_ex with
    | Ok l => l | _ => [] end.

Lemma getregmarkerobjects_last_witness :
  exists assertions out,
    buildregmarkerassertions regmarker_form_ex = Ok assertions /\
    getregmarkerobjects senlib_ex api_unknown assertions = Ok out /\
    match last_opt (List.filter is_regulating assertions) with
    | None => out = []
    | Some a => exists l, getmarkerobjects senlib_ex api_unknown (a_objects a) = Ok l /\
                          out = map (fun '(c, t) => (c, t, term (a_predicate a))) l
    end.
Proof.
  exists regmarker_assertions_ex, regmarker_out_ex.
  split; [vm_compute; reflexivity|]. split; [vm_compute; reflexivity|].
  apply (getregmarkerobjects_last senlib_ex api_unknown regmarker_assertions_ex regmarker_out_ex).
  vm_compute. reflexivity.
Defined.

Lemma regmarkers_read_back_witness :
  exists assertions out,
    buildregmarkerassertions regmarker_form_ex = Ok assertions /\
    getregmarkerobjects senlib_ex api_unknown assertions = Ok out /\
    map (fun '(c, _, t) => (c, t)) out =
    map (fun m => (py_strip (fst m), kept_action (form_regmarkers regmarker_form_ex)))
        (List.filter (fun m => String.eqb (reg_action (snd m))
                                 (kept_action (form_regmarkers regmarker_form_ex)))
                     (form_regmarkers regmarker_form_ex)).
Proof.
  exists regmarker_assertions_ex, regmarker_out_ex.
  split; [vm_compute; reflexivity|]. split; [vm_compute; reflexivity|].
  apply (regmarkers_read_back senlib_ex api_unknown regmarker_form_ex
           regmarker_assertions_ex regmarker_out_ex); vm_compute; reflexivity.
Defined.

(* ------------------------------------------------------------------ *)
(** ** SenLib.setuserassubmitter *)

(** The Flask session as a string dictionary ([username], [userid]). *)
Definition session := list (string * string).

(** [form.submitterfirst.data = session['username'].split(' ')[0]], then
    the last name from [split(' ')[1]], then the email from [userid]. *)
Definition setuserassubmitter (sess : session) (fd : form) : res form :=
  match dict_get sess "username" with
  | None => Err (KeyError "username")
  | Some username =>
      match split_char " " username with
      | [] => Err IndexError
      | first :: _ =>
          let fd := dict_set fd "submitterfirst" (FStr (Some first)) in
          match dict_get sess "username" with
          | None => Err (KeyError "username")
          | Some username =>
              match split_char " " username with
              | _ :: last :: _ =>
                  let fd := dict_set fd "submitterlast" (FStr (Some last)) in
                  match dict_get sess "userid" with
                  | None => Err (KeyError "userid")
                  | Some userid => Ok (dict_set fd "submitteremail" (FStr (Some userid)))
                  end
              | _ => Err IndexError
              end
          end
      end
  end.

Lemma str_app_nil_r (s : string) : (s ++ "")%string = s.
Proof. induction s as [|c s IH]; [reflexivity|]. exact (f_equal (String c) IH). Qed.

Lemma split_char_cons sep s : exists w ws, split_char sep s = w :: ws.
Proof.
  induction s as [|c s [w [ws IH]]]; [eauto|]. simpl. rewrite IH.
  destruct (Ascii.eqb c sep); eauto.
Qed.

Lemma split_char_app_nosep sep a b :
  ~ In sep (list_ascii_of_string a) ->
  split_char sep (a ++ b) =
  match split_char sep b with w :: ws => (a ++ w) :: ws | [] => [] end.
Proof.
  induction a as [|c a IH]; intros Hn.
  - change ("" ++ b) with b. destruct (split_char sep b); reflexivity.
  - simpl in Hn. change (String c a ++ b) with (String c (a ++ b)). cbn [split_char].
    destruct (Ascii.eqb_spec c sep) as [->|_]; [exfalso; auto|].
    rewrite IH by auto. destruct (split_char_cons sep b) as [w [ws ->]]. reflexivity.
Qed.

Lemma split_char_nosep sep a :
  ~ In sep (list_ascii_of_string a) -> split_char sep a = [a].
Proof.
  intros Hn. rewrite <- (str_app_nil_r a) at 1.
  rewrite split_char_app_nosep by exact Hn. simpl. rewrite str_app_nil_r. reflexivity.
Qed.

(** A user whose name has no space cannot be made the submitter:
    setuserassubmitter raises IndexError on [split(' ')[1]]. *)
Theorem setuserassubmitter_one_word sess fd username
    (Hu : dict_get sess "username" = Some username)
    (Hn : ~ In " "%char (list_ascii_of_string username)) :
  setuserassubmitter sess fd = Err IndexError.
Proof. unfold setuserassubmitter. rewrite Hu, split_char_nosep by exact Hn. reflexivity. Qed.

(** setuserassubmitter takes as first name the text before the first
    space of the user name and as last name the text between the first
    and the second space (anything after a second space is dropped), and
    the user id as email. *)
Theorem setuserassubmitter_names sess fd first last rest userid
    (Hu : dict_get sess "username" = Some (first ++ String " " (last ++ rest)))
    (Hid : dict_get sess "userid" = Some userid)
    (Hf : ~ In " "%char (list_ascii_of_string first))
    (Hl : ~ In " "%char (list_ascii_of_string last))
    (Hr : rest = "" \/ exists r, rest = String " " r) :
  setuserassubmitter sess fd =
  Ok (dict_set (dict_set (dict_set fd "submitterfirst" (FStr (Some first)))
                         "submitterlast" (FStr (Some last)))
               "submitteremail" (FStr (Some userid))).
Proof.
  assert (Hs : exists ws, split_char " " (first ++ String " " (last ++ rest)) = first :: last :: ws).
  { rewrite split_char_app_nosep by exact Hf.
    change (split_char " " (String " " (last ++ rest))) with ("" :: split_char " " (last ++ rest)).
    cbv iota. rewrite str_app_nil_r, split_char_app_nosep by exact Hl.
    destruct Hr as [->|[r ->]].
    - exists []. change (split_char " " "") with [""]. cbv iota. rewrite str_app_nil_r. reflexivity.
    - exists (split_char " " r).
      change (split_char " " (String " " r)) with ("" :: split_char " " r). cbv iota.
      rewrite str_app_nil_r. reflexivity. }
  destruct Hs as [ws Hs].
  unfold setuserassubmitter. rewrite Hu, Hs, Hid. reflexivity.
Qed.

Definition session_ex : session := [("username", "Ada King Lovelace"); ("userid", "ada@example.org")].

Lemma setuserassubmitter_one_word_witness :
  dict_get [("username", "Ada"); ("userid", "ada@example.org")] "username" = Some "Ada" /\
  ~ In " "%char (list_ascii_of_string "Ada") /\
  setuserassubmitter [("username", "Ada"); ("userid", "ada@example.org")] [] = Err IndexError.
Proof.
  split; [reflexivity|]. split; [simpl; intuition discriminate|].
  apply (setuserassubmitter_one_word _ [] "Ada"); [reflexivity|simpl; intuition discriminate].
Defined.

Lemma setuserassubmitter_names_witness :
  setuserassubmitter session_ex [] =
  Ok (dict_set (dict_set (dict_set [] "submitterfirst" (FStr (Some "Ada")))
                         "submitterlast" (FStr (Some "King")))
               "submitteremail" (FStr (Some "ada@example.org"))).
Proof.
  apply (setuserassubmitter_names session_ex [] "Ada" "King" " Lovelace" "ada@example.org");
    [reflexivity|reflexivity|simpl; intuition discriminate|simpl; intuition discriminate|].
  right. exists "Lovelace". reflexivity.
Defined.

(* ------------------------------------------------------------------ *)
(** ** SenLib.build_session_regmarkerlist, build_session_list *)

(** One regulating marker of the session data: [getmarkerobjects] on
    [[{"code": rm['marker'].strip()}]], its first entry, typed with the
    action. *)
Definition session_regmarker (self : senlib) (api : string -> res json) (rm : string * string)
    : res (string * json * string) :=
  let! objs := getmarkerobjects self api [JObj [("code", JStr (py_strip (fst rm)))]] in
  match objs with
  | (c, t) :: _ => Ok (c, t, snd rm)
  | [] => Err IndexError
  end.

(** [form_data['regmarker']]: the session's list of [{marker, action}]
    entries. An empty list or string gives [[]]; iterating a string and
    indexing a character, or iterating [None], raises [TypeError]. *)
Definition build_session_regmarkerlist (self : senlib) (api : string -> res json)
    (form_data : form) : res (list (string * json * string)) :=
  match form_get form_data "regmarker" with
  | None => Err (KeyError "regmarker")
  | Some (FRegs regmarkers) => res_mapM (session_regmarker self api) regmarkers
  | Some (FList []) | Some (FStr (Some "")) => Ok []
  | Some (FList (_ :: _)) | Some (FStr _) => Err TypeError
  end.

Lemma session_regmarker_ok self api rm x :
  session_regmarker self api rm = Ok x ->
  exists t, x = (py_strip (fst rm), t, snd rm).
Proof.
  unfold session_regmarker. intros H. apply res_bind_ok in H as [objs [Ho H]].
  destruct (getmarkerobjects_codes_gen _ _ _ _ Ho) as [codes [Hc Hm]].
  cbn in Hc. injection Hc as <-.
  destruct objs as [|[c t] objs]; [discriminate H|]. injection H as <-.
  simpl in Hm. injection Hm as Hc _. rewrite py_strip_idem in Hc. subst c. eauto.
Qed.

(** Unlike the read from the database, the session's regulating marker
    list keeps every marker: when build_session_regmarkerlist succeeds it
    has one entry per regulating marker of the session data, in order,
    with the marker code stripped and the marker's own action. *)
Theorem build_session_regmarkerlist_all self api form_data out
    (H : build_session_regmarkerlist self api form_data = Ok out) :
  map (fun '(c, _, t) => (c, t)) out =
  map (fun rm => (py_strip (fst rm), snd rm)) (form_regmarkers form_data).
Proof.
  unfold build_session_regmarkerlist, form_regmarkers in *.
  destruct (form_get form_data "regmarker") as [[[s|]|[|x xs]|ms]|]; try discriminate H.
  - destruct (String.eqb_spec s "") as [->|Hs]; [injection H as <-; reflexivity|].
    destruct s; [contradiction|discriminate H].
  - injection H as <-. reflexivity.
  - revert out H. induction ms as [|rm ms IH]; intros out H; [injection H as <-; reflexivity|].
    cbn [res_mapM] in H. apply res_bind_ok in H as [x [Hx H]].
    apply res_bind_ok in H as [rest [Hr H]]. injection H as <-.
    destruct (session_regmarker_ok _ _ _ _ Hx) as [t ->].
    simpl. rewrite (IH rest Hr). reflexivity.
Qed.

Lemma build_session_regmarkerlist_all_witness :
  exists out, build_session_regmarkerlist senlib_ex api_unknown regmarker_form_ex = Ok out /\
    map (fun '(c, _, t) => (c, t)) out =
    map (fun rm => (py_strip (fst rm), snd rm)) (form_regmarkers regmarker_form_ex).
Proof.
  eexists. split; [vm_compute; reflexivity|].
  apply (build_session_regmarkerlist_all senlib_ex api_unknown). vm_compute. reflexivity.
Defined.

(** The predicates whose objects are resolved by an external service. *)
Definition external_predicates : list string :=
  ["has_citation"; "has_origin"; "has_dataset"; "has_cell_type"; "has_diagnosis"; "located_in"].

(** [get_field_metadata(field_name, 'predicate_term')]: [None] for a
    field without a row. *)
Definition get_field_predicate (self : senlib) (field_name : string) : option string :=
  match get_field_row self field_name with
  | Some row => Some (apo_predicate_term row)
  | None => None
  end.

(** [getassertionvalueset(predicate=None)] matches no row. *)
Definition valueset_of (self : senlib) (assertion : option string) : list valueset_row :=
  match assertion with
  | Some p => getassertionvalueset self p
  | None => []
  end.

(** [valueset[valueset['valueset_code'] == item]['valueset_term'].iloc[0]]. *)
Definition valueset_term_of (valueset : list valueset_row) (item : string) : res string :=
  match List.filter (fun r => String.eqb (valueset_code r) item) valueset with
  | r :: _ => Ok (valueset_term r)
  | [] => Err IndexError
  end.

Definition is_external (assertion : option string) : bool :=
  match assertion with
  | Some p => existsb (String.eqb p) external_predicates
  | None => false
  end.

(** [build_session_list(form_data, field_name)] over the session's list
    fields ([form_data[field_name]] is the list of codes); [None] is the
    [{}] returned for an empty list. A field without a predicate compares
    as [None], equal to none of the predicates, written here as [""]. *)
Definition build_session_list (self : senlib) (api : string -> res json)
    (form_data : list (string * list string)) (field_name : string)
    : res (option (list (string * json))) :=
  let assertion := get_field_predicate self field_name in
  let valueset := valueset_of self assertion in
  match dict_get form_data field_name with
  | None => Err (KeyError field_name)
  | Some field_codelist =>
      if Nat.ltb 0 (length field_codelist) then
        let! rawobjects :=
          res_mapM (fun item =>
                      let! t := if is_external assertion then Ok "" else valueset_term_of valueset item in
                      Ok (item, t)) field_codelist in
        let raw := map (fun '(c, t) => JObj [("code", JStr c); ("term", JStr t)]) rawobjects in
        let p := match assertion with Some p => p | None => "" end in
        if String.eqb p "has_citation" then let! o := getcitationobjects api raw in Ok (Some o)
        else if String.eqb p "has_origin" then let! o := getoriginobjects api raw in Ok (Some o)
        else if String.eqb p "has_dataset" then let! o := getdatasetobjects self api raw in Ok (Some o)
        else if String.eqb p "has_cell_type" then let! o := getcelltypeobjects self api raw in Ok (Some o)
        else if String.eqb p "located_in" then let! o := getlocationobjects self api raw in Ok (Some o)
        else if String.eqb p "has_diagnosis" then let! o := getdiagnosisobjects self api raw in Ok (Some o)
        else Ok (Some (map (fun '(c, t) => (c, JStr t)) rawobjects))
      else Ok None
  end.

Lemma find_filter_head {A} (f : A -> bool) l :
  find f l = match List.filter f l with x :: _ => Some x | [] => None end.
Proof. induction l as [|a l IH]; [reflexivity|]. simpl. destruct (f a); [reflexivity|exact IH]. Qed.

Lemma valueset_term_of_senlibterm self p c :
  valueset_term_of (getassertionvalueset self p) c =
  match getsenlibterm self p c with Some t => Ok t | None => Err IndexError end.
Proof.
  unfold valueset_term_of, getsenlibterm. rewrite find_filter_head.
  destruct (List.filter _ _); reflexivity.
Qed.

Lemma session_items_valueset self p codes :
  res_mapM (fun item =>
              let! t := valueset_term_of (getassertionvalueset self p) item in Ok (item, t)) codes =
  if forallb (fun c => match getsenlibterm self p c with Some _ => true | None => false end) codes
  then Ok (map (fun c => (c, py_str_opt (getsenlibterm self p c))) codes)
  else Err IndexError.
Proof.
  induction codes as [|c codes IH]; [reflexivity|]. cbn [res_mapM forallb map].
  rewrite valueset_term_of_senlibterm.
  destruct (getsenlibterm self p c) as [t|]; cbn [res_bind andb]; [|reflexivity].
  rewrite IH. destruct (forallb _ codes); reflexivity.
Qed.

(** On a field whose predicate is resolved from the valuesets (not
    citation, origin, dataset, cell type, location or diagnosis), a
    non-empty list of codes gives each code with its valueset term, the
    term getsenlibterm finds for it; a code missing from the valueset
    makes build_session_list raise IndexError. *)
Theorem build_session_list_valueset self api form_data field_name p codes
    (Hp : get_field_predicate self field_name = Some p)
    (Hx : existsb (String.eqb p) external_predicates = false)
    (Hc : dict_get form_data field_name = Some codes)
    (Hne : codes <> []) :
  build_session_list self api form_data field_name =
  if forallb (fun c => match getsenlibterm self p c with Some _ => true | None => false end) codes
  then Ok (Some (map (fun c => (c, JStr (py_str_opt (getsenlibterm self p c)))) codes))
  else Err IndexError.
Proof.
  unfold build_session_list. rewrite Hp, Hc. unfold is_external, valueset_of. rewrite Hx.
  destruct codes as [|c0 cs]; [contradiction|]. cbn [length Nat.ltb Nat.leb].
  rewrite session_items_valueset.
  unfold external_predicates in Hx. cbn [existsb] in Hx.
  apply orb_false_iff in Hx as [H1 Hx]. apply orb_false_iff in Hx as [H2 Hx].
  apply orb_false_iff in Hx as [H3 Hx]. apply orb_false_iff in Hx as [H4 Hx].
  apply orb_false_iff in Hx as [H5 Hx]. apply orb_false_iff in Hx as [H6 _].
  rewrite H1, H2, H3, H4, H6, H5.
  destruct (forallb _ _); cbn [res_bind]; [|reflexivity].
  rewrite map_map. reflexivity.
Qed.

Lemma build_session_list_valueset_witness :
  get_field_predicate senlib_ex "taxon" = Some "in_taxon" /\
  existsb (String.eqb "in_taxon") external_predicates = false /\
  dict_get [("taxon", ["NCBITaxon:9606"; "NCBITaxon:0"])] "taxon" = Some ["NCBITaxon:9606"; "NCBITaxon:0"] /\
  ["NCBITaxon:9606"; "NCBITaxon:0"] <> [] /\
  build_session_list senlib_ex api_unknown [("taxon", ["NCBITaxon:9606"; "NCBITaxon:0"])] "taxon" =
  Err IndexError.
Proof.
  split; [reflexivity|]. split; [reflexivity|]. split; [reflexivity|]. split; [discriminate|].
  rewrite (build_session_list_valueset senlib_ex api_unknown [("taxon", ["NCBITaxon:9606"; "NCBITaxon:0"])]
             "taxon" "in_taxon" ["NCBITaxon:9606"; "NCBITaxon:0"]);
    [vm_compute; reflexivity|reflexivity|reflexivity|reflexivity|discriminate].
Defined.

(* ------------------------------------------------------------------ *)
(** ** What a submission writes (SenLib.writesubmission) *)

Lemma writesenotype_frame st sid j st' k :
  writesenotype st sid j = Ok st' -> k <> id_key sid -> st' !! k = st !! k.
Proof.
  unfold writesenotype. destruct sid as [s|]; intros H Hk; [|discriminate H].
  injection H as <-. apply lookup_insert_ne. simpl in Hk. congruence.
Qed.

Lemma updatesuccessor_frame st sid succ st' k :
  updatesuccessor st sid succ = Ok st' -> k <> id_key sid -> st' !! k = st !! k.
Proof.
  unfold updatesuccessor. destruct (getsenotypejson st sid); [|discriminate].
  apply writesenotype_frame.
Qed.

(** writesubmission changes no other record: after a successful write,
    every id other than the submitted senotype id and (for a new version)
    the new version id holds what it held before. *)
Theorem writesubmission_frame self st fd new_version_id st' k
    (Hw : writesubmission self st fd new_version_id = Ok st')
    (Hk : k <> id_key (form_str fd "senotypeid"))
    (Hn : new_version_id <> "" -> k <> new_version_id) :
  st' !! k = st !! k.
Proof.
  unfold writesubmission in Hw.
  destruct (String.eqb_spec new_version_id "") as [E|E]; cbv iota zeta in Hw.
  - apply res_bind_ok in Hw as [sj [_ Hw]]. apply res_bind_ok in Hw as [st1 [Hw1 Hw]].
    injection Hw as <-. exact (writesenotype_frame _ _ _ _ _ Hw1 Hk).
  - apply res_bind_ok in Hw as [sj [_ Hw]]. apply res_bind_ok in Hw as [st1 [Hw1 Hw]].
    rewrite (updatesuccessor_frame _ _ _ _ _ Hw Hk).
    apply (writesenotype_frame _ _ _ _ _ Hw1). simpl. exact (Hn E).
Qed.

Lemma writesubmission_frame_witness :
  writesubmission tables_ex store_ex (form_ex "Q") "" =
    Ok (write_result (writesubmission tables_ex store_ex (form_ex "Q") "")) /\
  "P" <> id_key (form_str (form_ex "Q") "senotypeid") /\
  ("" <> "" -> "P" <> "") /\
  write_result (writesubmission tables_ex store_ex (form_ex "Q") "") !! "P" = store_ex !! "P".
Proof.
  assert (Hw : writesubmission tables_ex store_ex (form_ex "Q") "" =
               Ok (write_result (writesubmission tables_ex store_ex (form_ex "Q") "")))
    by reflexivity.
  assert (Hk : "P" <> id_key (form_str (form_ex "Q") "senotypeid")) by discriminate.
  assert (Hn : "" <> "" -> "P" <> "") by (intros H; contradiction H; reflexivity).
  split; [exact Hw|]. split; [exact Hk|]. split; [exact Hn|].
  exact (writesubmission_frame tables_ex store_ex (form_ex "Q") "" _ "P" Hw Hk Hn).
Defined.

(* ------------------------------------------------------------------ *)
(** ** SenLib.getdoi *)

(** [s.split(sep)] for a non-empty separator; the fuel is the length of
    [s] plus one. *)
Fixpoint split_str_fuel (fuel : nat) (sep s : string) : list string :=
  match fuel with
  | O => [s]
  | S f =>
      match s with
      | EmptyString => [EmptyString]
      | String c rest =>
          if String.prefix sep s
          then EmptyString :: split_str_fuel f sep (substring (String.length sep)
                                                       (String.length s - String.length sep) s)
          else match split_str_fuel f sep rest with
               | w :: ws => String c w :: ws
               | [] => [String c EmptyString]
               end
      end
  end.

Definition py_split_str (sep s : string) : list string :=
  split_str_fuel (S (String.length s)) sep s.

(** [x.get(k)] where [x] may be [None]. *)
Definition jget_opt (x : option json) (k : string) : res (option json) :=
  match x with
  | Some j => jget j k
  | None => Err AttributeError
  end.

(** [response.get('data').get('attributes').get('titles')[0].get('title', '')]. *)
Definition datacite_title (response : json) : res json :=
  let! data := jget response "data" in
  let! attributes := jget_opt data "attributes" in
  let! titles := jget_opt attributes "titles" in
  let! t0 := jindex0 (match titles with Some x => x | None => JNull end) in
  jget_default t0 "title" (JStr "").

Section GetDoi.

(** [api.getresponse]: a failed request is [None], written [JNull]. *)
Variable api : string -> res json.
(** [str(title)] in the f-string. *)
Variable py_str : json -> string.

(** [getdoi(senotype)] on the senotype's [doi] ([None] gives [''];
    without ['https://doi.org/'] the index [1] raises). *)
Definition getdoi (doi_url : option string) : res string :=
  match doi_url with
  | None => Ok ""
  | Some doi_url =>
      match py_split_str "https://doi.org/" doi_url with
      | _ :: doi :: _ =>
          let url := "https://api.datacite.org/dois/" ++ doi in
          let! response := api url in
          let! title :=
            match response with
            | JNull =>
                let! responseheartbeat := api "https://api.datacite.org/heartbeat" in
                match responseheartbeat with
                | JStr "OK" => Ok (JStr "unknown title")
                | _ => Ok (JStr "invalid response from DataCite API")
                end
            | _ => datacite_title response
            end in
          Ok (doi_url ++ " (" ++ py_str title ++ ")")
      | _ => Err IndexError
      end
  end.

Lemma getdoi_display doi_url disp :
  getdoi (Some doi_url) = Ok disp -> exists r, disp = doi_url ++ " (" ++ r.
Proof.
  unfold getdoi. destruct (py_split_str _ _) as [|w [|doi ws]]; try discriminate.
  intros H. apply res_bind_ok in H as [response [_ H]].
  apply res_bind_ok in H as [title [_ H]]. injection H as <-. eauto.
Qed.

End GetDoi.

Lemma split_paren_doi x : split_paren ("https://doi.org/" ++ x) = "https://doi.org/" ++ split_paren x.
Proof. reflexivity. Qed.

(** The DOI grows on every save of a reloaded record: fetchfromdb puts
    getdoi's "<stored DOI url> (<title>)" in the DOI field, and saving
    that form stores "https://doi.org/" in front of the stored url again
    (its split(' (')[0] is the whole url), whatever the title. *)
Theorem doi_resave_prefix api py_str self st fd sid pid sj doi_url disp
    (HU : split_paren doi_url = doi_url)
    (Hd : getdoi api py_str (Some doi_url) = Ok disp)
    (Hf : form_str fd "doi" = Some disp)
    (Hb : buildsubmissionjson self st fd sid pid = Ok sj) :
  doi (sj_senotype sj) = Some ("https://doi.org/" ++ doi_url).
Proof.
  apply buildsubmissionjson_ok in Hb as [a [_ ->]]. cbn [sj_senotype doi].
  rewrite Hf. destruct (getdoi_display _ _ _ _ Hd) as [r ->].
  rewrite split_paren_app by exact HU. reflexivity.
Qed.

(** A DataCite service that knows every DOI under one title. *)
Definition datacite_ex : string -> res json :=
  fun _ => Ok (JObj [("data", JObj [("attributes", JObj [("titles",
                JList [JObj [("title", JStr "A title")]])])])]).

Definition py_str_ex (j : json) : string := match j with JStr s => s | _ => "" end.

Definition doi_form_ex : form :=
  [("senotypeid", FStr (Some "P")); ("doi", FStr (Some "https://doi.org/10.1/x (A title)"));
   ("senotypename", FStr (Some "Senotype X")); ("submitteremail", FStr (Some "a@x.org"));
   ("taxon", FList ["NCBITaxon:9606"]); ("regmarker", FRegs [])].

Definition doi_sj_ex : senotype_json :=
  match buildsubmissionjson tables_ex store_ex doi_form_ex (Some "P") None with
  | Ok sj => sj
  | _ => rec_P
  end.

Lemma doi_resave_prefix_witness :
  split_paren "https://doi.org/10.1/x" = "https://doi.org/10.1/x" /\
  getdoi datacite_ex py_str_ex (Some "https://doi.org/10.1/x") =
    Ok "https://doi.org/10.1/x (A title)" /\
  form_str doi_form_ex "doi" = Some "https://doi.org/10.1/x (A title)" /\
  buildsubmissionjson tables_ex store_ex doi_form_ex (Some "P") None = Ok doi_sj_ex /\
  doi (sj_senotype doi_sj_ex) = Some ("https://doi.org/" ++ "https://doi.org/10.1/x").
Proof.
  assert (HU : split_paren "https://doi.org/10.1/x" = "https://doi.org/10.1/x") by reflexivity.
  assert (Hd : getdoi datacite_ex py_str_ex (Some "https://doi.org/10.1/x") =
               Ok "https://doi.org/10.1/x (A title)") by (vm_compute; reflexivity).
  assert (Hf : form_str doi_form_ex "doi" = Some "https://doi.org/10.1/x (A title)") by reflexivity.
  assert (Hb : buildsubmissionjson tables_ex store_ex doi_form_ex (Some "P") None = Ok doi_sj_ex)
    by (vm_compute; reflexivity).
  split; [exact HU|]. split; [exact Hd|]. split; [exact Hf|]. split; [exact Hb|].
  exact (doi_resave_prefix datacite_ex py_str_ex tables_ex store_ex doi_form_ex (Some "P") None
           doi_sj_ex "https://doi.org/10.1/x" "https://doi.org/10.1/x (A title)" HU Hd Hf Hb).
Defined.
